(** * lepus/models.py: the data-model layer of the lepus CTF score server

    A shallow embedding of [src/lepus/models.py].  Model instances are
    records, the relational store is a record of row lists, a Python
    exception is the [Raise] branch of [result], and the clock and the salt
    generator, which the code reads from its environment, are arguments of
    the operations that read them.

    Text is kept as [string], the UTF-8 bytes of the Python [str], so that
    [s.encode("utf-8")] is the byte view of the string. *)

From Stdlib Require Import ZArith String Ascii List Bool Lia.
From Stdlib Require Import DecimalString DecimalZ DecimalPos.
From Stdlib Require Import PrimFloat FloatOps SpecFloat.
From Stdlib Require Import Permutation.
Import ListNotations.

Local Open Scope string_scope.
Local Open Scope list_scope.
Local Open Scope Z_scope.

(** ** Python exceptions and results *)

(** [NotModelled] is no Python exception: it is the answer of a library
    function on an input for which its behaviour is not written out
    here. *)
Inductive exception : Type :=
| ZeroDivisionError
| OverflowError
| ValueError
| DoesNotExist
| MultipleObjectsReturned
| IntegrityError
| DatabaseError
| AttributeError
| TypeError
| NotModelled.

Inductive result (A : Type) : Type :=
| Ok (a : A)
| Raise (e : exception).

Arguments Ok {A} a.
Arguments Raise {A} e.

Definition bind {A B : Type} (r : result A) (k : A -> result B) : result B :=
  match r with
  | Ok a => k a
  | Raise e => Raise e
  end.

Notation "x <- r ;; k" := (bind r (fun x => k))
  (at level 61, r at next level, right associativity).

(** ** Built-ins *)

(** [str(n)] for a Python [int]. *)
Definition str_int (n : Z) : string :=
  NilZero.string_of_int (Z.to_int n).

(** [c in s] for a character [c]. *)
Fixpoint str_contains (c : ascii) (s : string) : bool :=
  match s with
  | EmptyString => false
  | String x rest => Ascii.eqb x c || str_contains c rest
  end.

(** [sum(l)]: the running total starts at 0 and takes the items left to
    right. *)
Definition sum (l : list Z) : Z :=
  fold_left Z.add l 0.

(** [x / y] on floats: Python raises on a zero divisor, otherwise the
    quotient is the IEEE 754 binary64 one. *)
Definition float_truediv (x y : float) : result float :=
  if PrimFloat.eqb y PrimFloat.zero then Raise ZeroDivisionError
  else Ok (PrimFloat.div x y).

(** [int(x)] on a float: truncation toward zero; not-a-number and the
    infinities raise. *)
Definition int_of_float (x : float) : result Z :=
  match Prim2SF x with
  | S754_zero _ => Ok 0
  | S754_infinity _ => Raise OverflowError
  | S754_nan => Raise ValueError
  | S754_finite s m e =>
      let mag := if 0 <=? e then Z.shiftl (Zpos m) e
                 else Z.shiftr (Zpos m) (- e) in
      Ok (if s then - mag else mag)
  end.

(** ** hashlib.sha1

    FIPS 180-4 SHA-1 on a byte list; a 32-bit word is a [Z] in
    [0, 2^32). *)

Module SHA1.

Definition mask32 : Z := 0xFFFFFFFF.

Definition add32 (x y : Z) : Z := (x + y) mod 2 ^ 32.

Definition rotl (n x : Z) : Z :=
  Z.lor (Z.land (Z.shiftl x n) mask32) (Z.shiftr x (32 - n)).

Definition not32 (x : Z) : Z := Z.lxor x mask32.

Definition bytes_of_string (s : string) : list Z :=
  map (fun c => Z.of_N (N_of_ascii c)) (list_ascii_of_string s).

(** Big-endian bytes of [x], [n] of them. *)
Fixpoint be_bytes (n : nat) (x : Z) : list Z :=
  match n with
  | O => []
  | S n' => be_bytes n' (Z.shiftr x 8) ++ [Z.land x 0xFF]
  end.

Definition pad (msg : list Z) : list Z :=
  let l := Z.of_nat (length msg) in
  msg ++ [0x80] ++ repeat 0 (Z.to_nat ((55 - l) mod 64)) ++ be_bytes 8 (8 * l).

Fixpoint words (bs : list Z) : list Z :=
  match bs with
  | b0 :: b1 :: b2 :: b3 :: rest =>
      Z.lor (Z.shiftl b0 24) (Z.lor (Z.shiftl b1 16) (Z.lor (Z.shiftl b2 8) b3))
      :: words rest
  | _ => []
  end.

Fixpoint blocks (fuel : nat) (ws : list Z) : list (list Z) :=
  match fuel, ws with
  | S fuel', _ :: _ => firstn 16 ws :: blocks fuel' (skipn 16 ws)
  | _, _ => []
  end.

Definition schedule (block : list Z) : list Z :=
  fold_left
    (fun w t =>
       w ++ [rotl 1 (Z.lxor (Z.lxor (nth (t - 3) w 0) (nth (t - 8) w 0))
                            (Z.lxor (nth (t - 14) w 0) (nth (t - 16) w 0)))])
    (seq 16 64) block.

Definition state : Type := Z * Z * Z * Z * Z.

Definition round (st : state) (tw : nat * Z) : state :=
  let '(a, b, c, d, e) := st in
  let '(t, w) := tw in
  let '(f, k) :=
    if (t <? 20)%nat then
      (Z.lor (Z.land b c) (Z.land (not32 b) d), 0x5A827999)
    else if (t <? 40)%nat then
      (Z.lxor (Z.lxor b c) d, 0x6ED9EBA1)
    else if (t <? 60)%nat then
      (Z.lor (Z.lor (Z.land b c) (Z.land b d)) (Z.land c d), 0x8F1BBCDC)
    else
      (Z.lxor (Z.lxor b c) d, 0xCA62C1D6) in
  let temp := add32 (add32 (add32 (add32 (rotl 5 a) f) e) k) w in
  (temp, a, rotl 30 b, c, d).

Definition compress (h : state) (block : list Z) : state :=
  let '(h0, h1, h2, h3, h4) := h in
  let '(a, b, c, d, e) :=
    fold_left round (combine (seq 0 80) (schedule block)) h in
  (add32 h0 a, add32 h1 b, add32 h2 c, add32 h3 d, add32 h4 e).

Definition init : state :=
  (0x67452301, 0xEFCDAB89, 0x98BADCFE, 0x10325476, 0xC3D2E1F0).

Definition digest (msg : list Z) : state :=
  let ws := words (pad msg) in
  fold_left compress (blocks (length ws) ws) init.

Definition hex_digit (x : Z) : ascii :=
  ascii_of_N (Z.to_N (if x <? 10 then 48 + x else 87 + x)).

Fixpoint hex_word (n : nat) (x : Z) (acc : string) : string :=
  match n with
  | O => acc
  | S n' => hex_word n' (Z.shiftr x 4) (String (hex_digit (Z.land x 0xF)) acc)
  end.

(** [hashlib.sha1(); update(msg); hexdigest()] *)
Definition hexdigest (msg : list Z) : string :=
  let '(h0, h1, h2, h3, h4) := digest msg in
  hex_word 8 h0 (hex_word 8 h1 (hex_word 8 h2 (hex_word 8 h3 (hex_word 8 h4 EmptyString)))).

End SHA1.

(** ** The schema

    One record per model class; [id] is the primary key the framework adds,
    [created_at] and [updated_at] come from the abstract base [Templete].  A
    foreign key is the primary key of the row it points to, a nullable
    column is an [option]. *)

Definition datetime : Type := Z.

Module Question.
Record t : Type := {
  id : Z;
  created_at : datetime;
  updated_at : datetime;
  category : Z;
  ordering : Z;
  title : string;
  sentence : string;
  max_answers : option Z;
  max_failure : option Z;
  is_public : bool
}.
End Question.

Module Flag.
Record t : Type := {
  id : Z;
  created_at : datetime;
  updated_at : datetime;
  flag : string;
  question : Z;
  point : Z
}.
End Flag.

Module File.
Record t : Type := {
  id : Z;
  created_at : datetime;
  updated_at : datetime;
  question : Z;
  name : string;
  file : string;
  is_public : bool
}.
End File.

Module Team.
(** [_password] is the instance attribute that [check_password] assigns; it
    is not a column.  [None] is an attribute that was never assigned,
    [Some None] is the Python value [None]. *)
Record t : Type := {
  id : Z;
  created_at : datetime;
  updated_at : datetime;
  name : string;
  password : string;
  last_score_time : option datetime;
  _password : option (option string)
}.
End Team.

Module User.
Record t : Type := {
  id : Z;
  created_at : datetime;
  updated_at : datetime;
  username : string;
  team : option Z;
  seat : string;
  last_score_time : option datetime
}.
End User.

Module UserConnection.
Record t : Type := {
  id : Z;
  created_at : datetime;
  updated_at : datetime;
  user : Z;
  ip : string
}.
End UserConnection.

Module Answer.
Record t : Type := {
  id : Z;
  created_at : datetime;
  updated_at : datetime;
  user : Z;
  team : Z;
  question : Z;
  flag : option Z;
  answer : string
}.
End Answer.

Module AttackPoint.
Record t : Type := {
  id : Z;
  created_at : datetime;
  updated_at : datetime;
  user : Z;
  team : Z;
  question : Z;
  token : string;
  point : Z
}.
End AttackPoint.

Module Config.
Record t : Type := {
  id : Z;
  created_at : datetime;
  updated_at : datetime;
  key : string;
  value_str : string
}.
End Config.

(** The relational store: one row list per table, in insertion order. *)
Record Database : Type := {
  questions : list Question.t;
  flags : list Flag.t;
  files : list File.t;
  teams : list Team.t;
  users : list User.t;
  user_connections : list UserConnection.t;
  answers : list Answer.t;
  attack_points : list AttackPoint.t;
  configs : list Config.t
}.

Definition empty_db : Database :=
  {| questions := []; flags := []; files := []; teams := []; users := [];
     user_connections := []; answers := []; attack_points := [];
     configs := [] |}.

(** ** The part of the ORM the models rely on *)

(** A column value inside a uniqueness key; [None] in a key is SQL NULL. *)
Inductive cell : Type :=
| CInt (z : Z)
| CStr (s : string).

Definition cell_eqb (a b : cell) : bool :=
  match a, b with
  | CInt x, CInt y => x =? y
  | CStr x, CStr y => String.eqb x y
  | _, _ => false
  end.

Definition ukey : Type := list (option cell).

Fixpoint ukey_eqb (k k' : ukey) : bool :=
  match k, k' with
  | [], [] => true
  | Some a :: k, Some b :: k' => cell_eqb a b && ukey_eqb k k'
  | None :: k, None :: k' => ukey_eqb k k'
  | _, _ => false
  end.

Definition not_null (c : option cell) : bool :=
  match c with Some _ => true | None => false end.

(** Two rows collide on a uniqueness constraint when their keys are equal
    and hold no NULL: the store never takes NULL to be equal to anything,
    itself included. *)
Definition collide (k k' : ukey) : bool :=
  forallb not_null k && ukey_eqb k k'.

(** What a model class declares to the ORM: its primary key, its
    timestamps, and its [unique=True] columns and [unique_together] groups,
    each as the key it projects out of a row. *)
Class Model (R : Type) : Type := {
  pk : R -> Z;
  with_pk : Z -> R -> R;
  auto_now_add : datetime -> R -> R;
  auto_now : datetime -> R -> R;
  uniques : list (R -> ukey)
}.

Section ORM.
Context {R : Type} `{Model R}.

Definition violates (rows : list R) (r : R) : bool :=
  existsb (fun u => existsb (fun r' => collide (u r) (u r')) rows) uniques.

(** The next value of the table's key sequence. *)
Definition next_pk (rows : list R) : Z :=
  1 + fold_left Z.max (map pk rows) 0.

(** [objects.create(...)]: [INSERT] of a new row.  [t_add] and [t_now]
    are the clock readings taken for [auto_now_add] and [auto_now].  Of the
    checks of the store, the declared uniqueness constraints are the ones
    written out: the range of an integer column, NOT NULL, the length of
    a text column and foreign keys are not checked here. *)
Definition create (t_add t_now : datetime) (rows : list R) (r : R)
  : result (R * list R) :=
  let r' := with_pk (next_pk rows) (auto_now t_now (auto_now_add t_add r)) in
  if violates rows r' then Raise IntegrityError
  else Ok (r', rows ++ [r']).

(** [obj.save()] of an instance whose primary key is set: [UPDATE] of the
    row with that key, or [INSERT] when there is none. *)
Definition save (t_now : datetime) (rows : list R) (r : R)
  : result (R * list R) :=
  let r' := auto_now t_now r in
  let others := filter (fun x => negb (pk x =? pk r')) rows in
  if violates others r' then Raise IntegrityError
  else if existsb (fun x => pk x =? pk r') rows
       then Ok (r', map (fun x => if pk x =? pk r' then r' else x) rows)
       else Ok (r', rows ++ [r']).

(** The table satisfies its declared constraints: keys are pairwise
    distinct, and no two rows collide. *)
Fixpoint consistent (rows : list R) : Prop :=
  match rows with
  | [] => True
  | r :: rest =>
      (forall r', In r' rest -> pk r' <> pk r)
      /\ violates rest r = false
      /\ consistent rest
  end.
End ORM.

(** [unique_together = (('user', 'ip'),)] *)
Definition UserConnection_key (c : UserConnection.t) : ukey :=
  [Some (CInt (UserConnection.user c)); Some (CStr (UserConnection.ip c))].

#[export] Instance UserConnection_Model : Model UserConnection.t := {|
  pk := UserConnection.id;
  with_pk k c :=
    {| UserConnection.id := k;
       UserConnection.created_at := UserConnection.created_at c;
       UserConnection.updated_at := UserConnection.updated_at c;
       UserConnection.user := UserConnection.user c;
       UserConnection.ip := UserConnection.ip c |};
  auto_now_add t c :=
    {| UserConnection.id := UserConnection.id c;
       UserConnection.created_at := t;
       UserConnection.updated_at := UserConnection.updated_at c;
       UserConnection.user := UserConnection.user c;
       UserConnection.ip := UserConnection.ip c |};
  auto_now t c :=
    {| UserConnection.id := UserConnection.id c;
       UserConnection.created_at := UserConnection.created_at c;
       UserConnection.updated_at := t;
       UserConnection.user := UserConnection.user c;
       UserConnection.ip := UserConnection.ip c |};
  uniques := [UserConnection_key]
|}.

(** [unique_together = (('team', 'flag'),)], with [flag] declared
    [null=True] *)
Definition Answer_key (a : Answer.t) : ukey :=
  [Some (CInt (Answer.team a)); option_map CInt (Answer.flag a)].

#[export] Instance Answer_Model : Model Answer.t := {|
  pk := Answer.id;
  with_pk k a :=
    {| Answer.id := k;
       Answer.created_at := Answer.created_at a;
       Answer.updated_at := Answer.updated_at a;
       Answer.user := Answer.user a; Answer.team := Answer.team a;
       Answer.question := Answer.question a; Answer.flag := Answer.flag a;
       Answer.answer := Answer.answer a |};
  auto_now_add t a :=
    {| Answer.id := Answer.id a;
       Answer.created_at := t;
       Answer.updated_at := Answer.updated_at a;
       Answer.user := Answer.user a; Answer.team := Answer.team a;
       Answer.question := Answer.question a; Answer.flag := Answer.flag a;
       Answer.answer := Answer.answer a |};
  auto_now t a :=
    {| Answer.id := Answer.id a;
       Answer.created_at := Answer.created_at a;
       Answer.updated_at := t;
       Answer.user := Answer.user a; Answer.team := Answer.team a;
       Answer.question := Answer.question a; Answer.flag := Answer.flag a;
       Answer.answer := Answer.answer a |};
  uniques := [Answer_key]
|}.

(** [token = models.CharField(..., unique=True)] *)
Definition AttackPoint_key (p : AttackPoint.t) : ukey :=
  [Some (CStr (AttackPoint.token p))].

#[export] Instance AttackPoint_Model : Model AttackPoint.t := {|
  pk := AttackPoint.id;
  with_pk k p :=
    {| AttackPoint.id := k;
       AttackPoint.created_at := AttackPoint.created_at p;
       AttackPoint.updated_at := AttackPoint.updated_at p;
       AttackPoint.user := AttackPoint.user p;
       AttackPoint.team := AttackPoint.team p;
       AttackPoint.question := AttackPoint.question p;
       AttackPoint.token := AttackPoint.token p;
       AttackPoint.point := AttackPoint.point p |};
  auto_now_add t p :=
    {| AttackPoint.id := AttackPoint.id p;
       AttackPoint.created_at := t;
       AttackPoint.updated_at := AttackPoint.updated_at p;
       AttackPoint.user := AttackPoint.user p;
       AttackPoint.team := AttackPoint.team p;
       AttackPoint.question := AttackPoint.question p;
       AttackPoint.token := AttackPoint.token p;
       AttackPoint.point := AttackPoint.point p |};
  auto_now t p :=
    {| AttackPoint.id := AttackPoint.id p;
       AttackPoint.created_at := AttackPoint.created_at p;
       AttackPoint.updated_at := t;
       AttackPoint.user := AttackPoint.user p;
       AttackPoint.team := AttackPoint.team p;
       AttackPoint.question := AttackPoint.question p;
       AttackPoint.token := AttackPoint.token p;
       AttackPoint.point := AttackPoint.point p |};
  uniques := [AttackPoint_key]
|}.

(** Replacing one table of the store. *)
Definition with_user_connections (l : list UserConnection.t) (db : Database)
  : Database :=
  {| questions := questions db; flags := flags db; files := files db;
     teams := teams db; users := users db; user_connections := l;
     answers := answers db; attack_points := attack_points db;
     configs := configs db |}.

Definition with_answers (l : list Answer.t) (db : Database) : Database :=
  {| questions := questions db; flags := flags db; files := files db;
     teams := teams db; users := users db;
     user_connections := user_connections db;
     answers := l; attack_points := attack_points db;
     configs := configs db |}.

Definition with_attack_points (l : list AttackPoint.t) (db : Database)
  : Database :=
  {| questions := questions db; flags := flags db; files := files db;
     teams := teams db; users := users db;
     user_connections := user_connections db;
     answers := answers db; attack_points := l;
     configs := configs db |}.

Definition with_teams (l : list Team.t) (db : Database) : Database :=
  {| questions := questions db; flags := flags db; files := files db;
     teams := l; users := users db;
     user_connections := user_connections db;
     answers := answers db; attack_points := attack_points db;
     configs := configs db |}.

(** ** Question *)

(** [Question.points]:
    [sum([o.point for o in self.flag_set.all()])] *)
Definition Question_points (self : Question.t) (db : Database) : Z :=
  sum (map Flag.point
         (filter (fun o => Flag.question o =? Question.id self) (flags db))).

(** [Question.files]: [self.file_set.filter(is_public=True)] *)
Definition Question_files (self : Question.t) (db : Database) : list File.t :=
  filter (fun f => File.is_public f)
    (filter (fun f => File.question f =? Question.id self) (files db)).

(** [QuestionManager.public]: [get_queryset().filter(is_public=True)] *)
Definition QuestionManager_public (db : Database) : list Question.t :=
  filter (fun q => Question.is_public q) (questions db).

(** ** File *)

(** [FileManager.public]:
    [get_queryset().filter(is_public=True, question__is_public=True)].
    The lookup through the foreign key is an inner join with the question
    table. *)
Definition FileManager_public (db : Database) : list File.t :=
  flat_map
    (fun f =>
       map (fun _ => f)
         (filter (fun q => (Question.id q =? File.question f)
                           && Question.is_public q)
            (questions db)))
    (filter (fun f => File.is_public f) (files db)).

(** ** Team *)

(** [django.contrib.auth.hashers] as the project configures it: the
    settings that pick the hashers are not part of the model layer, so the
    functions the models call are taken as given.
    [verify] stands for [identify_hasher(encoded).verify], [must_update]
    for the test that the stored hash is not in the preferred format, and
    [make_password] gets the salt it draws as its first argument. *)
Record Hashers : Type := {
  make_password : string -> string -> string;
  is_password_usable : string -> bool;
  verify : string -> string -> bool;
  must_update : string -> bool
}.

(** [hashers.check_password(password, encoded, setter)], over the state
    [S] that [setter] works on. *)
Definition check_password {S : Type} (h : Hashers) (password encoded : string)
    (setter : string -> S -> result unit * S) (s : S) : result bool * S :=
  if negb (is_password_usable h encoded) then (Ok false, s)
  else
    let is_correct := verify h password encoded in
    if is_correct && must_update h encoded then
      match setter password s with
      | (Ok _, s') => (Ok is_correct, s')
      | (Raise e, s') => (Raise e, s')
      end
    else (Ok is_correct, s).

Definition Team_with_password (encoded : string) (self : Team.t) : Team.t :=
  {| Team.id := Team.id self; Team.created_at := Team.created_at self;
     Team.updated_at := Team.updated_at self; Team.name := Team.name self;
     Team.password := encoded;
     Team.last_score_time := Team.last_score_time self;
     Team._password := Team._password self |}.

(** [Team.set_password]: [self.password = make_password(password)] *)
Definition Team_set_password (h : Hashers) (salt : string) (self : Team.t)
    (password : string) : Team.t :=
  Team_with_password (make_password h salt password) self.

(** [self.save(update_fields=["password"])]: an [UPDATE] of the one column
    on the row whose key is [self.id]; it raises when no row was changed. *)
Definition Team_save_password (self : Team.t) (db : Database)
  : result unit * Database :=
  if existsb (fun r => Team.id r =? Team.id self) (teams db) then
    (Ok tt,
     with_teams
       (map (fun r => if Team.id r =? Team.id self
                      then Team_with_password (Team.password self) r
                      else r)
          (teams db))
       db)
  else (Raise DatabaseError, db).

(** The closure [setter] of [Team.check_password]; its state is the
    instance and the store. *)
Definition Team_check_password_setter (h : Hashers) (salt : string)
    (raw_password : string) (st : Team.t * Database)
  : result unit * (Team.t * Database) :=
  let '(self, db) := st in
  let self := Team_set_password h salt self raw_password in
  let self :=
    {| Team.id := Team.id self; Team.created_at := Team.created_at self;
       Team.updated_at := Team.updated_at self; Team.name := Team.name self;
       Team.password := Team.password self;
       Team.last_score_time := Team.last_score_time self;
       Team._password := Some None |} in
  let '(r, db) := Team_save_password self db in
  (r, (self, db)).

(** [Team.check_password] *)
Definition Team_check_password (h : Hashers) (salt : string) (self : Team.t)
    (raw_password : string) (db : Database)
  : result bool * (Team.t * Database) :=
  check_password h raw_password (Team.password self)
    (Team_check_password_setter h salt) (self, db).

(** The two settings [Team.token] reads. *)
Record Settings : Type := {
  TEAM_TOKEN_SECRET_KEY : string;
  TEAM_TOKEN_INTERVAL : float
}.

(** [int(time.time() / settings.TEAM_TOKEN_INTERVAL)], with [time_time]
    the value [time.time()] returns. *)
Definition token_bucket (settings : Settings) (time_time : float) : result Z :=
  q <- float_truediv time_time (TEAM_TOKEN_INTERVAL settings) ;;
  int_of_float q.

(** ["{0}_{1}_{2}".format(key, id, bucket)] hashed. *)
Definition token_digest (key : string) (id bucket : Z) : string :=
  SHA1.hexdigest
    (SHA1.bytes_of_string
       (key ++ "_" ++ str_int id ++ "_" ++ str_int bucket)%string).

(** [Team.token] *)
Definition Team_token (settings : Settings) (time_time : float)
    (self : Team.t) : result string :=
  bucket <- token_bucket settings time_time ;;
  Ok (token_digest (TEAM_TOKEN_SECRET_KEY settings) (Team.id self) bucket).

(** [answer.flag]: the row the foreign key points to. *)
Definition get_flag (db : Database) (k : Z) : result Flag.t :=
  match filter (fun f => Flag.id f =? k) (flags db) with
  | [f] => Ok f
  | [] => Raise DoesNotExist
  | _ => Raise MultipleObjectsReturned
  end.

Definition flag_is_null (a : Answer.t) : bool :=
  match Answer.flag a with None => true | Some _ => false end.

(** [for answer in answers: points += answer.flag.point] *)
Fixpoint add_flag_points (db : Database) (answers : list Answer.t)
    (points : Z) : result Z :=
  match answers with
  | [] => Ok points
  | answer :: rest =>
      match Answer.flag answer with
      | None => Raise AttributeError
      | Some k =>
          flag <- get_flag db k ;;
          add_flag_points db rest (points + Flag.point flag)
      end
  end.

(** [for attack_point in ...: points += attack_point.point] *)
Definition add_attack_points (attack_points : list AttackPoint.t)
    (points : Z) : Z :=
  fold_left (fun points attack_point => points + AttackPoint.point attack_point)
    attack_points points.

(** [Team.points] *)
Definition Team_points (self : Team.t) (db : Database) : result Z :=
  let answers :=
    filter (fun a => negb (flag_is_null a))
      (filter (fun a => Answer.team a =? Team.id self) (answers db)) in
  points <- add_flag_points db answers 0 ;;
  Ok (add_attack_points
        (filter (fun p => AttackPoint.team p =? Team.id self)
           (attack_points db))
        points).

(** ** User *)

(** [User.points] *)
Definition User_points (self : User.t) (db : Database) : result Z :=
  let answers :=
    filter (fun a => negb (flag_is_null a))
      (filter (fun a => Answer.user a =? User.id self) (answers db)) in
  points <- add_flag_points db answers 0 ;;
  Ok (add_attack_points
        (filter (fun p => AttackPoint.user p =? User.id self)
           (attack_points db))
        points).

(** ** UserConnection *)

(** [ip = models.GenericIPAddressField(...)].  The field prepares the
    attribute for the store, in a lookup as in INSERT and UPDATE, and the
    attribute of the instance stays as it was set.  [clean_ipv6_address]
    is Django's: it gives the normal text of an IPv6 address, and [None]
    stands for the ValidationError it raises on other text. *)
Definition cleaner : Type := string -> option string.

(** [GenericIPAddressField.get_prep_value]: text with a colon in it is
    cleaned as an IPv6 address, and kept as it is when that is refused. *)
Definition ip_get_prep_value (clean_ipv6_address : cleaner) (value : string)
  : string :=
  if str_contains ":" value then
    match clean_ipv6_address value with
    | Some cleaned => cleaned
    | None => value
    end
  else value.

(** [GenericIPAddressField.get_db_prep_value]: [value or None], so that
    the empty text goes to the store as NULL. *)
Definition ip_get_db_prep_value (clean_ipv6_address : cleaner) (value : string)
  : option string :=
  match ip_get_prep_value clean_ipv6_address value with
  | EmptyString => None
  | value => Some value
  end.

(** The lookup [ip=ip]: the column is compared with the prepared value,
    and no row is equal to NULL. *)
Definition ip_exact (clean_ipv6_address : cleaner) (ip : string)
    (c : UserConnection.t) : bool :=
  match ip_get_db_prep_value clean_ipv6_address ip with
  | Some value => String.eqb (UserConnection.ip c) value
  | None => false
  end.

(** The lookup [user=user, ip=ip]. *)
Definition same_connection (clean_ipv6_address : cleaner) (user : User.t)
    (ip : string) (c : UserConnection.t) : bool :=
  (UserConnection.user c =? User.id user) && ip_exact clean_ipv6_address ip c.

Definition with_ip (ip : string) (c : UserConnection.t) : UserConnection.t :=
  {| UserConnection.id := UserConnection.id c;
     UserConnection.created_at := UserConnection.created_at c;
     UserConnection.updated_at := UserConnection.updated_at c;
     UserConnection.user := UserConnection.user c;
     UserConnection.ip := ip |}.

(** The row written for an instance: [ip] is declared without
    [null=True], and the store refuses NULL in it. *)
Definition UserConnection_row (clean_ipv6_address : cleaner)
    (self : UserConnection.t) : result UserConnection.t :=
  match ip_get_db_prep_value clean_ipv6_address (UserConnection.ip self) with
  | Some value => Ok (with_ip value self)
  | None => Raise IntegrityError
  end.

(** [cls.objects.get(user=user, ip=ip)] *)
Definition UserConnection_get (clean_ipv6_address : cleaner) (user : User.t)
    (ip : string) (db : Database) : result UserConnection.t :=
  match filter (same_connection clean_ipv6_address user ip)
          (user_connections db) with
  | [c] => Ok c
  | [] => Raise DoesNotExist
  | _ => Raise MultipleObjectsReturned
  end.

(** [cls.objects.create(user=user, ip=ip)]: the instance that comes back
    has the key and the timestamps of the new row, and [ip] as it was
    passed. *)
Definition UserConnection_create (clean_ipv6_address : cleaner)
    (t_add t_now : datetime) (user : User.t) (ip : string) (db : Database)
  : result UserConnection.t * Database :=
  let self :=
    {| UserConnection.id := 0; UserConnection.created_at := 0;
       UserConnection.updated_at := 0;
       UserConnection.user := User.id user;
       UserConnection.ip := ip |} in
  match UserConnection_row clean_ipv6_address self with
  | Ok row =>
      match create t_add t_now (user_connections db) row with
      | Ok (row, rows) => (Ok (with_ip ip row), with_user_connections rows db)
      | Raise e => (Raise e, db)
      end
  | Raise e => (Raise e, db)
  end.

(** [user_connection.save()] of an instance read from the store. *)
Definition UserConnection_save (clean_ipv6_address : cleaner)
    (t_now : datetime) (self : UserConnection.t) (db : Database)
  : result UserConnection.t * Database :=
  match UserConnection_row clean_ipv6_address self with
  | Ok row =>
      match save t_now (user_connections db) row with
      | Ok (row, rows) =>
          (Ok (with_ip (UserConnection.ip self) row),
           with_user_connections rows db)
      | Raise e => (Raise e, db)
      end
  | Raise e => (Raise e, db)
  end.

(** [cls.objects.get_or_create(user=user, ip=ip)]: when the INSERT is
    refused with IntegrityError the lookup is made once more, and the
    error is raised again when it still finds nothing. *)
Definition UserConnection_get_or_create (clean_ipv6_address : cleaner)
    (t_add t_now : datetime) (user : User.t) (ip : string) (db : Database)
  : result (UserConnection.t * bool) * Database :=
  match UserConnection_get clean_ipv6_address user ip db with
  | Ok c => (Ok (c, false), db)
  | Raise DoesNotExist =>
      match UserConnection_create clean_ipv6_address t_add t_now user ip db with
      | (Ok c, db') => (Ok (c, true), db')
      | (Raise IntegrityError, _) =>
          match UserConnection_get clean_ipv6_address user ip db with
          | Ok c => (Ok (c, false), db)
          | Raise DoesNotExist => (Raise IntegrityError, db)
          | Raise e => (Raise e, db)
          end
      | (Raise e, _) => (Raise e, db)
      end
  | Raise e => (Raise e, db)
  end.

(** [UserConnection.update]; [clock k] is the [k]-th reading of the clock
    that the call takes. *)
Definition UserConnection_update (clean_ipv6_address : cleaner)
    (clock : nat -> datetime) (user : User.t) (ip : string) (db : Database)
  : result UserConnection.t * Database :=
  match UserConnection_get_or_create clean_ipv6_address
          (clock 0%nat) (clock 1%nat) user ip db with
  | (Ok (user_connection, created), db) =>
      if negb created then
        let user_connection :=
          {| UserConnection.id := UserConnection.id user_connection;
             UserConnection.created_at :=
               UserConnection.created_at user_connection;
             UserConnection.updated_at := clock 0%nat;
             UserConnection.user := UserConnection.user user_connection;
             UserConnection.ip := UserConnection.ip user_connection |} in
        UserConnection_save clean_ipv6_address (clock 1%nat)
          user_connection db
      else (Ok user_connection, db)
  | (Raise e, db) => (Raise e, db)
  end.

(** ** Answer and AttackPoint *)

(** [Answer.is_correct]: [self.flag is not None] *)
Definition Answer_is_correct (self : Answer.t) : bool :=
  negb (flag_is_null self).

(** [Answer.objects.create(...)] *)
Definition Answer_create (t_add t_now : datetime) (a : Answer.t)
    (db : Database) : result Answer.t * Database :=
  match create t_add t_now (answers db) a with
  | Ok (a', rows) => (Ok a', with_answers rows db)
  | Raise e => (Raise e, db)
  end.

(** [AttackPoint.objects.create(...)] *)
Definition AttackPoint_create (t_add t_now : datetime) (p : AttackPoint.t)
    (db : Database) : result AttackPoint.t * Database :=
  match create t_add t_now (attack_points db) p with
  | Ok (p', rows) => (Ok p', with_attack_points rows db)
  | Raise e => (Raise e, db)
  end.

(** ** Config *)

(** [pickle.dumps] and [pickle.loads] on the values [V] the store is used
    with. *)
Record Pickle (V : Type) : Type := {
  dumps : V -> result string;
  loads : string -> result V
}.

Arguments dumps {V} _ _.
Arguments loads {V} _ _.

(** [Config.get_value]: [pickle.loads(self.value_str)] *)
Definition Config_get_value {V : Type} (pickle : Pickle V) (self : Config.t)
  : result V :=
  loads pickle (Config.value_str self).

(** [Config.set_value]: [self.value_str = pickle.dumps(value)] *)
Definition Config_set_value {V : Type} (pickle : Pickle V) (self : Config.t)
    (value : V) : result Config.t :=
  payload <- dumps pickle value ;;
  Ok {| Config.id := Config.id self;
        Config.created_at := Config.created_at self;
        Config.updated_at := Config.updated_at self;
        Config.key := Config.key self;
        Config.value_str := payload |}.

(** ** Querysets in order *)

(** [order_by]: the rows in ascending order of [key]; rows with equal keys
    keep the order the store gave them.  [order_by("-f")] is [order_by] on
    the negated column. *)
Fixpoint insert_by {A : Type} (key : A -> Z) (x : A) (l : list A) : list A :=
  match l with
  | [] => [x]
  | y :: rest =>
      if key x <=? key y then x :: l else y :: insert_by key x rest
  end.

Definition order_by {A : Type} (key : A -> Z) (l : list A) : list A :=
  fold_right (insert_by key) [] l.

(** ** Flag.teams *)

Definition flag_is (k : Z) (a : Answer.t) : bool :=
  match Answer.flag a with
  | Some k' => k' =? k
  | None => false
  end.

(** [Flag.teams]:
    [[a["team_id"] for a in Answer.objects.filter(flag=self).values("team_id")]] *)
Definition Flag_teams (self : Flag.t) (db : Database) : list Z :=
  map Answer.team (filter (flag_is (Flag.id self)) (answers db)).

(** ** Team.questions *)

(** One entry of the list [Team.questions] builds: the dict
    [{"id": ..., "flags": ..., "points": ...}]. *)
Module Summary.
Record t : Type := {
  id : Z;
  flags : Z;
  points : Z
}.
End Summary.

(** [Answer.objects.filter(team=self, flag__question=question)]: the join
    of the answers of the team with the flags of the question. *)
Definition team_question_answers (self : Team.t) (question : Question.t)
    (db : Database) : list Answer.t :=
  flat_map
    (fun a =>
       map (fun _ => a)
         (filter (fun f => flag_is (Flag.id f) a
                           && (Flag.question f =? Question.id question))
            (flags db)))
    (filter (fun a => Answer.team a =? Team.id self) (answers db)).

(** [[a.flag.point for a in answers]] *)
Fixpoint flag_points (db : Database) (answers : list Answer.t)
  : result (list Z) :=
  match answers with
  | [] => Ok []
  | a :: rest =>
      match Answer.flag a with
      | None => Raise AttributeError
      | Some k =>
          flag <- get_flag db k ;;
          points <- flag_points db rest ;;
          Ok (Flag.point flag :: points)
      end
  end.

(** The loop of [Team.questions] over the questions still to visit, with
    [data] the list built so far. *)
Fixpoint Team_questions_loop (self : Team.t) (db : Database)
    (questions : list Question.t) (data : list Summary.t)
  : result (list Summary.t) :=
  match questions with
  | [] => Ok data
  | question :: rest =>
      let answers := team_question_answers self question db in
      points <- flag_points db answers ;;
      Team_questions_loop self db rest
        (data ++ [{| Summary.id := Question.id question;
                     Summary.flags := Z.of_nat (length answers);
                     Summary.points := sum points |}])
  end.

(** [Team.questions]; [Question.objects.public()] is iterated in the order
    [Meta.ordering = ('ordering',)] gives. *)
Definition Team_questions (self : Team.t) (db : Database)
  : result (list Summary.t) :=
  Team_questions_loop self db
    (order_by Question.ordering (QuestionManager_public db)) [].

(** ** User.ip and UserManager.by_ip *)

(** [user_connection.user]: the row the foreign key points to. *)
Definition get_user (db : Database) (k : Z) : result User.t :=
  match filter (fun u => User.id u =? k) (users db) with
  | [u] => Ok u
  | [] => Raise DoesNotExist
  | _ => Raise MultipleObjectsReturned
  end.

Definition latest_first (l : list UserConnection.t) : list UserConnection.t :=
  order_by (fun c => - UserConnection.updated_at c) l.

(** [UserManager.by_ip]: [User.objects.none()] is the empty list. *)
Definition UserManager_by_ip (clean_ipv6_address : cleaner) (ip : string)
    (db : Database) : result (list User.t) :=
  match latest_first
          (filter (ip_exact clean_ipv6_address ip) (user_connections db)) with
  | [] => Ok []
  | user_connection :: _ =>
      user <- get_user db (UserConnection.user user_connection) ;;
      Ok (filter (fun u => User.id u =? User.id user) (users db))
  end.

(** [User.ip] *)
Definition User_ip (self : User.t) (db : Database) : option string :=
  match latest_first
          (filter (fun c => UserConnection.user c =? User.id self)
             (user_connections db)) with
  | [] => None
  | user_connection :: _ => Some (UserConnection.ip user_connection)
  end.

(** ** Reference definitions

    The quantities the specification talks about, written after its words
    and independently of the loops and queries above. *)

(** The sum of a list of point values. *)
Fixpoint total (l : list Z) : Z :=
  match l with
  | [] => 0
  | x :: rest => x + total rest
  end.

(** The Flag rows that belong to a question. *)
Definition flags_of_question (q : Question.t) (db : Database) : list Flag.t :=
  filter (fun f => Flag.question f =? Question.id q) (flags db).

(** The point value of the flag with key [k]. *)
Definition point_of_flag (db : Database) (k : Z) : Z :=
  match find (fun f => Flag.id f =? k) (flags db) with
  | Some f => Flag.point f
  | None => 0
  end.

(** The sum of [flag.point] over the rows of [l] whose flag reference is
    not null. *)
Fixpoint answer_total (db : Database) (l : list Answer.t) : Z :=
  match l with
  | [] => 0
  | a :: rest =>
      match Answer.flag a with
      | Some k => point_of_flag db k + answer_total db rest
      | None => answer_total db rest
      end
  end.

Definition team_answers (t : Team.t) (db : Database) : list Answer.t :=
  filter (fun a => Answer.team a =? Team.id t) (answers db).

Definition team_attack_points (t : Team.t) (db : Database)
  : list AttackPoint.t :=
  filter (fun p => AttackPoint.team p =? Team.id t) (attack_points db).

Definition user_answers (u : User.t) (db : Database) : list Answer.t :=
  filter (fun a => Answer.user a =? User.id u) (answers db).

Definition user_attack_points (u : User.t) (db : Database)
  : list AttackPoint.t :=
  filter (fun p => AttackPoint.user p =? User.id u) (attack_points db).

(** Every flag reference of an answer points to one Flag row: flag keys are
    pairwise distinct and every referenced key is present. *)
Definition flag_references_ok (db : Database) : Prop :=
  NoDup (map Flag.id (flags db))
  /\ forall a k, In a (answers db) -> Answer.flag a = Some k ->
                 In k (map Flag.id (flags db)).

(** The Answer rows of a team for a flag. *)
Definition answers_for (team flag : Z) (db : Database) : list Answer.t :=
  filter
    (fun a => (Answer.team a =? team)
              && match Answer.flag a with
                 | Some k => k =? flag
                 | None => false
                 end)
    (answers db).

(** The AttackPoint rows that carry a token. *)
Definition attack_points_with (token : string) (db : Database)
  : list AttackPoint.t :=
  filter (fun p => String.eqb (AttackPoint.token p) token) (attack_points db).

(** A caller that creates the rows of [l] one after the other and keeps
    every outcome. *)
Fixpoint Answer_create_all (t_add t_now : datetime) (l : list Answer.t)
    (db : Database) : list (result Answer.t) * Database :=
  match l with
  | [] => ([], db)
  | a :: rest =>
      let '(r, db) := Answer_create t_add t_now a db in
      let '(rs, db) := Answer_create_all t_add t_now rest db in
      (r :: rs, db)
  end.

(** The rows of the team table after the call, against the rows before:
    each row is as it was, or is the row of [self] with the new hash in its
    [password] column and nothing else changed. *)
Definition only_password_written (self : Team.t) (encoded : string)
    (before after : list Team.t) : Prop :=
  Forall2
    (fun row row' =>
       row' = row
       \/ (Team.id row = Team.id self
           /\ row' = Team_with_password encoded row))
    before after.

(** ** Reference definitions for ordered querysets and summaries *)

(** Every row comes before the rows with a larger key. *)
Fixpoint ascending {A : Type} (key : A -> Z) (l : list A) : Prop :=
  match l with
  | [] => True
  | x :: rest => (forall y, In y rest -> key x <= key y) /\ ascending key rest
  end.

(** The connections recorded for a user, and for an address. *)
Definition connections_of_user (u : User.t) (db : Database)
  : list UserConnection.t :=
  filter (fun c => UserConnection.user c =? User.id u) (user_connections db).

Definition connections_from (clean_ipv6_address : cleaner) (ip : string)
    (db : Database) : list UserConnection.t :=
  filter (ip_exact clean_ipv6_address ip) (user_connections db).

(** The text stored for [ip] is stored as itself: what
    [clean_ipv6_address] gives, it gives again.  It is so for every text
    without a colon. *)
Definition ip_stable (clean_ipv6_address : cleaner) (ip : string) : Prop :=
  forall value,
    ip_get_db_prep_value clean_ipv6_address ip = Some value ->
    ip_get_db_prep_value clean_ipv6_address value = Some value.

(** [c] was seen at least as late as every row of [l]. *)
Definition latest_among (c : UserConnection.t) (l : list UserConnection.t)
  : Prop :=
  forall c', In c' l ->
             UserConnection.updated_at c' <= UserConnection.updated_at c.

(** The flag of the answer is a flag of the question. *)
Definition in_question (db : Database) (q : Question.t) (a : Answer.t) : bool :=
  match Answer.flag a with
  | Some k =>
      existsb (fun f => (Flag.id f =? k) && (Flag.question f =? Question.id q))
        (flags db)
  | None => false
  end.

(** The answers of a team on the flags of a question. *)
Definition solved_in (t : Team.t) (q : Question.t) (db : Database)
  : list Answer.t :=
  filter (fun a => (Answer.team a =? Team.id t) && in_question db q a)
    (answers db).

(** The entry of [Team.questions] for a question, in words: its key, the
    number of answers of the team on its flags, and the points of these
    flags. *)
Definition summary_of (t : Team.t) (db : Database) (q : Question.t)
  : Summary.t :=
  {| Summary.id := Question.id q;
     Summary.flags := Z.of_nat (length (solved_in t q db));
     Summary.points := answer_total db (solved_in t q db) |}.

Definition flag_key (a : Answer.t) : Z :=
  match Answer.flag a with
  | Some k => k
  | None => 0
  end.

(** The points an answer is worth: those of its flag, nothing without
    one. *)
Definition answer_worth (db : Database) (a : Answer.t) : Z :=
  match Answer.flag a with
  | Some k => point_of_flag db k
  | None => 0
  end.

(** The message [Team.token] hashes. *)
Definition token_message (key : string) (id bucket : Z) : string :=
  (key ++ "_" ++ str_int id ++ "_" ++ str_int bucket)%string.

(** A lower-case hexadecimal digit. *)
Definition is_hex (c : ascii) : bool :=
  let n := N_of_ascii c in
  ((48 <=? n) && (n <=? 57) || (97 <=? n) && (n <=? 102))%N.

Fixpoint all_hex (s : string) : bool :=
  match s with
  | EmptyString => true
  | String c rest => is_hex c && all_hex rest
  end.

(** ** pickle on None, booleans and integers

    [pickle] is a library of the interpreter.  [PyPickle] gives, for the
    values below, the bytes that CPython 3 writes under each protocol from
    0 to 5 and the values it reads from them, so that [Config] can be run
    on an instance of [Pickle].  [dumps] takes the protocol as an argument:
    the code calls [pickle.dumps(value)], which uses the interpreter's
    [DEFAULT_PROTOCOL] (3 up to CPython 3.7, 4 from 3.8, 5 from 3.14).
    Where the library does more than is written out here, the answer is
    [Raise NotModelled]. *)

Module PyPickle.

(** [PyGenerator] is a generator object, one of the values that [pickle]
    refuses to serialise. *)
Inductive value : Type :=
| PyNone
| PyBool (b : bool)
| PyInt (z : Z)
| PyGenerator.

Definition HIGHEST_PROTOCOL : Z := 5.

(** The longest decimal text that [repr] and [int] convert
    ([sys.int_info.default_max_str_digits]); interpreters differ on longer
    ones. *)
Definition int_max_str_digits : Z := 4300.

Definition byte (n : Z) : ascii := ascii_of_N (Z.to_N (n mod 256)).

(** Little-endian bytes of [x], [n] of them. *)
Fixpoint le_bytes (n : nat) (x : Z) : string :=
  match n with
  | O => EmptyString
  | S n' => String (byte x) (le_bytes n' (Z.shiftr x 8))
  end.

(** [encode_long]: the shortest two's complement little-endian form. *)
Definition encode_long (x : Z) : string :=
  if x =? 0 then EmptyString
  else
    let nbytes := Z.to_nat (Z.shiftr (Z.log2 (Z.abs x) + 1) 3 + 1) in
    if (x <? 0) && (1 <? Z.of_nat nbytes)
       && (Z.shiftr x (8 * (Z.of_nat nbytes - 1)) mod 256 =? 255)
       && (128 <=? Z.shiftr x (8 * (Z.of_nat nbytes - 2)) mod 256)
    then le_bytes (nbytes - 1) x
    else le_bytes nbytes x.

(** [save_long]: BININT1, BININT2 and BININT from protocol 1 on, LONG1 and
    LONG4 from protocol 2 on, and otherwise the text opcodes INT and
    LONG. *)
Definition save_long (proto : Z) (x : Z) : result string :=
  let bin := 1 <=? proto in
  if bin && (0 <=? x) && (x <=? 0xff) then Ok (String "K" (le_bytes 1 x))
  else if bin && (0 <=? x) && (x <=? 0xffff)
       then Ok (String "M" (le_bytes 2 x))
  else if bin && (- 0x80000000 <=? x) && (x <=? 0x7fffffff)
       then Ok (String "J" (le_bytes 4 x))
  else if 2 <=? proto then
    let encoded := encode_long x in
    let n := Z.of_nat (String.length encoded) in
    if n <? 256
    then Ok (String (byte 0x8a) (le_bytes 1 n ++ encoded)%string)
    else if n <=? 0x7fffffff
    then Ok (String (byte 0x8b) (le_bytes 4 n ++ encoded)%string)
    else Raise OverflowError
  else if (- 0x80000000 <=? x) && (x <=? 0x7fffffff)
       then Ok (String "I" (str_int x ++ String "010" EmptyString)%string)
  else if Z.abs x <? 10 ^ int_max_str_digits
       then Ok (String "L" (str_int x ++ String "L" (String "010" EmptyString))%string)
  else Raise NotModelled.

Definition save_bool (proto : Z) (b : bool) : string :=
  if 2 <=? proto
  then String (byte (if b then 0x88 else 0x89)) EmptyString
  else String "I" (String "0" (String (if b then "1" else "0")
                                 (String "010" EmptyString))).

Definition save (proto : Z) (v : value) : result string :=
  match v with
  | PyNone => Ok "N"%string
  | PyBool b => Ok (save_bool proto b)
  | PyInt z => save_long proto z
  | PyGenerator => Raise TypeError
  end.

(** The framer of protocol 4 and later: a FRAME opcode with the length of
    the data goes before them when they take four bytes or more. *)
Definition frame (data : string) : string :=
  let n := Z.of_nat (String.length data) in
  if 4 <=? n then String (byte 0x95) (le_bytes 8 n ++ data)%string else data.

(** [pickle.dumps(v, protocol)] for [protocol] from 0 to
    [HIGHEST_PROTOCOL]: PROTO from protocol 2 on, the value, STOP. *)
Definition dumps (protocol : Z) (v : value) : result string :=
  body <- save protocol v ;;
  let data := (body ++ ".")%string in
  let data := if 4 <=? protocol then frame data else data in
  Ok (if 2 <=? protocol
      then String (byte 0x80) (String (byte protocol) data)
      else data).

(** Unsigned value of the first [n] bytes, little-endian, and the rest. *)
Fixpoint read_le (n : nat) (s : string) : option (Z * string) :=
  match n with
  | O => Some (0, s)
  | S n' =>
      match s with
      | EmptyString => None
      | String c rest =>
          match read_le n' rest with
          | Some (hi, rest') => Some (Z.of_N (N_of_ascii c) + 256 * hi, rest')
          | None => None
          end
      end
  end.

Definition signed (n : nat) (x : Z) : Z :=
  if (n =? 0)%nat then 0
  else if x <? 2 ^ (8 * Z.of_nat n - 1) then x else x - 2 ^ (8 * Z.of_nat n).

Definition read_signed (n : nat) (s : string) : option (Z * string) :=
  match read_le n s with
  | Some (x, rest) => Some (signed n x, rest)
  | None => None
  end.

(** The operand of LONG1 ([signed_count = false]) and LONG4: a byte count,
    then that many bytes. *)
Definition read_long (width : nat) (signed_count : bool) (s : string)
  : option (Z * string) :=
  match read_le width s with
  | Some (n, rest) =>
      let n := if signed_count then signed width n else n in
      if n <? 0 then None else read_signed (Z.to_nat n) rest
  | None => None
  end.

(** [readline()], without the newline that ends the line. *)
Fixpoint read_line (s : string) : option (string * string) :=
  match s with
  | EmptyString => None
  | String c rest =>
      if Ascii.eqb c "010" then Some (EmptyString, rest)
      else match read_line rest with
           | Some (line, rest') => Some (String c line, rest')
           | None => None
           end
  end.

(** [int(data, 0)] on the decimal text that [repr] writes for an integer;
    the other spellings that [int] accepts are not read here. *)
Definition parse_int (data : string) : option Z :=
  match NilZero.int_of_string data with
  | Some d =>
      let z := Z.of_int d in
      if String.eqb (str_int z) data && (Z.abs z <? 10 ^ int_max_str_digits)
      then Some z else None
  | None => None
  end.

(** [data[:-1]] when [data] ends with the letter L. *)
Fixpoint drop_last_L (data : string) : string :=
  match data with
  | EmptyString => EmptyString
  | String c EmptyString => if Ascii.eqb c "L" then EmptyString else data
  | String c rest => String c (drop_last_L rest)
  end.

(** One opcode that pushes a value of the fragment, and what follows
    it. *)
Definition load_op (s : string) : option (value * string) :=
  match s with
  | EmptyString => None
  | String op rest =>
      let code := Z.of_N (N_of_ascii op) in
      if code =? 78 then Some (PyNone, rest)
      else if code =? 0x88 then Some (PyBool true, rest)
      else if code =? 0x89 then Some (PyBool false, rest)
      else if code =? 73 then
        match read_line rest with
        | Some (data, r) =>
            if String.eqb data "00" then Some (PyBool false, r)
            else if String.eqb data "01" then Some (PyBool true, r)
            else option_map (fun x => (PyInt x, r)) (parse_int data)
        | None => None
        end
      else if code =? 76 then
        match read_line rest with
        | Some (data, r) =>
            option_map (fun x => (PyInt x, r)) (parse_int (drop_last_L data))
        | None => None
        end
      else if code =? 75 then
        option_map (fun '(x, r) => (PyInt x, r)) (read_le 1 rest)
      else if code =? 77 then
        option_map (fun '(x, r) => (PyInt x, r)) (read_le 2 rest)
      else if code =? 74 then
        option_map (fun '(x, r) => (PyInt x, r)) (read_signed 4 rest)
      else if code =? 0x8a then
        option_map (fun '(x, r) => (PyInt x, r)) (read_long 1 false rest)
      else if code =? 0x8b then
        option_map (fun '(x, r) => (PyInt x, r)) (read_long 4 true rest)
      else None
  end.

(** PROTO, when the payload starts with one: any version up to
    [HIGHEST_PROTOCOL] is read. *)
Definition load_proto (s : string) : result string :=
  match s with
  | String p (String v rest) =>
      if Z.of_N (N_of_ascii p) =? 0x80
      then if Z.of_N (N_of_ascii v) <=? HIGHEST_PROTOCOL
           then Ok rest else Raise ValueError
      else Ok s
  | _ => Ok s
  end.

(** FRAME, when the data start with one: the bytes it announces must be
    there. *)
Definition load_frame (s : string) : option string :=
  match s with
  | String f rest =>
      if Z.of_N (N_of_ascii f) =? 0x95
      then match read_le 8 rest with
           | Some (n, data) =>
               if n <=? Z.of_nat (String.length data) then Some data
               else None
           | None => None
           end
      else Some s
  | EmptyString => Some s
  end.

(** [pickle.loads] on the payloads made of an optional PROTO, an optional
    FRAME, one opcode of the fragment and STOP; what follows STOP is not
    read.  The version in PROTO does not restrict the opcodes, and a
    payload without PROTO is read as well. *)
Definition loads (s : string) : result value :=
  s <- load_proto s ;;
  match load_frame s with
  | Some data =>
      match load_op data with
      | Some (x, String stop _) =>
          if Z.of_N (N_of_ascii stop) =? 46 then Ok x else Raise NotModelled
      | _ => Raise NotModelled
      end
  | None => Raise NotModelled
  end.

(** [pickle] on an interpreter whose default protocol is
    [DEFAULT_PROTOCOL]. *)
Definition pickle (DEFAULT_PROTOCOL : Z) : Pickle value :=
  Build_Pickle value (dumps DEFAULT_PROTOCOL) loads.

(** The values [dumps] is written out for: None, the booleans, and the
    integers of at most [int_max_str_digits] digits. *)
Definition in_fragment (v : value) : bool :=
  match v with
  | PyNone | PyBool _ => true
  | PyInt z => Z.abs z <? 10 ^ int_max_str_digits
  | PyGenerator => false
  end.

End PyPickle.

(** ** Sample rows *)

Definition sample_question (k : Z) (public : bool) : Question.t :=
  {| Question.id := k; Question.created_at := 0; Question.updated_at := 0;
     Question.category := 1; Question.ordering := 100 + k;
     Question.title := "warmup"; Question.sentence := "find the flag";
     Question.max_answers := None; Question.max_failure := None;
     Question.is_public := public |}.

Definition sample_flag (k q p : Z) (s : string) : Flag.t :=
  {| Flag.id := k; Flag.created_at := 0; Flag.updated_at := 0;
     Flag.flag := s; Flag.question := q; Flag.point := p |}.

Definition sample_team (k : Z) (encoded : string) : Team.t :=
  {| Team.id := k; Team.created_at := 0; Team.updated_at := 0;
     Team.name := "team"; Team.password := encoded;
     Team.last_score_time := None; Team._password := None |}.

Definition sample_user (k : Z) (t : option Z) : User.t :=
  {| User.id := k; User.created_at := 0; User.updated_at := 0;
     User.username := "alice"; User.team := t; User.seat := "A1";
     User.last_score_time := None |}.

Definition sample_answer (k u t q : Z) (f : option Z) : Answer.t :=
  {| Answer.id := k; Answer.created_at := 0; Answer.updated_at := 0;
     Answer.user := u; Answer.team := t; Answer.question := q;
     Answer.flag := f; Answer.answer := "FLAG{x}" |}.

Definition sample_attack_point (k u t q p : Z) (tok : string)
  : AttackPoint.t :=
  {| AttackPoint.id := k; AttackPoint.created_at := 0;
     AttackPoint.updated_at := 0; AttackPoint.user := u;
     AttackPoint.team := t; AttackPoint.question := q;
     AttackPoint.token := tok; AttackPoint.point := p |}.

Definition sample_file (k q : Z) (public : bool) : File.t :=
  {| File.id := k; File.created_at := 0; File.updated_at := 0;
     File.question := q; File.name := "dump.pcap";
     File.file := "question/dump.pcap"; File.is_public := public |}.

(** A store with one question carrying two flags worth 50 and 100, a team
    with one correct and one wrong answer and one attack point. *)
Definition sample_db : Database :=
  {| questions := [sample_question 1 true];
     flags := [sample_flag 1 1 50 "FLAG{a}"; sample_flag 2 1 100 "FLAG{b}"];
     files := [];
     teams := [sample_team 1 EmptyString];
     users := [sample_user 1 (Some 1)];
     user_connections := [];
     answers := [sample_answer 1 1 1 1 (Some 2); sample_answer 2 1 1 1 None];
     attack_points := [sample_attack_point 1 1 1 1 30 "tok"];
     configs := [] |}.

Definition sample_settings : Settings :=
  {| TEAM_TOKEN_SECRET_KEY := "s3cret"; TEAM_TOKEN_INTERVAL := 60%float |}.

(** A private question with a public attachment. *)
Definition private_question_db : Database :=
  {| questions := [sample_question 1 false];
     flags := [];
     files := [sample_file 1 1 true];
     teams := []; users := []; user_connections := []; answers := [];
     attack_points := []; configs := [] |}.

Definition sample_config : Config.t :=
  {| Config.id := 1; Config.created_at := 0; Config.updated_at := 0;
     Config.key := "score_freeze"; Config.value_str := EmptyString |}.

(** The hashers of a project whose [PASSWORD_HASHERS] lists the salted
    SHA-1 hasher first and the unsalted one after it: both store
    ["sha1$<salt>$<hex>"], the unsalted one with an empty salt, and a hash
    with an empty salt is due for an upgrade. *)
Fixpoint before_dollar (s : string) : string :=
  match s with
  | EmptyString => EmptyString
  | String c rest =>
      if Ascii.eqb c "$" then EmptyString else String c (before_dollar rest)
  end.

Fixpoint after_dollar (s : string) : string :=
  match s with
  | EmptyString => EmptyString
  | String c rest => if Ascii.eqb c "$" then rest else after_dollar rest
  end.

Definition sha1_encode (salt password : string) : string :=
  ("sha1$" ++ salt ++ "$"
   ++ SHA1.hexdigest (SHA1.bytes_of_string (salt ++ password)))%string.

Definition sha1_hashers : Hashers :=
  {| make_password := sha1_encode;
     is_password_usable := fun encoded =>
       String.eqb (before_dollar encoded) "sha1";
     verify := fun password encoded =>
       String.eqb encoded
         (sha1_encode (before_dollar (after_dollar encoded)) password);
     must_update := fun encoded =>
       String.eqb (before_dollar (after_dollar encoded)) EmptyString |}.

Definition legacy_hash : string :=
  Eval vm_compute in sha1_encode EmptyString "hunter2".

Definition upgraded_hash : string :=
  Eval vm_compute in sha1_encode "NaCl" "hunter2".

(** A store with two teams; the first still has a hash in the old
    format. *)
Definition teams_db : Database :=
  {| questions := []; flags := []; files := [];
     teams := [sample_team 1 legacy_hash; sample_team 2 upgraded_hash];
     users := []; user_connections := []; answers := [];
     attack_points := []; configs := [] |}.

(** [consistent] on a table that is written out: every clause is closed by
    evaluation. *)
Ltac consistent_by_evaluation :=
  simpl; repeat split; try reflexivity;
  let Hin := fresh "Hin" in
  intros ? Hin; simpl in Hin;
  repeat (destruct Hin as [<-|Hin]; [discriminate|]);
  contradiction.

(** ** More sample rows *)

Definition sample_connection (k created updated u : Z) (ip : string)
  : UserConnection.t :=
  {| UserConnection.id := k; UserConnection.created_at := created;
     UserConnection.updated_at := updated; UserConnection.user := u;
     UserConnection.ip := ip |}.

(** Two users, each seen once, from two addresses. *)
Definition connections_db : Database :=
  {| questions := []; flags := []; files := []; teams := [];
     users := [sample_user 1 None; sample_user 2 None];
     user_connections :=
       [sample_connection 1 100 101 1 "10.0.0.7";
        sample_connection 2 50 60 2 "10.0.0.8"];
     answers := []; attack_points := []; configs := [] |}.

(** A stand-in for [clean_ipv6_address] on the addresses of the examples,
    which are valid and in compressed form: on those it has only the
    hexadecimal digits to put in lower case. *)
Definition lower (c : ascii) : ascii :=
  let n := N_of_ascii c in
  if (65 <=? n)%N && (n <=? 90)%N then ascii_of_N (n + 32) else c.

Fixpoint lowercase (s : string) : string :=
  match s with
  | EmptyString => EmptyString
  | String c rest => String (lower c) (lowercase rest)
  end.

Definition sample_clean : cleaner := fun value => Some (lowercase value).
(** * Properties *)

(** ** Built-ins and SHA-1 on known values *)

Example sha1_abc :
  SHA1.hexdigest (SHA1.bytes_of_string "abc")
  = "a9993e364706816aba3e25717850c26c9cd0d89d".
Proof. vm_compute. reflexivity. Qed.

Example sha1_empty :
  SHA1.hexdigest [] = "da39a3ee5e6b4b0d3255bfef95601890afd80709".
Proof. vm_compute. reflexivity. Qed.

Example sha1_two_blocks :
  SHA1.hexdigest (SHA1.bytes_of_string
    "abcdbcdecdefdefgefghfghighijhijkijkljklmklmnlmnomnopnopq")
  = "84983e441c3bd26ebaae4aa1f95129e5e54670f1".
Proof. vm_compute. reflexivity. Qed.


Example str_int_values :
  str_int 0 = "0" /\ str_int 1005 = "1005" /\ str_int (-12) = "-12".
Proof. repeat split. Qed.

Example int_of_float_values :
  int_of_float 29370666.675%float = Ok 29370666
  /\ int_of_float (-2.5)%float = Ok (-2)
  /\ int_of_float 0.75%float = Ok 0
  /\ int_of_float 1e22%float = Ok 10000000000000000000000
  /\ int_of_float infinity = Raise OverflowError
  /\ int_of_float nan = Raise ValueError.
Proof. repeat split; vm_compute; reflexivity. Qed.

Example float_truediv_values :
  float_truediv 1%float 0%float = Raise ZeroDivisionError
  /\ (q <- float_truediv 0.3%float 0.1%float ;; int_of_float q) = Ok 2.
Proof. split; vm_compute; reflexivity. Qed.

(** ** Sums *)

Lemma fold_add_total (l : list Z) (acc : Z) :
  fold_left Z.add l acc = acc + total l.
Proof.
  revert acc; induction l as [|x l IH]; intros acc; simpl.
  - lia.
  - rewrite IH; lia.
Qed.

Lemma sum_total (l : list Z) : sum l = total l.
Proof. unfold sum; rewrite fold_add_total; lia. Qed.

Lemma add_attack_points_total (l : list AttackPoint.t) (acc : Z) :
  add_attack_points l acc = acc + total (map AttackPoint.point l).
Proof.
  unfold add_attack_points.
  revert acc; induction l as [|p l IH]; intros acc; simpl.
  - lia.
  - rewrite IH; lia.
Qed.

(** ** Question.points *)

(** C7: [Question.points] is the sum of [point] over the Flag rows of the
    question; with no flag it is 0, and with exactly two flags worth 50 and
    100 it is 150. *)
Theorem Question_points_sum (q : Question.t) (db : Database) :
  Question_points q db = total (map Flag.point (flags_of_question q db))
  /\ (flags_of_question q db = [] -> Question_points q db = 0)
  /\ (forall f1 f2,
        flags_of_question q db = [f1; f2] ->
        (Flag.point f1 = 50 /\ Flag.point f2 = 100)
        \/ (Flag.point f1 = 100 /\ Flag.point f2 = 50) ->
        Question_points q db = 150).
Proof.
  assert (E : Question_points q db
              = total (map Flag.point (flags_of_question q db))).
  { unfold Question_points, flags_of_question. apply sum_total. }
  split; [exact E|]. split.
  - intros H0. rewrite E, H0. reflexivity.
  - intros f1 f2 H2 Hp. rewrite E, H2. simpl.
    destruct Hp as [[-> ->]|[-> ->]]; reflexivity.
Qed.

Lemma Question_points_sum_witness :
  Question_points (sample_question 1 true) sample_db = 150
  /\ Question_points (sample_question 2 true) sample_db = 0.
Proof.
  split.
  - apply (proj2 (proj2 (Question_points_sum (sample_question 1 true) sample_db))
             (sample_flag 1 1 50 "FLAG{a}") (sample_flag 2 1 100 "FLAG{b}")).
    + reflexivity.
    + left; split; reflexivity.
  - apply (proj1 (proj2 (Question_points_sum (sample_question 2 true) sample_db))).
    reflexivity.
Defined.

(** ** Team.points and User.points *)

Lemma get_flag_unique (db : Database) (k : Z) :
  NoDup (map Flag.id (flags db)) ->
  In k (map Flag.id (flags db)) ->
  exists f, get_flag db k = Ok f /\ Flag.point f = point_of_flag db k.
Proof.
  unfold get_flag, point_of_flag.
  induction (flags db) as [|f l IH]; simpl; intros Hnd Hin.
  - contradiction.
  - inversion Hnd as [|x l' Hnotin Hnd']; subst.
    destruct (Z.eqb_spec (Flag.id f) k) as [E|NE].
    + assert (Hnone : filter (fun f0 => Flag.id f0 =? k) l = []).
      { clear IH Hin Hnd Hnd'. induction l as [|g l IHl]; simpl; [reflexivity|].
        destruct (Z.eqb_spec (Flag.id g) k) as [Eg|NEg].
        - exfalso; apply Hnotin; simpl; left; congruence.
        - apply IHl. intros Hc; apply Hnotin; simpl; right; exact Hc. }
      rewrite Hnone. exists f; split; reflexivity.
    + destruct Hin as [Hin|Hin]; [contradiction|].
      exact (IH Hnd' Hin).
Qed.

Lemma add_flag_points_total (db : Database) (l : list Answer.t) :
  NoDup (map Flag.id (flags db)) ->
  (forall a k, In a l -> Answer.flag a = Some k ->
               In k (map Flag.id (flags db))) ->
  forall acc,
    add_flag_points db (filter (fun a => negb (flag_is_null a)) l) acc
    = Ok (acc + answer_total db l).
Proof.
  intros Hnd. induction l as [|a l IH]; intros Hin acc; simpl.
  - f_equal; lia.
  - assert (Hin' : forall a0 k, In a0 l -> Answer.flag a0 = Some k ->
                                In k (map Flag.id (flags db))).
    { intros a0 k Ha0; apply Hin; right; exact Ha0. }
    unfold flag_is_null at 1.
    destruct (Answer.flag a) as [k|] eqn:Ek; simpl.
    + rewrite Ek.
      destruct (get_flag_unique db k Hnd (Hin a k (or_introl eq_refl) Ek))
        as [f [Hget Hpt]].
      rewrite Hget; simpl. rewrite (IH Hin'), Hpt. f_equal; lia.
    + apply IH; exact Hin'.
Qed.

(** C1: [Team.points] is the sum of [flag.point] over the team's Answer rows
    with a non-null flag plus the sum of [point] over the team's AttackPoint
    rows, and [User.points] is the same over the user's rows. *)
Theorem points_are_sums (db : Database) :
  flag_references_ok db ->
  (forall team : Team.t,
      Team_points team db
      = Ok (answer_total db (team_answers team db)
            + total (map AttackPoint.point (team_attack_points team db))))
  /\ (forall user : User.t,
      User_points user db
      = Ok (answer_total db (user_answers user db)
            + total (map AttackPoint.point (user_attack_points user db)))).
Proof.
  intros [Hnd Href].
  assert (Hsub : forall (p : Answer.t -> bool) a k,
             In a (filter p (answers db)) -> Answer.flag a = Some k ->
             In k (map Flag.id (flags db))).
  { intros p a k Ha. apply Href. apply filter_In in Ha. tauto. }
  split.
  - intros team. unfold Team_points, team_answers, team_attack_points.
    rewrite (add_flag_points_total db _ Hnd (Hsub _)); simpl.
    rewrite add_attack_points_total. f_equal; lia.
  - intros user. unfold User_points, user_answers, user_attack_points.
    rewrite (add_flag_points_total db _ Hnd (Hsub _)); simpl.
    rewrite add_attack_points_total. f_equal; lia.
Qed.

Lemma sample_db_references_ok : flag_references_ok sample_db.
Proof.
  split.
  - simpl. repeat constructor; simpl; intuition discriminate.
  - simpl. intros a k [<-|[<-|[]]]; simpl; intros [= <-]; auto.
Qed.

Lemma points_are_sums_witness :
  Team_points (sample_team 1 EmptyString) sample_db = Ok 130
  /\ User_points (sample_user 1 (Some 1)) sample_db = Ok 130.
Proof.
  destruct (points_are_sums sample_db sample_db_references_ok) as [Ht Hu].
  split.
  - rewrite Ht. reflexivity.
  - rewrite Hu. reflexivity.
Defined.

(** ** Team.token *)

Lemma hex_word_length (n : nat) (x : Z) (acc : string) :
  String.length (SHA1.hex_word n x acc) = (n + String.length acc)%nat.
Proof.
  revert x acc; induction n as [|n IH]; intros x acc; simpl.
  - reflexivity.
  - rewrite IH; simpl; lia.
Qed.

Lemma hexdigest_length (msg : list Z) :
  String.length (SHA1.hexdigest msg) = 40%nat.
Proof.
  unfold SHA1.hexdigest.
  destruct (SHA1.digest msg) as [[[[h0 h1] h2] h3] h4].
  rewrite !hex_word_length. reflexivity.
Qed.

(** C2: the token is a function of the secret key, the team id and the
    bucket index only: two computations with the same key, the same id and
    readings of the clock that fall in the same bucket give the same hex
    digest, namely the digest of these three values. *)
Theorem token_same_bucket (s1 s2 : Settings) (t1 t2 : float)
    (team1 team2 : Team.t) (bucket : Z) :
  TEAM_TOKEN_SECRET_KEY s1 = TEAM_TOKEN_SECRET_KEY s2 ->
  Team.id team1 = Team.id team2 ->
  token_bucket s1 t1 = Ok bucket ->
  token_bucket s2 t2 = Ok bucket ->
  Team_token s1 t1 team1
  = Ok (token_digest (TEAM_TOKEN_SECRET_KEY s1) (Team.id team1) bucket)
  /\ Team_token s2 t2 team2 = Team_token s1 t1 team1.
Proof.
  intros Hkey Hid Hb1 Hb2. unfold Team_token.
  rewrite Hb1, Hb2; simpl. rewrite Hkey, Hid. split; reflexivity.
Qed.

Lemma token_same_bucket_witness :
  Team_token sample_settings 1762240000.5%float (sample_team 7 EmptyString)
  = Ok "064e023118e4edce4fe6b4f002154f2c2f4e145e"
  /\ Team_token sample_settings 1762240019%float (sample_team 7 "x")
     = Team_token sample_settings 1762240000.5%float (sample_team 7 EmptyString).
Proof.
  assert (B1 : token_bucket sample_settings 1762240000.5%float = Ok 29370666)
    by (vm_compute; reflexivity).
  assert (B2 : token_bucket sample_settings 1762240019%float = Ok 29370666)
    by (vm_compute; reflexivity).
  destruct (token_same_bucket sample_settings sample_settings
              1762240000.5%float 1762240019%float
              (sample_team 7 EmptyString) (sample_team 7 "x") 29370666
              eq_refl eq_refl B1 B2) as [H1 H2].
  split; [|exact H2].
  rewrite H1. vm_compute. reflexivity.
Defined.

(** One second later the clock is in the next bucket and the token is
    another one. *)
Example token_next_bucket :
  token_bucket sample_settings 1762240020%float = Ok 29370667
  /\ Team_token sample_settings 1762240020%float (sample_team 7 EmptyString)
     = Ok "1d024c2e034be83fd51f661c9258cb54c5730387".
Proof. split; vm_compute; reflexivity. Qed.

(** ** Uniqueness constraints *)

Lemma cell_eqb_refl (a : cell) : cell_eqb a a = true.
Proof. destruct a; simpl; [apply Z.eqb_refl | apply String.eqb_refl]. Qed.

Lemma cell_eqb_sym (a b : cell) : cell_eqb a b = cell_eqb b a.
Proof.
  destruct a, b; simpl; try reflexivity;
    [apply Z.eqb_sym | apply String.eqb_sym].
Qed.

Lemma ukey_eqb_refl (k : ukey) : ukey_eqb k k = true.
Proof.
  induction k as [|[a|] k IH]; simpl; [reflexivity | | exact IH].
  rewrite cell_eqb_refl; exact IH.
Qed.

Lemma ukey_eqb_sym (k k' : ukey) : ukey_eqb k k' = ukey_eqb k' k.
Proof.
  revert k'; induction k as [|[a|] k IH]; intros [|[b|] k']; simpl;
    try reflexivity.
  - rewrite cell_eqb_sym, IH; reflexivity.
  - apply IH.
Qed.

Lemma ukey_eqb_not_null (k k' : ukey) :
  ukey_eqb k k' = true -> forallb not_null k = forallb not_null k'.
Proof.
  revert k'; induction k as [|[a|] k IH]; intros [|[b|] k']; simpl;
    try discriminate; try reflexivity; intros E.
  apply andb_prop in E. apply IH. exact (proj2 E).
Qed.

Lemma collide_sym (k k' : ukey) : collide k k' = collide k' k.
Proof.
  unfold collide. rewrite (ukey_eqb_sym k k').
  destruct (ukey_eqb k' k) eqn:E.
  - rewrite (ukey_eqb_not_null _ _ E); reflexivity.
  - rewrite !andb_false_r; reflexivity.
Qed.

Section ORM_facts.
Context {R : Type} `{Model R}.

Lemma violates_true (rows : list R) (r r' : R) (u : R -> ukey) :
  In u uniques -> In r' rows -> collide (u r) (u r') = true ->
  violates rows r = true.
Proof.
  intros Hu Hr Hc. unfold violates.
  apply existsb_exists; exists u; split; [exact Hu|].
  apply existsb_exists; exists r'; split; assumption.
Qed.

Lemma violates_false (rows : list R) (r : R) :
  violates rows r = false <->
  (forall u r', In u uniques -> In r' rows -> collide (u r) (u r') = false).
Proof.
  split.
  - intros Hv u r' Hu Hr.
    destruct (collide (u r) (u r')) eqn:E; [|reflexivity].
    rewrite (violates_true rows r r' u Hu Hr E) in Hv; discriminate.
  - intros Hall. destruct (violates rows r) eqn:E; [|reflexivity].
    unfold violates in E.
    apply existsb_exists in E; destruct E as [u [Hu E]].
    apply existsb_exists in E; destruct E as [r' [Hr E]].
    rewrite (Hall u r' Hu Hr) in E; discriminate.
Qed.

(** In a consistent table a row is the only one with its key, for every
    declared constraint whose key holds no NULL in that row. *)
Lemma consistent_key_unique (rows : list R) (r : R) (u : R -> ukey) :
  consistent rows -> In r rows -> In u uniques ->
  forallb not_null (u r) = true ->
  filter (fun x => ukey_eqb (u r) (u x)) rows = [r].
Proof.
  intros Hc Hin Hu Hnn.
  induction rows as [|x rest IH]; simpl in *; [contradiction|].
  destruct Hc as [Hpk [Hv Hc]].
  assert (Hrest : forall r', In r' rest -> collide (u x) (u r') = false).
  { intros r' Hr'. exact (proj1 (violates_false rest x) Hv u r' Hu Hr'). }
  destruct Hin as [->|Hin].
  - rewrite ukey_eqb_refl. f_equal.
    clear IH Hpk Hv Hc. induction rest as [|y rest IH]; simpl; [reflexivity|].
    assert (Hy := Hrest y (or_introl eq_refl)).
    unfold collide in Hy. rewrite Hnn in Hy. simpl in Hy. rewrite Hy.
    apply IH. intros r' Hr'. apply Hrest. right; exact Hr'.
  - assert (Hx := Hrest r Hin). rewrite collide_sym in Hx.
    unfold collide in Hx. rewrite Hnn in Hx. simpl in Hx. rewrite Hx.
    exact (IH Hc Hin).
Qed.

Lemma fold_max_le (l : list Z) (acc : Z) :
  acc <= fold_left Z.max l acc
  /\ forall x, In x l -> x <= fold_left Z.max l acc.
Proof.
  revert acc; induction l as [|y l IH]; intros acc; simpl.
  - split; [lia | contradiction].
  - destruct (IH (Z.max acc y)) as [Hacc Hall]. split; [lia|].
    intros x [->|Hx]; [lia | exact (Hall x Hx)].
Qed.

Lemma next_pk_fresh (rows : list R) (r : R) :
  In r rows -> pk r < next_pk rows.
Proof.
  intros Hin. unfold next_pk.
  assert (Hle := proj2 (fold_max_le (map pk rows) 0) (pk r) (in_map pk _ _ Hin)).
  lia.
Qed.

Lemma consistent_app (rows : list R) (r : R) :
  consistent rows -> violates rows r = false ->
  (forall x, In x rows -> pk x <> pk r) ->
  consistent (rows ++ [r]).
Proof.
  intros Hc Hv Hpk.
  induction rows as [|x rest IH]; simpl in *.
  - repeat split; [intros ? [] | exact Hv].
  - destruct Hc as [Hpkx [Hvx Hc]].
    assert (Hvr := proj1 (violates_false _ _) Hv).
    split; [|split].
    + intros r' Hr'. apply in_app_or in Hr'.
      destruct Hr' as [Hr'|[<-|[]]]; [exact (Hpkx r' Hr')|].
      intros E; exact (Hpk x (or_introl eq_refl) (eq_sym E)).
    + apply violates_false. intros u r' Hu Hr'. apply in_app_or in Hr'.
      destruct Hr' as [Hr'|[<-|[]]].
      * exact (proj1 (violates_false _ _) Hvx u r' Hu Hr').
      * rewrite collide_sym. apply Hvr; [exact Hu | left; reflexivity].
    + apply IH; [exact Hc | |].
      * apply violates_false. intros u r' Hu Hr'. apply Hvr; [exact Hu|].
        right; exact Hr'.
      * intros y Hy. apply Hpk. right; exact Hy.
Qed.

Hypothesis pk_with_pk : forall k r, pk (with_pk k r) = k.

(** [create] assigns a fresh key, and keeps the table consistent. *)
Lemma create_consistent (t_add t_now : datetime) (rows rows' : list R)
    (r r' : R) :
  consistent rows -> create t_add t_now rows r = Ok (r', rows') ->
  consistent rows' /\ rows' = rows ++ [r'] /\ pk r' = next_pk rows.
Proof.
  unfold create. intros Hc.
  destruct (violates rows _) eqn:Hv; [discriminate|].
  intros [= <- <-]. rewrite pk_with_pk. split; [|split; reflexivity].
  apply consistent_app; [exact Hc | exact Hv |].
  intros x Hx. rewrite pk_with_pk. pose proof (next_pk_fresh rows x Hx). lia.
Qed.

(** Rewriting rows without touching their keys keeps the table
    consistent. *)
Lemma consistent_map (rows : list R) (f : R -> R) :
  (forall x, In x rows ->
     pk (f x) = pk x /\ forall u, In u uniques -> u (f x) = u x) ->
  consistent rows -> consistent (map f rows).
Proof.
  induction rows as [|x rest IH]; simpl; intros Hf Hc; [exact I|].
  destruct Hc as [Hpk [Hv Hc]].
  assert (Hf' : forall y, In y rest ->
            pk (f y) = pk y /\ forall u, In u uniques -> u (f y) = u y).
  { intros y Hy; apply Hf; right; exact Hy. }
  destruct (Hf x (or_introl eq_refl)) as [Hpx Hux].
  split; [|split].
  - intros r' Hr'. apply in_map_iff in Hr'. destruct Hr' as [y [<- Hy]].
    rewrite Hpx, (proj1 (Hf' y Hy)). exact (Hpk y Hy).
  - apply violates_false. intros u r' Hu Hr'.
    apply in_map_iff in Hr'. destruct Hr' as [y [<- Hy]].
    rewrite (Hux u Hu), (proj2 (Hf' y Hy) u Hu).
    exact (proj1 (violates_false _ _) Hv u y Hu Hy).
  - exact (IH Hf' Hc).
Qed.

Lemma consistent_pk_unique (rows : list R) (r r' : R) :
  consistent rows -> In r rows -> In r' rows -> pk r = pk r' -> r = r'.
Proof.
  induction rows as [|x rest IH]; simpl; [contradiction|].
  intros [Hpk [_ Hc]] [->|Hr] [->|Hr'] E.
  - reflexivity.
  - exfalso; exact (Hpk r' Hr' (eq_sym E)).
  - exfalso; exact (Hpk r Hr E).
  - exact (IH Hc Hr Hr' E).
Qed.

End ORM_facts.


(** ** Answer: unique (team, flag) *)

(** C3: an Answer row with the (team, flag) pair of a row that is already
    in the table is rejected and the table is left as it was, so the first
    row remains the only one for the pair. *)
Theorem Answer_duplicate_rejected (db : Database) (r a : Answer.t) (f : Z)
    (t_add t_now : datetime) :
  In r (answers db) ->
  Answer.flag r = Some f ->
  Answer.team a = Answer.team r ->
  Answer.flag a = Some f ->
  Answer_create t_add t_now a db = (Raise IntegrityError, db)
  /\ (consistent (answers db) -> answers_for (Answer.team r) f db = [r]).
Proof.
  intros Hin Hfr Hteam Hfa. split.
  - unfold Answer_create, create.
    rewrite (violates_true (answers db) _ r Answer_key); try reflexivity.
    + left; reflexivity.
    + exact Hin.
    + unfold collide, Answer_key; simpl. rewrite Hfa, Hfr, Hteam; simpl.
      rewrite !Z.eqb_refl; reflexivity.
  - intros Hc.
    pose proof (consistent_key_unique (answers db) r Answer_key Hc Hin
                  (or_introl eq_refl)) as Hu.
    unfold Answer_key in Hu at 1. rewrite Hfr in Hu.
    specialize (Hu eq_refl).
    etransitivity; [|exact Hu].
    unfold answers_for. apply filter_ext. intros x.
    unfold Answer_key. rewrite Hfr. simpl.
    rewrite (Z.eqb_sym (Answer.team x)).
    destruct (Answer.flag x) as [k|]; simpl.
    + rewrite andb_true_r, (Z.eqb_sym k); reflexivity.
    + reflexivity.
Qed.

Lemma Answer_duplicate_rejected_witness :
  Answer_create 5 5 (sample_answer 0 2 1 1 (Some 2)) sample_db
  = (Raise IntegrityError, sample_db)
  /\ answers_for 1 2 sample_db = [sample_answer 1 1 1 1 (Some 2)].
Proof.
  destruct (Answer_duplicate_rejected sample_db
              (sample_answer 1 1 1 1 (Some 2))
              (sample_answer 0 2 1 1 (Some 2)) 2 5 5
              (or_introl eq_refl) eq_refl eq_refl eq_refl) as [H1 H2].
  split; [exact H1|].
  apply H2. consistent_by_evaluation.
Defined.

(** The same pair inserted twice into an empty store. *)
Example Answer_twice :
  exists a1 db1,
    Answer_create 5 5 (sample_answer 0 1 1 1 (Some 2)) empty_db = (Ok a1, db1)
    /\ Answer_create 6 6 (sample_answer 0 2 1 1 (Some 2)) db1
       = (Raise IntegrityError, db1)
    /\ answers db1 = [a1].
Proof. eexists; eexists; repeat split. Qed.

(** ** Answer: rows without a flag *)

Lemma Answer_create_null_flag (t_add t_now : datetime) (db : Database)
    (a : Answer.t) :
  Answer.flag a = None ->
  exists a',
    Answer_create t_add t_now a db
    = (Ok a', with_answers (answers db ++ [a']) db)
    /\ Answer.flag a' = None
    /\ Answer.team a' = Answer.team a
    /\ Answer.user a' = Answer.user a.
Proof.
  intros Hnull. unfold Answer_create, create.
  match goal with |- context [violates ?rows ?x] =>
    assert (Hv : violates rows x = false) end.
  { apply violates_false. intros u r' [<-|[]] _.
    unfold collide; simpl. rewrite Hnull; reflexivity. }
  rewrite Hv. eexists; split; [reflexivity|].
  simpl. auto.
Qed.

(** C10: the (team, flag) constraint leaves rows with a null flag alone:
    such a row is accepted whatever the table holds, and so is any number
    of them in a row. *)
Theorem Answer_null_flag_unconstrained (t_add t_now : datetime)
    (db : Database) :
  (forall a, Answer.flag a = None ->
     exists a',
       Answer_create t_add t_now a db
       = (Ok a', with_answers (answers db ++ [a']) db)
       /\ Answer_is_correct a' = false
       /\ Answer.team a' = Answer.team a)
  /\ (forall l, Forall (fun a => Answer.flag a = None) l ->
        exists rows,
          Answer_create_all t_add t_now l db
          = (map Ok rows, with_answers (answers db ++ rows) db)
          /\ map Answer.team rows = map Answer.team l
          /\ Forall (fun a' => Answer_is_correct a' = false) rows).
Proof.
  split.
  - intros a Hnull.
    destruct (Answer_create_null_flag t_add t_now db a Hnull)
      as [a' [Hc [Hf [Ht _]]]].
    exists a'. repeat split; [exact Hc | | exact Ht].
    unfold Answer_is_correct, flag_is_null. rewrite Hf; reflexivity.
  - intros l. revert db. induction l as [|a l IH]; intros db Hall.
    + exists []. simpl. rewrite app_nil_r. destruct db; repeat split.
      constructor.
    + inversion Hall as [|x l' Hnull Hall']; subst.
      destruct (Answer_create_null_flag t_add t_now db a Hnull)
        as [a' [Hc [Hf [Ht _]]]].
      destruct (IH (with_answers (answers db ++ [a']) db) Hall')
        as [rows [Hrows [Hteams Hwrong]]].
      exists (a' :: rows). simpl. rewrite Hc, Hrows. simpl.
      rewrite <- app_assoc. simpl. repeat split.
      * rewrite Ht, Hteams; reflexivity.
      * constructor; [|exact Hwrong].
        unfold Answer_is_correct, flag_is_null. rewrite Hf; reflexivity.
Qed.

Lemma Answer_null_flag_unconstrained_witness :
  exists a1 a2 a3,
    Answer_create_all 5 5
      [sample_answer 0 1 1 1 None; sample_answer 0 1 1 1 None;
       sample_answer 0 1 1 1 None] sample_db
    = ([Ok a1; Ok a2; Ok a3],
       with_answers (answers sample_db ++ [a1; a2; a3]) sample_db).
Proof.
  destruct (proj2 (Answer_null_flag_unconstrained 5 5 sample_db)
              [sample_answer 0 1 1 1 None; sample_answer 0 1 1 1 None;
               sample_answer 0 1 1 1 None])
    as [rows [Hrows [Hteams _]]].
  - repeat constructor.
  - destruct rows as [|a1 [|a2 [|a3 [|a4 rows]]]]; try discriminate.
    exists a1, a2, a3. exact Hrows.
Defined.

(** ** AttackPoint: unique token *)

(** C6: an AttackPoint row with the token of a row that is already in the
    table is rejected and the table is left as it was, so a token is
    credited at most once. *)
Theorem AttackPoint_duplicate_rejected (db : Database) (r p : AttackPoint.t)
    (t_add t_now : datetime) :
  In r (attack_points db) ->
  AttackPoint.token p = AttackPoint.token r ->
  AttackPoint_create t_add t_now p db = (Raise IntegrityError, db)
  /\ (consistent (attack_points db) ->
      attack_points_with (AttackPoint.token r) db = [r]).
Proof.
  intros Hin Htok. split.
  - unfold AttackPoint_create, create.
    rewrite (violates_true (attack_points db) _ r AttackPoint_key);
      try reflexivity.
    + left; reflexivity.
    + exact Hin.
    + unfold collide, AttackPoint_key; simpl. rewrite Htok, String.eqb_refl.
      reflexivity.
  - intros Hc.
    pose proof (consistent_key_unique (attack_points db) r AttackPoint_key
                  Hc Hin (or_introl eq_refl) eq_refl) as Hu.
    etransitivity; [|exact Hu].
    unfold attack_points_with. apply filter_ext. intros x.
    unfold AttackPoint_key; simpl.
    rewrite andb_true_r. apply String.eqb_sym.
Qed.

Lemma AttackPoint_duplicate_rejected_witness :
  AttackPoint_create 5 5 (sample_attack_point 0 2 2 1 30 "tok") sample_db
  = (Raise IntegrityError, sample_db)
  /\ attack_points_with "tok" sample_db = [sample_attack_point 1 1 1 1 30 "tok"].
Proof.
  destruct (AttackPoint_duplicate_rejected sample_db
              (sample_attack_point 1 1 1 1 30 "tok")
              (sample_attack_point 0 2 2 1 30 "tok") 5 5
              (or_introl eq_refl) eq_refl) as [H1 H2].
  split; [exact H1|].
  apply H2. consistent_by_evaluation.
Defined.

(** ** The constraints are invariants of the store *)

Lemma Answer_create_consistent (t_add t_now : datetime) (a a' : Answer.t)
    (db db' : Database) :
  consistent (answers db) ->
  Answer_create t_add t_now a db = (Ok a', db') ->
  consistent (answers db') /\ answers db' = answers db ++ [a'].
Proof.
  intros Hc. unfold Answer_create.
  destruct (create t_add t_now (answers db) a) as [[a1 rows]|e] eqn:Ec;
    [|discriminate].
  intros [= <- <-]. simpl.
  destruct (@create_consistent Answer.t Answer_Model (fun _ _ => eq_refl)
              _ _ _ _ _ _ Hc Ec) as [Hc' [Hrows _]].
  split; assumption.
Qed.

Lemma AttackPoint_create_consistent (t_add t_now : datetime)
    (p p' : AttackPoint.t) (db db' : Database) :
  consistent (attack_points db) ->
  AttackPoint_create t_add t_now p db = (Ok p', db') ->
  consistent (attack_points db')
  /\ attack_points db' = attack_points db ++ [p'].
Proof.
  intros Hc. unfold AttackPoint_create.
  destruct (create t_add t_now (attack_points db) p) as [[p1 rows]|e] eqn:Ec;
    [|discriminate].
  intros [= <- <-]. simpl.
  destruct (@create_consistent AttackPoint.t AttackPoint_Model
              (fun _ _ => eq_refl)
              _ _ _ _ _ _ Hc Ec) as [Hc' [Hrows _]].
  split; assumption.
Qed.

(** ** pickle: reading back what was written *)

Lemma string_app_assoc (a b c : string) :
  ((a ++ b) ++ c = a ++ (b ++ c))%string.
Proof. induction a as [|x a IH]; simpl; [reflexivity | rewrite IH; reflexivity]. Qed.

Lemma le_bytes_length (n : nat) (x : Z) :
  String.length (PyPickle.le_bytes n x) = n.
Proof.
  revert x; induction n as [|n IH]; intros x; simpl;
    [reflexivity | rewrite IH; reflexivity].
Qed.

Lemma byte_value (x : Z) :
  Z.of_N (N_of_ascii (PyPickle.byte x)) = x mod 256.
Proof.
  unfold PyPickle.byte.
  assert (Hr : 0 <= x mod 256 < 256) by (apply Z.mod_pos_bound; lia).
  rewrite N_ascii_embedding by lia.
  apply Z2N.id; lia.
Qed.

Lemma read_le_bytes (n : nat) (x : Z) (rest : string) :
  PyPickle.read_le n (PyPickle.le_bytes n x ++ rest)%string
  = Some (x mod 2 ^ (8 * Z.of_nat n), rest).
Proof.
  revert x; induction n as [|n IH]; intros x.
  - simpl. rewrite Z.mod_1_r. reflexivity.
  - cbn [PyPickle.le_bytes PyPickle.read_le append].
    rewrite IH, byte_value, Z.shiftr_div_pow2 by lia.
    do 2 f_equal.
    replace (8 * Z.of_nat (S n)) with (8 + 8 * Z.of_nat n) by lia.
    rewrite Z.pow_add_r by lia.
    change (2 ^ 8) with 256.
    rewrite Z.rem_mul_r by lia. reflexivity.
Qed.

Lemma signed_mod (n : nat) (x : Z) :
  (0 < n)%nat ->
  - 2 ^ (8 * Z.of_nat n - 1) <= x < 2 ^ (8 * Z.of_nat n - 1) ->
  PyPickle.signed n (x mod 2 ^ (8 * Z.of_nat n)) = x.
Proof.
  intros Hn Hx. unfold PyPickle.signed.
  destruct (Nat.eqb_spec n 0) as [->|_]; [lia|].
  assert (Hp : 2 ^ (8 * Z.of_nat n) = 2 * 2 ^ (8 * Z.of_nat n - 1)).
  { rewrite <- Z.pow_succ_r by lia. f_equal; lia. }
  assert (Hpos : 0 < 2 ^ (8 * Z.of_nat n - 1)) by (apply Z.pow_pos_nonneg; lia).
  destruct (Z.ltb_spec x 0) as [Hneg|Hnn].
  - assert (E : x mod 2 ^ (8 * Z.of_nat n) = x + 2 ^ (8 * Z.of_nat n)).
    { symmetry. apply Z.mod_unique_pos with (q := -1); lia. }
    rewrite E. destruct (Z.ltb_spec (x + 2 ^ (8 * Z.of_nat n))
                           (2 ^ (8 * Z.of_nat n - 1))); lia.
  - rewrite Z.mod_small by lia.
    destruct (Z.ltb_spec x (2 ^ (8 * Z.of_nat n - 1))); lia.
Qed.

Lemma read_signed_bytes (n : nat) (x : Z) (rest : string) :
  (0 < n)%nat ->
  - 2 ^ (8 * Z.of_nat n - 1) <= x < 2 ^ (8 * Z.of_nat n - 1) ->
  PyPickle.read_signed n (PyPickle.le_bytes n x ++ rest)%string = Some (x, rest).
Proof.
  intros Hn Hx. unfold PyPickle.read_signed.
  rewrite read_le_bytes, signed_mod by assumption. reflexivity.
Qed.

(** A negative [x] in [[-128 * p, 0)] whose quotient by [p] is 255 modulo
    256 is at least [- p]; this is the test on the top byte that lets
    [encode_long] drop it. *)
Lemma top_byte_ff (x p : Z) :
  0 < p -> - (128 * p) <= x < 0 -> (x / p) mod 256 = 255 -> - p <= x.
Proof.
  intros Hp Hx Hq.
  pose proof (Z.div_mod x p ltac:(lia)) as Hdm.
  pose proof (Z.mod_pos_bound x p Hp) as Hr.
  assert (Hlo : -128 <= x / p) by (apply Z.div_le_lower_bound; lia).
  assert (Hhi : x / p < 0) by (apply Z.div_lt_upper_bound; lia).
  assert (E : (x / p) mod 256 = x / p + 256).
  { symmetry. apply Z.mod_unique_pos with (q := -1); lia. }
  nia.
Qed.

Lemma next_byte_high (x p : Z) :
  0 < p -> - (256 * p) <= x < 0 -> 128 <= (x / p) mod 256 -> - (128 * p) <= x.
Proof.
  intros Hp Hx Hq.
  pose proof (Z.div_mod x p ltac:(lia)) as Hdm.
  pose proof (Z.mod_pos_bound x p Hp) as Hr.
  assert (Hlo : -256 <= x / p) by (apply Z.div_le_lower_bound; lia).
  assert (Hhi : x / p < 0) by (apply Z.div_lt_upper_bound; lia).
  assert (E : (x / p) mod 256 = x / p + 256).
  { symmetry. apply Z.mod_unique_pos with (q := -1); lia. }
  nia.
Qed.

Lemma pow2_8_succ (m : Z) : 0 <= m -> 2 ^ (8 * (m + 1)) = 256 * 2 ^ (8 * m).
Proof.
  intros Hm. replace (8 * (m + 1)) with (8 + 8 * m) by lia.
  rewrite Z.pow_add_r by lia. reflexivity.
Qed.

Lemma pow2_8_half (m : Z) : 0 < m -> 2 ^ (8 * m) = 2 * 2 ^ (8 * m - 1).
Proof.
  intros Hm. rewrite <- Z.pow_succ_r by lia. f_equal; lia.
Qed.

(** [encode_long] writes [x] on a number of bytes on which it fits as a
    signed integer. *)
Lemma encode_long_fits (x : Z) :
  x <> 0 ->
  exists n : nat,
    (0 < n)%nat
    /\ PyPickle.encode_long x = PyPickle.le_bytes n x
    /\ - 2 ^ (8 * Z.of_nat n - 1) <= x < 2 ^ (8 * Z.of_nat n - 1)
    /\ Z.of_nat n <= (Z.log2 (Z.abs x) + 1) / 8 + 1.
Proof.
  intros Hx. unfold PyPickle.encode_long.
  destruct (Z.eqb_spec x 0) as [|_]; [contradiction|].
  set (b := Z.log2 (Z.abs x) + 1).
  assert (Hb : 0 < b) by (pose proof (Z.log2_nonneg (Z.abs x)); lia).
  assert (Habs : Z.abs x < 2 ^ b).
  { unfold b. apply Z.log2_spec. lia. }
  rewrite Z.shiftr_div_pow2 by lia. change (2 ^ 3) with 8.
  set (nb := b / 8 + 1).
  assert (Hnb : b <= 8 * nb - 1).
  { unfold nb. pose proof (Z.div_mod b 8 ltac:(lia)).
    pose proof (Z.mod_pos_bound b 8 ltac:(lia)). lia. }
  assert (Hnb1 : 1 <= nb) by lia.
  rewrite Z2Nat.id by lia.
  assert (Hfit : - 2 ^ (8 * nb - 1) <= x < 2 ^ (8 * nb - 1)).
  { pose proof (Z.pow_le_mono_r 2 b (8 * nb - 1) ltac:(lia) Hnb). lia. }
  match goal with |- context [if ?c then _ else _] => destruct c eqn:Etrim end.
  - (* the top byte is dropped *)
    apply andb_prop in Etrim. destruct Etrim as [Etrim Hnext].
    apply andb_prop in Etrim. destruct Etrim as [Etrim Htop].
    apply andb_prop in Etrim. destruct Etrim as [Hneg Hlen].
    apply Z.ltb_lt in Hneg, Hlen. apply Z.eqb_eq in Htop.
    apply Z.leb_le in Hnext.
    rewrite Z.shiftr_div_pow2 in Htop, Hnext by lia.
    exists (Z.to_nat nb - 1)%nat.
    assert (Hm : Z.of_nat (Z.to_nat nb - 1) = nb - 1) by lia.
    rewrite Hm.
    split; [lia|]. split; [reflexivity|]. split; [|fold nb; lia].
    assert (Hp1 : 2 ^ (8 * nb - 1) = 128 * 2 ^ (8 * (nb - 1))).
    { pose proof (pow2_8_half nb ltac:(lia)) as H2.
      pose proof (pow2_8_succ (nb - 1) ltac:(lia)) as H3.
      replace (nb - 1 + 1) with nb in H3 by lia. lia. }
    assert (Hp2 : 2 ^ (8 * (nb - 1)) = 256 * 2 ^ (8 * (nb - 2))).
    { pose proof (pow2_8_succ (nb - 2) ltac:(lia)) as H3.
      replace (nb - 2 + 1) with (nb - 1) in H3 by lia. exact H3. }
    assert (Hp3 : 2 ^ (8 * (nb - 1)) = 2 * 2 ^ (8 * (nb - 1) - 1))
      by (apply pow2_8_half; lia).
    assert (Hpos1 : 0 < 2 ^ (8 * (nb - 1))) by (apply Z.pow_pos_nonneg; lia).
    assert (Hpos2 : 0 < 2 ^ (8 * (nb - 2))) by (apply Z.pow_pos_nonneg; lia).
    assert (Hge : - 2 ^ (8 * (nb - 1)) <= x).
    { apply top_byte_ff; [exact Hpos1 | lia | exact Htop]. }
    assert (Hge2 : - (128 * 2 ^ (8 * (nb - 2))) <= x).
    { apply next_byte_high; [exact Hpos2 | lia | exact Hnext]. }
    lia.
  - exists (Z.to_nat nb).
    rewrite Z2Nat.id by lia.
    split; [lia|]. split; [reflexivity|]. split; [exact Hfit | fold nb; lia].
Qed.

Lemma Ok_inj {A : Type} (a b : A) : Ok a = Ok b -> a = b.
Proof. intros H; injection H as H; exact H. Qed.

(** ** File visibility *)

Lemma FileManager_public_iff (db : Database) (f : File.t) :
  In f (FileManager_public db) <->
  In f (files db) /\ File.is_public f = true
  /\ exists q, In q (questions db)
               /\ Question.id q = File.question f
               /\ Question.is_public q = true.
Proof.
  unfold FileManager_public. rewrite in_flat_map. split.
  - intros [g [Hg Hin]]. apply filter_In in Hg. destruct Hg as [Hg Hpub].
    apply in_map_iff in Hin. destruct Hin as [q [<- Hq]].
    apply filter_In in Hq. destruct Hq as [Hq Hb].
    apply andb_prop in Hb. destruct Hb as [Hid Hqpub].
    repeat split; try assumption.
    exists q. repeat split; try assumption. apply Z.eqb_eq; exact Hid.
  - intros [Hf [Hpub [q [Hq [Hid Hqpub]]]]].
    exists f. split.
    + apply filter_In; split; assumption.
    + apply in_map_iff. exists q. split; [reflexivity|].
      apply filter_In. split; [exact Hq|].
      rewrite Hid, Z.eqb_refl, Hqpub; reflexivity.
Qed.

Lemma Question_files_iff (db : Database) (q : Question.t) (f : File.t) :
  In f (Question_files q db) <->
  In f (files db) /\ File.question f = Question.id q
  /\ File.is_public f = true.
Proof.
  unfold Question_files. rewrite !filter_In, Z.eqb_eq. tauto.
Qed.

(** C4, as the code has it: a file is in [File.objects.public()] exactly
    when it is public and its question is public; it is in the [files] of
    its question exactly when it is public, whatever the question's own
    [is_public] is.  A file that is not public is in neither list. *)
Theorem File_visibility (db : Database) (f : File.t) :
  (In f (FileManager_public db) <->
   In f (files db) /\ File.is_public f = true
   /\ exists q, In q (questions db)
                /\ Question.id q = File.question f
                /\ Question.is_public q = true)
  /\ (forall q, In f (Question_files q db) <->
                In f (files db) /\ File.question f = Question.id q
                /\ File.is_public f = true)
  /\ (File.is_public f = false ->
      ~ In f (FileManager_public db)
      /\ forall q, ~ In f (Question_files q db)).
Proof.
  split; [apply FileManager_public_iff|].
  split; [intros q; apply Question_files_iff|].
  intros Hpriv. split.
  - rewrite FileManager_public_iff. intros [_ [Hpub _]]. congruence.
  - intros q. rewrite Question_files_iff. intros [_ [_ Hpub]]. congruence.
Qed.

Lemma File_visibility_witness :
  ~ In (sample_file 1 1 false)
      (FileManager_public
         {| questions := [sample_question 1 true]; flags := [];
            files := [sample_file 1 1 false]; teams := []; users := [];
            user_connections := []; answers := []; attack_points := [];
            configs := [] |})
  /\ ~ In (sample_file 1 1 false)
         (Question_files (sample_question 1 true)
            {| questions := [sample_question 1 true]; flags := [];
               files := [sample_file 1 1 false]; teams := []; users := [];
               user_connections := []; answers := []; attack_points := [];
               configs := [] |}).
Proof.
  destruct (proj2 (proj2 (File_visibility
              {| questions := [sample_question 1 true]; flags := [];
                 files := [sample_file 1 1 false]; teams := []; users := [];
                 user_connections := []; answers := []; attack_points := [];
                 configs := [] |}
              (sample_file 1 1 false))) eq_refl) as [H1 H2].
  split; [exact H1 | exact (H2 (sample_question 1 true))].
Defined.

(** C4, as the specification words it, fails on [Question.files]: the
    public file of a private question is in the [files] of that question
    (and not in [File.objects.public()]). *)
Lemma Question_files_ignores_question_visibility :
  In (sample_file 1 1 true)
     (Question_files (sample_question 1 false) private_question_db)
  /\ File.question (sample_file 1 1 true) = Question.id (sample_question 1 false)
  /\ ~ (File.is_public (sample_file 1 1 true) = true
        /\ Question.is_public (sample_question 1 false) = true)
  /\ ~ In (sample_file 1 1 true) (FileManager_public private_question_db).
Proof.
  split; [left; reflexivity|].
  split; [reflexivity|].
  split.
  - intros [_ Hq]; discriminate Hq.
  - simpl. intros [].
Qed.

(** X19: Reached through [Question.objects.public()], the [files] of a question
    are its files that [File.objects.public()] lists. *)
Lemma Question_files_of_public_question (db : Database) (q : Question.t)
    (f : File.t) :
  In q (QuestionManager_public db) ->
  (In f (Question_files q db) <->
   In f (FileManager_public db) /\ File.question f = Question.id q).
Proof.
  unfold QuestionManager_public. rewrite filter_In. intros [Hq Hpub].
  rewrite Question_files_iff, FileManager_public_iff. split.
  - intros [Hf [Hid Hfpub]]. repeat split; try assumption.
    exists q. repeat split; try assumption. symmetry; exact Hid.
  - intros [[Hf [Hfpub _]] Hid]. repeat split; assumption.
Qed.

(** ** Team.check_password *)

Lemma Forall2_map_r {A : Type} (P : A -> A -> Prop) (f : A -> A)
    (l : list A) :
  (forall x, P x (f x)) -> Forall2 P l (map f l).
Proof.
  intros Hf. induction l as [|x l IH]; simpl; constructor; auto.
Qed.

Lemma Team_save_password_frame (self : Team.t) (db : Database) :
  let '(r, db') := Team_save_password self db in
  db' = with_teams (teams db') db
  /\ only_password_written self (Team.password self) (teams db) (teams db')
  /\ ((exists row, In row (teams db) /\ Team.id row = Team.id self) ->
      r = Ok tt
      /\ teams db'
         = map (fun row => if Team.id row =? Team.id self
                           then Team_with_password (Team.password self) row
                           else row)
             (teams db))
  /\ (r <> Ok tt -> db' = db).
Proof.
  unfold Team_save_password.
  destruct (existsb _ (teams db)) eqn:E.
  - split; [reflexivity|]. split; [|split].
    + simpl. apply Forall2_map_r. intros row.
      destruct (Z.eqb_spec (Team.id row) (Team.id self)); auto.
    + intros _. split; reflexivity.
    + intros Hne; contradiction Hne; reflexivity.
  - split; [destruct db; reflexivity|]. split; [|split].
    + unfold only_password_written.
      rewrite <- (map_id (teams db)) at 2.
      apply Forall2_map_r; auto.
    + intros [row [Hin Hid]]. exfalso.
      assert (Ht : existsb (fun r => Team.id r =? Team.id self) (teams db) = true).
      { apply existsb_exists. exists row. split; [exact Hin|].
        apply Z.eqb_eq; exact Hid. }
      rewrite Ht in E; discriminate.
    + reflexivity.
Qed.

(** C9: [check_password] returns whether the raw password matches the stored
    hash.  It writes only when the password matches and the hash is in an
    old format; what it writes then is the [password] attribute of the
    instance and the [password] column of the team's row: every other model
    field of the instance, every other column of that row, every other row
    and every other table are as before. *)
Theorem Team_check_password_frame (h : Hashers) (salt : string)
    (self : Team.t) (raw_password : string) (db : Database)
    (r : result bool) (self' : Team.t) (db' : Database) :
  Team_check_password h salt self raw_password db = (r, (self', db')) ->
  let matches :=
    is_password_usable h (Team.password self)
    && verify h raw_password (Team.password self) in
  let rehash := matches && must_update h (Team.password self) in
  (forall b, r = Ok b -> b = matches)
  /\ (rehash = false -> r = Ok matches /\ self' = self /\ db' = db)
  /\ (rehash = true ->
      Team.password self' = make_password h salt raw_password
      /\ ((exists row, In row (teams db) /\ Team.id row = Team.id self) ->
          r = Ok true
          /\ teams db'
             = map (fun row =>
                      if Team.id row =? Team.id self
                      then Team_with_password
                             (make_password h salt raw_password) row
                      else row)
                 (teams db)))
  /\ Team.id self' = Team.id self
  /\ Team.name self' = Team.name self
  /\ Team.last_score_time self' = Team.last_score_time self
  /\ Team.created_at self' = Team.created_at self
  /\ Team.updated_at self' = Team.updated_at self
  /\ db' = with_teams (teams db') db
  /\ only_password_written self (Team.password self') (teams db) (teams db').
Proof.
  unfold Team_check_password, check_password. intros Hrun; simpl.
  assert (Hsame : only_password_written self (Team.password self)
                    (teams db) (teams db)).
  { unfold only_password_written. rewrite <- (map_id (teams db)) at 2.
    apply Forall2_map_r; auto. }
  assert (Hdb : db = with_teams (teams db) db) by (destruct db; reflexivity).
  destruct (is_password_usable h (Team.password self)) eqn:Hus; simpl in *.
  2:{ injection Hrun as <- <- <-.
      repeat split; try reflexivity; try assumption; try discriminate.
      intros b [= <-]; reflexivity. }
  destruct (verify h raw_password (Team.password self)) eqn:Hv; simpl in *.
  2:{ injection Hrun as <- <- <-.
      repeat split; try reflexivity; try assumption; try discriminate.
      intros b [= <-]; reflexivity. }
  destruct (must_update h (Team.password self)) eqn:Hmu; simpl in *.
  2:{ injection Hrun as <- <- <-.
      repeat split; try reflexivity; try assumption; try discriminate.
      intros b [= <-]; reflexivity. }
  match type of Hrun with
  | context [Team_save_password ?s db] =>
      pose proof (Team_save_password_frame s db) as Hsave;
      destruct (Team_save_password s db) as [rs db1] eqn:Es
  end.
  destruct Hsave as [Hframe [Honly [Hok _]]].
  unfold only_password_written in *. simpl in Honly, Hok.
  destruct rs as [[]|e]; injection Hrun as <- <- <-; simpl.
  - split; [intros b [= <-]; reflexivity|].
    split; [discriminate|].
    split.
    { intros _. split; [reflexivity|].
      intros Hrow. split; [reflexivity|]. exact (proj2 (Hok Hrow)). }
    repeat (split; [reflexivity|]).
    split; [exact Hframe | exact Honly].
  - split; [intros b Hb; discriminate Hb|].
    split; [discriminate|].
    split.
    { intros _. split; [reflexivity|].
      intros Hrow. destruct (Hok Hrow) as [Hok' _]. discriminate Hok'. }
    repeat (split; [reflexivity|]).
    split; [exact Hframe | exact Honly].
Qed.

Lemma Team_check_password_frame_witness :
  exists self' db',
    Team_check_password sha1_hashers "NaCl" (sample_team 1 legacy_hash)
      "hunter2" teams_db
    = (Ok true, (self', db'))
    /\ Team.password self' = upgraded_hash
    /\ Team.name self' = "team"
    /\ teams db'
       = [sample_team 1 upgraded_hash; sample_team 2 upgraded_hash].
Proof.
  eexists; eexists.
  assert (Hrun : Team_check_password sha1_hashers "NaCl"
                   (sample_team 1 legacy_hash) "hunter2" teams_db
                 = (Ok true,
                    ({| Team.id := 1; Team.created_at := 0;
                        Team.updated_at := 0; Team.name := "team";
                        Team.password := upgraded_hash;
                        Team.last_score_time := None;
                        Team._password := Some None |},
                     with_teams
                       [sample_team 1 upgraded_hash;
                        sample_team 2 upgraded_hash] teams_db)))
    by (vm_compute; reflexivity).
  pose proof (Team_check_password_frame _ _ _ _ _ _ _ _ Hrun) as Hframe.
  destruct Hframe as [_ [_ [_ [_ [Hname _]]]]].
  split; [exact Hrun|].
  split; [reflexivity|].
  split; [exact Hname | reflexivity].
Defined.

(** A wrong password, and a right one against a hash that is already in
    the preferred format, write nothing. *)
Example Team_check_password_no_write :
  Team_check_password sha1_hashers "NaCl" (sample_team 1 legacy_hash)
    "letmein" teams_db
  = (Ok false, (sample_team 1 legacy_hash, teams_db))
  /\ Team_check_password sha1_hashers "NaCl" (sample_team 2 upgraded_hash)
       "hunter2" teams_db
     = (Ok true, (sample_team 2 upgraded_hash, teams_db)).
Proof. split; vm_compute; reflexivity. Qed.

(** ** UserConnection.update *)

(** Text without a colon is stored as it is, unless it is empty. *)
Lemma ip_get_db_prep_value_plain (clean : cleaner) (ip : string) :
  str_contains ":" ip = false ->
  ip <> EmptyString ->
  ip_get_db_prep_value clean ip = Some ip.
Proof.
  intros Hcolon Hip. unfold ip_get_db_prep_value, ip_get_prep_value.
  rewrite Hcolon. destruct ip; [contradiction | reflexivity].
Qed.

Lemma ip_stable_plain (clean : cleaner) (ip : string) :
  str_contains ":" ip = false -> ip_stable clean ip.
Proof.
  intros Hcolon value. unfold ip_get_db_prep_value at 1, ip_get_prep_value at 1.
  rewrite Hcolon. destruct ip as [|c ip]; [discriminate|].
  intros [= <-]. apply ip_get_db_prep_value_plain; [exact Hcolon | discriminate].
Qed.

(** A cleaner that gives again what it has given makes every text
    stable. *)
Lemma ip_stable_fixed (clean : cleaner) (ip : string) :
  (forall value cleaned, clean value = Some cleaned ->
                         clean cleaned = Some cleaned) ->
  ip_stable clean ip.
Proof.
  intros Hfixed value. unfold ip_get_db_prep_value, ip_get_prep_value.
  destruct (str_contains ":" ip) eqn:Hcolon.
  - destruct (clean ip) as [cleaned|] eqn:Hclean.
    + destruct cleaned as [|c cleaned]; [discriminate|]. intros [= <-].
      rewrite (Hfixed _ _ Hclean).
      destruct (str_contains ":" (String c cleaned)); reflexivity.
    + destruct ip as [|c ip]; [discriminate|]. intros [= <-].
      rewrite Hcolon, Hclean. reflexivity.
  - destruct ip as [|c ip]; [discriminate|]. intros [= <-].
    rewrite Hcolon. reflexivity.
Qed.

Lemma same_connection_stored (clean : cleaner) (user : User.t)
    (ip value : string) (c : UserConnection.t) :
  ip_get_db_prep_value clean ip = Some value ->
  same_connection clean user ip c
  = (UserConnection.user c =? User.id user)
    && String.eqb (UserConnection.ip c) value.
Proof. intros Hip. unfold same_connection, ip_exact. rewrite Hip. reflexivity. Qed.

(** A lookup on NULL finds nothing. *)
Lemma same_connection_null (clean : cleaner) (user : User.t) (ip : string)
    (rows : list UserConnection.t) :
  ip_get_db_prep_value clean ip = None ->
  filter (same_connection clean user ip) rows = [].
Proof.
  intros Hip. induction rows as [|c rows IH]; simpl; [reflexivity|].
  unfold same_connection at 1, ip_exact. rewrite Hip, andb_false_r. exact IH.
Qed.

Lemma same_connection_collide (clean : cleaner) (user : User.t) (ip : string)
    (c x : UserConnection.t) :
  same_connection clean user ip c = true ->
  collide (UserConnection_key c) (UserConnection_key x)
  = same_connection clean user ip x.
Proof.
  unfold same_connection, ip_exact, collide, UserConnection_key; simpl.
  destruct (ip_get_db_prep_value clean ip) as [value|];
    [|rewrite andb_false_r; discriminate].
  intros Hc. apply andb_prop in Hc. destruct Hc as [Hu Hi].
  apply Z.eqb_eq in Hu. apply String.eqb_eq in Hi. rewrite Hu, Hi.
  rewrite andb_true_r, (Z.eqb_sym (User.id user)), (String.eqb_sym value).
  reflexivity.
Qed.

Lemma filter_map_same {A : Type} (p : A -> bool) (f : A -> A) (l : list A) :
  (forall x, In x l -> p (f x) = p x) ->
  filter p (map f l) = map f (filter p l).
Proof.
  induction l as [|x l IH]; simpl; intros Hp; [reflexivity|].
  rewrite (Hp x (or_introl eq_refl)).
  rewrite IH by (intros y Hy; apply Hp; right; exact Hy).
  destruct (p x); reflexivity.
Qed.

(** In a consistent table at most one row is found for a (user, ip)
    pair. *)
Lemma connections_at_most_one (clean : cleaner) (user : User.t) (ip : string)
    (rows : list UserConnection.t) :
  consistent rows ->
  filter (same_connection clean user ip) rows = []
  \/ exists c, filter (same_connection clean user ip) rows = [c].
Proof.
  intros Hc.
  destruct (filter (same_connection clean user ip) rows) as [|c l] eqn:E;
    [left; reflexivity | right].
  assert (Hin : In c (filter (same_connection clean user ip) rows))
    by (rewrite E; left; reflexivity).
  apply filter_In in Hin. destruct Hin as [Hin Hsame].
  exists c. rewrite <- E.
  etransitivity;
    [|exact (consistent_key_unique rows c UserConnection_key Hc Hin
               (or_introl eq_refl) eq_refl)].
  apply filter_ext. intros x.
  rewrite <- (same_connection_collide clean user ip c x Hsame).
  unfold collide. reflexivity.
Qed.

(** An instance read from the store with a stable address is its own
    row. *)
Lemma with_ip_same (c : UserConnection.t) :
  with_ip (UserConnection.ip c) c = c.
Proof. destruct c; reflexivity. Qed.

(** One call on a consistent table, for an address that is stored as a
    stable text [value]: what [update] returns and leaves behind, as far
    as the uniqueness constraints decide it. *)
Lemma UserConnection_update_once (clean : cleaner) (clock : nat -> datetime)
    (user : User.t) (ip value : string) (db : Database) :
  consistent (user_connections db) ->
  ip_get_db_prep_value clean ip = Some value ->
  ip_get_db_prep_value clean value = Some value ->
  exists c db',
    UserConnection_update clean clock user ip db = (Ok c, db')
    /\ db' = with_user_connections (user_connections db') db
    /\ consistent (user_connections db')
    /\ filter (same_connection clean user ip) (user_connections db')
       = [with_ip value c]
    /\ UserConnection.updated_at c = clock 1%nat
    /\ UserConnection.user c = User.id user
    /\ (forall c0,
          filter (same_connection clean user ip) (user_connections db) = [c0] ->
          UserConnection.id c = UserConnection.id c0
          /\ UserConnection.created_at c = UserConnection.created_at c0
          /\ UserConnection.ip c = value
          /\ user_connections db'
             = map (fun x => if UserConnection.id x =? UserConnection.id c0
                             then c else x)
                 (user_connections db))
    /\ (filter (same_connection clean user ip) (user_connections db) = [] ->
        user_connections db' = user_connections db ++ [with_ip value c]
        /\ UserConnection.created_at c = clock 0%nat
        /\ UserConnection.ip c = ip).
Proof.
  intros Hc Hip Hvalue.
  unfold UserConnection_update, UserConnection_get_or_create,
    UserConnection_get.
  destruct (connections_at_most_one clean user ip _ Hc) as [E|[c0 E]]; rewrite E.
  - (* no row yet: the row is created *)
    unfold UserConnection_create, UserConnection_row. cbn [UserConnection.ip].
    rewrite Hip. unfold create.
    match goal with |- context [violates ?rows ?x] =>
      set (c := x); assert (Hv : violates rows c = false) end.
    { apply violates_false. intros u r' [<-|[]] Hr'.
      change (collide (UserConnection_key c) (UserConnection_key r') = false).
      destruct (collide (UserConnection_key c) (UserConnection_key r')) eqn:Ec;
        [|reflexivity].
      rewrite (same_connection_collide clean user ip c r') in Ec.
      - assert (Hin : In r' (filter (same_connection clean user ip)
                               (user_connections db)))
          by (apply filter_In; split; assumption).
        rewrite E in Hin. contradiction.
      - rewrite (same_connection_stored clean user ip value c Hip).
        unfold c; simpl.
        rewrite Z.eqb_refl, String.eqb_refl; reflexivity. }
    rewrite Hv. cbn [negb]. exists (with_ip ip c). eexists.
    split; [reflexivity|]. cbn [user_connections with_user_connections].
    assert (Hrow : with_ip value (with_ip ip c) = c) by reflexivity.
    rewrite Hrow.
    split; [reflexivity|].
    split.
    { apply consistent_app; [exact Hc | exact Hv |].
      intros x Hx. pose proof (next_pk_fresh _ x Hx) as Hlt.
      unfold c; simpl in *. lia. }
    split.
    { rewrite filter_app, E. simpl.
      rewrite (same_connection_stored clean user ip value c Hip).
      unfold c at 1 2; simpl.
      rewrite Z.eqb_refl, String.eqb_refl. reflexivity. }
    split; [reflexivity|]. split; [reflexivity|].
    split; [intros c0 H0; discriminate H0|].
    intros _. repeat split; reflexivity.
  - (* the row is there: it is saved again *)
    assert (Hin : In c0 (user_connections db)
                  /\ same_connection clean user ip c0 = true).
    { apply filter_In. rewrite E. left; reflexivity. }
    destruct Hin as [Hin Hsame].
    assert (Hfields : UserConnection.user c0 = User.id user
                      /\ UserConnection.ip c0 = value).
    { rewrite (same_connection_stored clean user ip value c0 Hip) in Hsame.
      apply andb_prop in Hsame. destruct Hsame as [Hu Hi].
      apply Z.eqb_eq in Hu. apply String.eqb_eq in Hi. split; assumption. }
    destruct Hfields as [Huser Hipc].
    cbn [negb]. unfold UserConnection_save, UserConnection_row.
    cbn [UserConnection.ip]. rewrite Hipc, Hvalue.
    unfold save. simpl.
    set (c := {| UserConnection.id := UserConnection.id c0;
                 UserConnection.created_at := UserConnection.created_at c0;
                 UserConnection.updated_at := clock 1%nat;
                 UserConnection.user := UserConnection.user c0;
                 UserConnection.ip := value |}).
    assert (Hsamec : same_connection clean user ip c = true).
    { rewrite (same_connection_stored clean user ip value c Hip).
      unfold c; simpl. rewrite Huser, Z.eqb_refl, String.eqb_refl.
      reflexivity. }
    match goal with |- context [violates ?rows c] =>
      assert (Hv : violates rows c = false) end.
    { apply violates_false. intros u r' [<-|[]] Hr'.
      apply filter_In in Hr'. destruct Hr' as [Hr' Hpk].
      change (collide (UserConnection_key c) (UserConnection_key r') = false).
      destruct (collide (UserConnection_key c) (UserConnection_key r')) eqn:Ec;
        [|reflexivity].
      rewrite (same_connection_collide clean user ip c r' Hsamec) in Ec.
      assert (Hin' : In r' (filter (same_connection clean user ip)
                              (user_connections db)))
        by (apply filter_In; split; assumption).
      rewrite E in Hin'. destruct Hin' as [<-|[]].
      simpl in Hpk. rewrite Z.eqb_refl in Hpk. discriminate. }
    rewrite Hv.
    assert (Hex : existsb (fun x => UserConnection.id x =? UserConnection.id c0)
                    (user_connections db) = true).
    { apply existsb_exists. exists c0. split; [exact Hin | apply Z.eqb_refl]. }
    rewrite Hex. exists c. eexists. split; [reflexivity|].
    cbn [user_connections with_user_connections].
    assert (Hrow : with_ip value c = c) by reflexivity. rewrite Hrow.
    assert (Hkeep : forall x, In x (user_connections db) ->
              (if UserConnection.id x =? UserConnection.id c0 then c else x) = x
              \/ x = c0).
    { intros x Hx.
      destruct (Z.eqb_spec (UserConnection.id x) (UserConnection.id c0)) as [Eid|];
        [right | left; reflexivity].
      exact (consistent_pk_unique _ x c0 Hc Hx Hin Eid). }
    assert (Hkey : UserConnection_key c = UserConnection_key c0).
    { unfold UserConnection_key, c; simpl. rewrite Hipc. reflexivity. }
    split; [reflexivity|].
    split.
    { apply consistent_map; [|exact Hc].
      intros x Hx. destruct (Hkeep x Hx) as [->| ->].
      - split; [reflexivity | intros; reflexivity].
      - rewrite Z.eqb_refl. split; [reflexivity|].
        intros u [<-|[]]; exact Hkey. }
    split.
    { rewrite filter_map_same.
      - rewrite E. simpl. rewrite Z.eqb_refl. reflexivity.
      - intros x Hx. destruct (Hkeep x Hx) as [->| ->]; [reflexivity|].
        rewrite Z.eqb_refl, Hsamec, Hsame. reflexivity. }
    split; [reflexivity|]. split; [exact Huser|].
    split.
    { intros c0' [= <-]. repeat split; reflexivity. }
    intros H0; discriminate H0.
Qed.

(** With NULL for its address [update] raises IntegrityError and writes
    nothing. *)
Lemma UserConnection_update_null (clean : cleaner) (clock : nat -> datetime)
    (user : User.t) (ip : string) (db : Database) :
  ip_get_db_prep_value clean ip = None ->
  UserConnection_update clean clock user ip db = (Raise IntegrityError, db).
Proof.
  intros Hip.
  unfold UserConnection_update, UserConnection_get_or_create,
    UserConnection_get.
  rewrite (same_connection_null clean user ip _ Hip).
  unfold UserConnection_create, UserConnection_row. cbn [UserConnection.ip].
  rewrite Hip. reflexivity.
Qed.

(** What one call that returns has done. *)
Lemma UserConnection_update_rows (clean : cleaner) (clock : nat -> datetime)
    (user : User.t) (ip : string) (db db' : Database)
    (c : UserConnection.t) :
  consistent (user_connections db) ->
  ip_stable clean ip ->
  UserConnection_update clean clock user ip db = (Ok c, db') ->
  exists value,
    ip_get_db_prep_value clean ip = Some value
    /\ db' = with_user_connections (user_connections db') db
    /\ consistent (user_connections db')
    /\ UserConnection.user c = User.id user
    /\ (UserConnection.ip c = ip \/ UserConnection.ip c = value)
    /\ UserConnection.updated_at c = clock 1%nat
    /\ filter (same_connection clean user ip) (user_connections db')
       = [with_ip value c]
    /\ (forall c', In c' (user_connections db') ->
          c' = with_ip value c
          \/ (In c' (user_connections db)
              /\ same_connection clean user ip c' = false))
    /\ (forall c', In c' (user_connections db) ->
          same_connection clean user ip c' = false ->
          In c' (user_connections db'))
    /\ (length (user_connections db')
        = length (user_connections db)
          + match filter (same_connection clean user ip)
                    (user_connections db) with
            | [] => 1
            | _ :: _ => 0
            end)%nat
    /\ (forall c0,
          filter (same_connection clean user ip) (user_connections db) = [c0] ->
          with_ip value c = c
          /\ UserConnection.id c = UserConnection.id c0
          /\ UserConnection.created_at c = UserConnection.created_at c0
          /\ user_connections db'
             = map (fun x => if UserConnection.id x =? UserConnection.id c0
                             then c else x)
                 (user_connections db)).
Proof.
  intros Hc Hstable Hrun.
  destruct (ip_get_db_prep_value clean ip) as [value|] eqn:Hip.
  2:{ rewrite (UserConnection_update_null clean clock user ip db Hip) in Hrun.
      discriminate Hrun. }
  pose proof (Hstable value Hip) as Hvalue.
  destruct (UserConnection_update_once clean clock user ip value db Hc Hip Hvalue)
    as [c1 [db1 [Hrun1 [Hdb [Hc' [Hone [Hupd [Huser [Hold Hnew]]]]]]]]].
  rewrite Hrun in Hrun1. injection Hrun1 as <- <-.
  exists value. split; [reflexivity|].
  split; [exact Hdb|]. split; [exact Hc'|].
  split; [exact Huser|].
  assert (Hsame : forall x, same_connection clean user ip x
                            = (UserConnection.user x =? User.id user)
                              && String.eqb (UserConnection.ip x) value).
  { intros x. unfold same_connection, ip_exact. rewrite Hip. reflexivity. }
  destruct (connections_at_most_one clean user ip _ Hc) as [E|[c0 E]].
  - destruct (Hnew E) as [Hrows [_ Hipc]].
    split; [left; exact Hipc|]. split; [exact Hupd|]. split; [exact Hone|].
    rewrite Hrows, E.
    split; [|split; [|split]].
    + intros c' Hin. apply in_app_or in Hin.
      destruct Hin as [Hin|[<-|[]]]; [right | left; reflexivity].
      split; [exact Hin|].
      destruct (same_connection clean user ip c') eqn:Es; [|reflexivity].
      assert (Hf : In c' (filter (same_connection clean user ip)
                            (user_connections db)))
        by (apply filter_In; split; assumption).
      rewrite E in Hf. contradiction.
    + intros c' Hin _. apply in_or_app. left; exact Hin.
    + rewrite length_app. reflexivity.
    + intros c0 H0; discriminate H0.
  - destruct (Hold c0 E) as [Hid [Hcreated [Hipc Hrows]]].
    assert (Hrow : with_ip value c = c).
    { rewrite <- Hipc. apply with_ip_same. }
    assert (Hin0 : In c0 (user_connections db)
                   /\ same_connection clean user ip c0 = true).
    { apply filter_In. rewrite E. left; reflexivity. }
    destruct Hin0 as [Hin0 Hsame0].
    assert (Hother : forall x, In x (user_connections db) ->
              same_connection clean user ip x = true -> x = c0).
    { intros x Hx Hs.
      assert (Hf : In x (filter (same_connection clean user ip)
                           (user_connections db)))
        by (apply filter_In; split; assumption).
      rewrite E in Hf. destruct Hf as [<-|[]]. reflexivity. }
    split; [right; exact Hipc|]. split; [exact Hupd|]. split; [exact Hone|].
    rewrite Hrows, E, Hrow.
    split; [|split; [|split]].
    + intros c' Hin. apply in_map_iff in Hin. destruct Hin as [x [Hfx Hx]].
      destruct (Z.eqb_spec (UserConnection.id x) (UserConnection.id c0)) as [Eid|Nid];
        [left; symmetry; exact Hfx | right]. subst c'.
      split; [exact Hx|].
      destruct (same_connection clean user ip x) eqn:Es; [|reflexivity].
      exfalso. apply Nid. rewrite (Hother x Hx Es). reflexivity.
    + intros c' Hin Hs. apply in_map_iff. exists c'. split; [|exact Hin].
      destruct (Z.eqb_spec (UserConnection.id c') (UserConnection.id c0)) as [Eid|Nid];
        [|reflexivity].
      exfalso. rewrite (consistent_pk_unique _ c' c0 Hc Hin Hin0 Eid) in Hs.
      rewrite Hsame0 in Hs. discriminate.
    + rewrite length_map. lia.
    + intros c0' [= <-]. repeat split; assumption || reflexivity.
Qed.

(** C5: two calls of [update] with the same user and address, when both
    return, leave exactly one row for the pair: the row with that user and
    the text [value] that the field stores for the address.  The second
    call creates nothing: it returns that row, with the key and
    [created_at] of the first call's and with [updated_at] set to the
    clock reading its [save] took.  The first call returns the row too,
    unless it created it from an address that is not stored as passed:
    then the instance it returns has [ip] as passed and the row has
    [value].  For an address stored as NULL, the empty text, the calls
    raise IntegrityError instead. *)
Theorem UserConnection_update_twice (clean : cleaner)
    (clock1 clock2 : nat -> datetime) (user : User.t) (ip : string)
    (db db1 db2 : Database) (c1 c2 : UserConnection.t) :
  consistent (user_connections db) ->
  ip_stable clean ip ->
  UserConnection_update clean clock1 user ip db = (Ok c1, db1) ->
  UserConnection_update clean clock2 user ip db1 = (Ok c2, db2) ->
  exists value,
    ip_get_db_prep_value clean ip = Some value
    /\ filter (same_connection clean user ip) (user_connections db1)
       = [with_ip value c1]
    /\ filter (same_connection clean user ip) (user_connections db2) = [c2]
    /\ (with_ip value c1 = c1 \/ UserConnection.ip c1 = ip)
    /\ UserConnection.id c2 = UserConnection.id c1
    /\ UserConnection.created_at c2 = UserConnection.created_at c1
    /\ UserConnection.updated_at c2 = clock2 1%nat
    /\ UserConnection.user c2 = User.id user
    /\ UserConnection.ip c2 = value
    /\ length (user_connections db2) = length (user_connections db1)
    /\ user_connections db2
       = map (fun x => if UserConnection.id x =? UserConnection.id c1
                       then c2 else x)
           (user_connections db1).
Proof.
  intros Hc Hstable Hrun1 Hrun2.
  destruct (UserConnection_update_rows _ _ _ _ _ _ _ Hc Hstable Hrun1)
    as [value [Hip [_ [Hc1 [_ [Hip1 [_ [Hone1 _]]]]]]]].
  destruct (UserConnection_update_rows _ _ _ _ _ _ _ Hc1 Hstable Hrun2)
    as [value' [Hip' [_ [_ [Huser2 [_ [Hupd2 [Hone2 [_ [_ [_ Hold]]]]]]]]]]].
  rewrite Hip in Hip'. injection Hip' as <-.
  destruct (Hold _ Hone1) as [Hrow2 [Hid [Hcreated Hrows]]].
  rewrite Hrow2 in Hone2.
  exists value. split; [exact Hip|]. split; [exact Hone1|].
  split; [exact Hone2|].
  split.
  { destruct Hip1 as [Hraw|Hstored]; [right; exact Hraw | left].
    rewrite <- Hstored. apply with_ip_same. }
  split; [exact Hid|]. split; [exact Hcreated|]. split; [exact Hupd2|].
  split; [exact Huser2|].
  split; [rewrite <- Hrow2; reflexivity|].
  split; [|exact Hrows].
  rewrite Hrows. apply length_map.
Qed.

Lemma UserConnection_update_twice_witness :
  exists c1 db1 c2 db2,
    UserConnection_update sample_clean (fun k => 100 + Z.of_nat k)
      (sample_user 1 None) "2001:DB8::1" empty_db = (Ok c1, db1)
    /\ UserConnection_update sample_clean (fun k => 200 + Z.of_nat k)
         (sample_user 1 None) "2001:DB8::1" db1 = (Ok c2, db2)
    /\ user_connections db2 = [c2]
    /\ UserConnection.ip c1 = "2001:DB8::1"
    /\ UserConnection.ip c2 = "2001:db8::1"
    /\ UserConnection.id c2 = UserConnection.id c1
    /\ UserConnection.updated_at c2 = 201.
Proof.
  set (c1 := sample_connection 1 100 101 1 "2001:DB8::1").
  set (db1 := with_user_connections
                [sample_connection 1 100 101 1 "2001:db8::1"] empty_db).
  set (c2 := sample_connection 1 100 201 1 "2001:db8::1").
  set (db2 := with_user_connections [c2] empty_db).
  assert (Hrun1 : UserConnection_update sample_clean (fun k => 100 + Z.of_nat k)
                    (sample_user 1 None) "2001:DB8::1" empty_db = (Ok c1, db1))
    by (vm_compute; reflexivity).
  assert (Hrun2 : UserConnection_update sample_clean (fun k => 200 + Z.of_nat k)
                    (sample_user 1 None) "2001:DB8::1" db1 = (Ok c2, db2))
    by (vm_compute; reflexivity).
  assert (Hc : consistent (user_connections empty_db))
    by consistent_by_evaluation.
  assert (Hstable : ip_stable sample_clean "2001:DB8::1").
  { intros value Hvalue. vm_compute in Hvalue. injection Hvalue as <-.
    vm_compute. reflexivity. }
  destruct (UserConnection_update_twice sample_clean _ _ _ _ _ _ _ _ _
              Hc Hstable Hrun1 Hrun2)
    as [value [_ [_ [_ [_ [Hid [_ [Hupd _]]]]]]]].
  exists c1, db1, c2, db2.
  split; [exact Hrun1|]. split; [exact Hrun2|].
  split; [reflexivity|]. split; [reflexivity|]. split; [reflexivity|].
  split; [exact Hid | exact Hupd].
Defined.

(** Not for every address: with the empty text, which the field stores as
    NULL, [update] raises IntegrityError and no row is written; and the
    instance that a first call returns for an IPv6 address written in
    capitals is not the row of the table, which holds the cleaned text. *)
Lemma UserConnection_update_refused :
  UserConnection_update sample_clean (fun k => 100 + Z.of_nat k)
    (sample_user 1 None) EmptyString empty_db
  = (Raise IntegrityError, empty_db)
  /\ UserConnection_update sample_clean (fun k => 100 + Z.of_nat k)
       (sample_user 1 None) "2001:DB8::1" empty_db
     = (Ok (sample_connection 1 100 101 1 "2001:DB8::1"),
        with_user_connections
          [sample_connection 1 100 101 1 "2001:db8::1"] empty_db).
Proof. split; vm_compute; reflexivity. Qed.

(** A run written out, for an IPv4 address: the second call refreshes the
    row of the first. *)
Example UserConnection_update_run :
  let '(r1, db1) :=
    UserConnection_update sample_clean (fun k => 100 + Z.of_nat k)
      (sample_user 1 None) "10.0.0.7" empty_db in
  let '(r2, db2) :=
    UserConnection_update sample_clean (fun k => 200 + Z.of_nat k)
      (sample_user 1 None) "10.0.0.7" db1 in
  r1 = Ok {| UserConnection.id := 1; UserConnection.created_at := 100;
             UserConnection.updated_at := 101; UserConnection.user := 1;
             UserConnection.ip := "10.0.0.7" |}
  /\ r2 = Ok {| UserConnection.id := 1; UserConnection.created_at := 100;
                UserConnection.updated_at := 201; UserConnection.user := 1;
                UserConnection.ip := "10.0.0.7" |}
  /\ map Ok (user_connections db2) = [r2].
Proof. vm_compute. repeat split. Qed.

(** ** order_by *)

Lemma insert_by_perm {A : Type} (key : A -> Z) (x : A) (l : list A) :
  Permutation (insert_by key x l) (x :: l).
Proof.
  induction l as [|y l IH]; simpl; [apply Permutation_refl|].
  destruct (key x <=? key y); [apply Permutation_refl|].
  eapply Permutation_trans; [apply perm_skip; exact IH | apply perm_swap].
Qed.

Lemma order_by_perm {A : Type} (key : A -> Z) (l : list A) :
  Permutation (order_by key l) l.
Proof.
  induction l as [|x l IH]; simpl; [constructor|].
  eapply Permutation_trans; [apply insert_by_perm | apply perm_skip; exact IH].
Qed.

Lemma order_by_In {A : Type} (key : A -> Z) (l : list A) (x : A) :
  In x (order_by key l) <-> In x l.
Proof.
  split; apply Permutation_in;
    [apply order_by_perm | apply Permutation_sym, order_by_perm].
Qed.

Lemma insert_by_ascending {A : Type} (key : A -> Z) (x : A) (l : list A) :
  ascending key l -> ascending key (insert_by key x l).
Proof.
  induction l as [|y l IH]; simpl; intros Hl.
  - split; [intros ? [] | exact I].
  - destruct Hl as [Hy Hl].
    destruct (Z.leb_spec (key x) (key y)) as [Hle|Hgt]; simpl.
    + split; [|split; assumption].
      intros z [<-|Hz]; [exact Hle | specialize (Hy z Hz); lia].
    + split; [|exact (IH Hl)].
      intros z Hz. apply (Permutation_in _ (insert_by_perm key x l)) in Hz.
      destruct Hz as [<-|Hz]; [lia | exact (Hy z Hz)].
Qed.

Lemma order_by_ascending {A : Type} (key : A -> Z) (l : list A) :
  ascending key (order_by key l).
Proof.
  induction l as [|x l IH]; simpl; [exact I|].
  apply insert_by_ascending; exact IH.
Qed.

(** The first row of an ordered queryset is a row of the queryset with the
    least key. *)
Lemma order_by_head {A : Type} (key : A -> Z) (l : list A) (x : A)
    (rest : list A) :
  order_by key l = x :: rest ->
  In x l /\ forall y, In y l -> key x <= key y.
Proof.
  intros E. split.
  - apply (order_by_In key). rewrite E. left; reflexivity.
  - intros y Hy. apply (order_by_In key) in Hy. rewrite E in Hy.
    pose proof (order_by_ascending key l) as Hasc. rewrite E in Hasc.
    destruct Hasc as [Hx _].
    destruct Hy as [<-|Hy]; [lia | exact (Hx y Hy)].
Qed.

Lemma order_by_nil {A : Type} (key : A -> Z) (l : list A) :
  order_by key l = [] <-> l = [].
Proof.
  split.
  - intros E. pose proof (order_by_perm key l) as Hp. rewrite E in Hp.
    apply Permutation_nil in Hp. exact Hp.
  - intros ->. reflexivity.
Qed.

Lemma latest_first_head (l : list UserConnection.t) (c : UserConnection.t)
    (rest : list UserConnection.t) :
  latest_first l = c :: rest -> In c l /\ latest_among c l.
Proof.
  intros E. destruct (order_by_head _ _ _ _ E) as [Hin Hmin].
  split; [exact Hin|]. intros c' Hc'. specialize (Hmin c' Hc'). lia.
Qed.

(** A row seen strictly later than every other row comes first. *)
Lemma latest_first_strict (l : list UserConnection.t) (c : UserConnection.t) :
  In c l ->
  (forall c', In c' l ->
     c' = c \/ UserConnection.updated_at c' < UserConnection.updated_at c) ->
  exists rest, latest_first l = c :: rest.
Proof.
  intros Hin Hlate.
  destruct (latest_first l) as [|h rest] eqn:E.
  - apply order_by_nil in E. subst l. contradiction.
  - destruct (latest_first_head _ _ _ E) as [Hh Hmax].
    destruct (Hlate h Hh) as [->|Hlt]; [exists rest; reflexivity|].
    specialize (Hmax c Hin). lia.
Qed.
(** ** User.ip *)

(** X8: [User.ip] is None exactly when the user has no connection row;
    otherwise it is the address of one of the user's rows, and no row of the
    user was seen later than that one. *)
Theorem User_ip_latest (self : User.t) (db : Database) :
  (User_ip self db = None <-> connections_of_user self db = [])
  /\ (forall ip, User_ip self db = Some ip ->
        exists c, In c (connections_of_user self db)
                  /\ UserConnection.ip c = ip
                  /\ latest_among c (connections_of_user self db)).
Proof.
  unfold User_ip. fold (connections_of_user self db).
  destruct (latest_first (connections_of_user self db)) as [|c rest] eqn:E.
  - split.
    + split; [intros _ | reflexivity].
      unfold latest_first in E. apply order_by_nil in E. exact E.
    + intros ip Hip; discriminate Hip.
  - destruct (latest_first_head _ _ _ E) as [Hin Hmax]. split.
    + split; [discriminate|]. intros Hnil. rewrite Hnil in Hin. contradiction.
    + intros ip [= <-]. exists c. repeat split; assumption.
Qed.

(** X9: After [UserConnection.update(user, ip)] has returned, with the clock
    ahead of every earlier sighting of the user, [user.ip] is the text
    that the field stores for [ip]: [ip] itself when it has no colon, and
    what [clean_ipv6_address] makes of it when it is an IPv6 address. *)
Theorem User_ip_after_update (clean : cleaner) (clock : nat -> datetime)
    (user : User.t) (ip : string) (db db' : Database)
    (c : UserConnection.t) :
  consistent (user_connections db) ->
  ip_stable clean ip ->
  (forall c', In c' (connections_of_user user db) ->
              UserConnection.updated_at c' < clock 1%nat) ->
  UserConnection_update clean clock user ip db = (Ok c, db') ->
  User_ip user db' = ip_get_db_prep_value clean ip
  /\ User_ip user db' = Some (ip_get_prep_value clean ip)
  /\ (str_contains ":" ip = false -> User_ip user db' = Some ip).
Proof.
  intros Hc Hstable Hclock Hrun.
  destruct (UserConnection_update_rows _ _ _ _ _ _ _ Hc Hstable Hrun)
    as [value [Hip [_ [_ [Hu [_ [Hupd [Hone [Hrows _]]]]]]]]].
  assert (Hin : In (with_ip value c) (user_connections db')).
  { assert (Hf : In (with_ip value c)
                   (filter (same_connection clean user ip)
                      (user_connections db')))
      by (rewrite Hone; left; reflexivity).
    apply filter_In in Hf. tauto. }
  assert (Hmain : User_ip user db' = Some value).
  { unfold User_ip.
    destruct (latest_first_strict
                (filter (fun x => UserConnection.user x =? User.id user)
                   (user_connections db')) (with_ip value c)) as [rest Hrest].
    - apply filter_In. split; [exact Hin | apply Z.eqb_eq; exact Hu].
    - intros c' Hc'. apply filter_In in Hc'. destruct Hc' as [Hc' Hu'].
      destruct (Hrows c' Hc') as [->|[Hold _]]; [left; reflexivity | right].
      cbn [with_ip UserConnection.updated_at]. rewrite Hupd.
      apply Hclock. apply filter_In. split; assumption.
    - rewrite Hrest. reflexivity. }
  assert (Hprep : ip_get_prep_value clean ip = value).
  { unfold ip_get_db_prep_value in Hip.
    destruct (ip_get_prep_value clean ip); [discriminate Hip|].
    injection Hip as <-. reflexivity. }
  split; [rewrite Hip; exact Hmain|]. split; [rewrite Hprep; exact Hmain|].
  intros Hcolon. rewrite Hmain. f_equal. rewrite <- Hprep.
  unfold ip_get_prep_value. rewrite Hcolon. reflexivity.
Qed.

Lemma User_ip_after_update_witness :
  exists c db',
    UserConnection_update sample_clean (fun k => 200 + Z.of_nat k)
      (sample_user 1 None) "2001:DB8::9" connections_db = (Ok c, db')
    /\ User_ip (sample_user 1 None) connections_db = Some "10.0.0.7"
    /\ User_ip (sample_user 1 None) db' = Some "2001:db8::9".
Proof.
  exists (sample_connection 3 200 201 1 "2001:DB8::9").
  exists (with_user_connections
            [sample_connection 1 100 101 1 "10.0.0.7";
             sample_connection 2 50 60 2 "10.0.0.8";
             sample_connection 3 200 201 1 "2001:db8::9"]
            connections_db).
  assert (Hrun : UserConnection_update sample_clean (fun k => 200 + Z.of_nat k)
                   (sample_user 1 None) "2001:DB8::9" connections_db
                 = (Ok (sample_connection 3 200 201 1 "2001:DB8::9"),
                    with_user_connections
                      [sample_connection 1 100 101 1 "10.0.0.7";
                       sample_connection 2 50 60 2 "10.0.0.8";
                       sample_connection 3 200 201 1 "2001:db8::9"]
                      connections_db))
    by (vm_compute; reflexivity).
  split; [exact Hrun|]. split; [reflexivity|].
  refine (proj1 (proj2 (User_ip_after_update _ _ _ _ _ _ _ _ _ _ Hrun))).
  - consistent_by_evaluation.
  - intros value Hvalue. vm_compute in Hvalue. injection Hvalue as <-.
    vm_compute. reflexivity.
  - simpl. intros c' [<-|[]]. simpl. lia.
Defined.

(** ** UserManager.by_ip *)

(** X10: [by_ip] is empty when the address was never seen.  When it returns
    users, each is a row of the user table whose key is the user of a
    connection from that address that no other one from it outdates. *)
Theorem UserManager_by_ip_latest (clean : cleaner) (ip : string)
    (db : Database) :
  (connections_from clean ip db = [] -> UserManager_by_ip clean ip db = Ok [])
  /\ (forall us u, UserManager_by_ip clean ip db = Ok us -> In u us ->
        In u (users db)
        /\ exists c, In c (connections_from clean ip db)
                     /\ UserConnection.user c = User.id u
                     /\ latest_among c (connections_from clean ip db)).
Proof.
  unfold UserManager_by_ip. fold (connections_from clean ip db). split.
  - intros ->. reflexivity.
  - intros us u.
    destruct (latest_first (connections_from clean ip db)) as [|c rest] eqn:E.
    + intros [= <-] [].
    + destruct (latest_first_head _ _ _ E) as [Hin Hmax].
      unfold get_user.
      destruct (filter (fun u0 => User.id u0 =? UserConnection.user c) (users db))
        as [|u1 [|u2 l]] eqn:Eu; simpl; try discriminate.
      intros [= <-] Hu. apply filter_In in Hu. destruct Hu as [Hu Hid].
      split; [exact Hu|]. exists c. split; [exact Hin|]. split; [|exact Hmax].
      assert (H1 : In u1 (filter (fun u0 => User.id u0 =? UserConnection.user c)
                            (users db))) by (rewrite Eu; left; reflexivity).
      apply filter_In in H1. destruct H1 as [_ H1].
      apply Z.eqb_eq in H1, Hid. congruence.
Qed.

(** X11: After [UserConnection.update(user, ip)] for a user that is the one row
    of the user table with its key, and with the clock ahead of every
    earlier sighting of the address, [by_ip(ip)] is that user alone. *)
Theorem UserManager_by_ip_after_update (clean : cleaner)
    (clock : nat -> datetime) (user : User.t) (ip : string)
    (db db' : Database) (c : UserConnection.t) :
  consistent (user_connections db) ->
  ip_stable clean ip ->
  filter (fun u => User.id u =? User.id user) (users db) = [user] ->
  (forall c', In c' (connections_from clean ip db) ->
              UserConnection.updated_at c' < clock 1%nat) ->
  UserConnection_update clean clock user ip db = (Ok c, db') ->
  UserManager_by_ip clean ip db' = Ok [user].
Proof.
  intros Hc Hstable Huser Hclock Hrun.
  destruct (UserConnection_update_rows _ _ _ _ _ _ _ Hc Hstable Hrun)
    as [value [Hip [Hdb [_ [Hu [_ [Hupd [Hone [Hrows _]]]]]]]]].
  assert (Hin : In (with_ip value c) (user_connections db')
                /\ same_connection clean user ip (with_ip value c) = true).
  { apply filter_In. rewrite Hone. left; reflexivity. }
  destruct Hin as [Hin Hsame].
  assert (Husers : users db' = users db) by (rewrite Hdb; reflexivity).
  unfold UserManager_by_ip.
  destruct (latest_first_strict
              (filter (ip_exact clean ip) (user_connections db'))
              (with_ip value c)) as [rest Hrest].
  - apply filter_In. split; [exact Hin|].
    unfold same_connection in Hsame. apply andb_prop in Hsame. tauto.
  - intros c' Hc'. apply filter_In in Hc'. destruct Hc' as [Hc' Hi'].
    destruct (Hrows c' Hc') as [->|[Hold _]]; [left; reflexivity | right].
    cbn [with_ip UserConnection.updated_at]. rewrite Hupd.
    apply Hclock. apply filter_In. split; assumption.
  - rewrite Hrest. unfold get_user. cbn [with_ip UserConnection.user].
    rewrite Husers, Hu, Huser. simpl.
    rewrite Huser. reflexivity.
Qed.

Lemma UserManager_by_ip_after_update_witness :
  exists c db',
    UserConnection_update sample_clean (fun k => 200 + Z.of_nat k)
      (sample_user 1 None) "10.0.0.8" connections_db = (Ok c, db')
    /\ UserManager_by_ip sample_clean "10.0.0.8" connections_db
       = Ok [sample_user 2 None]
    /\ UserManager_by_ip sample_clean "10.0.0.8" db' = Ok [sample_user 1 None].
Proof.
  exists (sample_connection 3 200 201 1 "10.0.0.8").
  exists (with_user_connections
            [sample_connection 1 100 101 1 "10.0.0.7";
             sample_connection 2 50 60 2 "10.0.0.8";
             sample_connection 3 200 201 1 "10.0.0.8"]
            connections_db).
  assert (Hrun : UserConnection_update sample_clean (fun k => 200 + Z.of_nat k)
                   (sample_user 1 None) "10.0.0.8" connections_db
                 = (Ok (sample_connection 3 200 201 1 "10.0.0.8"),
                    with_user_connections
                      [sample_connection 1 100 101 1 "10.0.0.7";
                       sample_connection 2 50 60 2 "10.0.0.8";
                       sample_connection 3 200 201 1 "10.0.0.8"]
                      connections_db))
    by (vm_compute; reflexivity).
  split; [exact Hrun|]. split; [reflexivity|].
  refine (UserManager_by_ip_after_update _ _ _ _ _ _ _ _ _ _ _ Hrun).
  - consistent_by_evaluation.
  - apply ip_stable_plain. reflexivity.
  - reflexivity.
  - simpl. intros c' [<-|[]]. simpl. lia.
Defined.

(** ** UserConnection.update: what it keeps, and when it fails *)

(** X12: [update] keeps the constraints of the connection table, touches no
    other table, leaves the rows of every other (user, ip) pair as they
    were, and adds at most one row. *)
Theorem UserConnection_update_keeps (clean : cleaner)
    (clock : nat -> datetime) (user : User.t) (ip : string)
    (db db' : Database) (c : UserConnection.t) :
  consistent (user_connections db) ->
  ip_stable clean ip ->
  UserConnection_update clean clock user ip db = (Ok c, db') ->
  consistent (user_connections db')
  /\ db' = with_user_connections (user_connections db') db
  /\ (forall c', same_connection clean user ip c' = false ->
        (In c' (user_connections db') <-> In c' (user_connections db)))
  /\ (length (user_connections db) <= length (user_connections db')
      <= length (user_connections db) + 1)%nat.
Proof.
  intros Hc Hstable Hrun.
  destruct (UserConnection_update_rows _ _ _ _ _ _ _ Hc Hstable Hrun)
    as [value [_ [Hdb [Hc' [_ [_ [_ [Hone [Hrows [Hkept [Hlen _]]]]]]]]]]].
  split; [exact Hc'|]. split; [exact Hdb|]. split.
  - intros c' Hother. split.
    + intros Hin. destruct (Hrows c' Hin) as [->|[Hold _]]; [|exact Hold].
      assert (Hf : In (with_ip value c)
                     (filter (same_connection clean user ip)
                        (user_connections db')))
        by (rewrite Hone; left; reflexivity).
      apply filter_In in Hf. destruct Hf as [_ Hs].
      rewrite Hs in Hother. discriminate.
    + intros Hin. exact (Hkept c' Hin Hother).
  - rewrite Hlen.
    destruct (filter (same_connection clean user ip) (user_connections db)); lia.
Qed.

Lemma UserConnection_update_keeps_witness :
  exists c db',
    UserConnection_update sample_clean (fun k => 200 + Z.of_nat k)
      (sample_user 1 None) "10.0.0.7" connections_db = (Ok c, db')
    /\ consistent (user_connections db')
    /\ In (sample_connection 2 50 60 2 "10.0.0.8") (user_connections db')
    /\ length (user_connections db') = 2%nat.
Proof.
  exists (sample_connection 1 100 201 1 "10.0.0.7").
  exists (with_user_connections
            [sample_connection 1 100 201 1 "10.0.0.7";
             sample_connection 2 50 60 2 "10.0.0.8"]
            connections_db).
  assert (Hrun : UserConnection_update sample_clean (fun k => 200 + Z.of_nat k)
                   (sample_user 1 None) "10.0.0.7" connections_db
                 = (Ok (sample_connection 1 100 201 1 "10.0.0.7"),
                    with_user_connections
                      [sample_connection 1 100 201 1 "10.0.0.7";
                       sample_connection 2 50 60 2 "10.0.0.8"]
                      connections_db))
    by (vm_compute; reflexivity).
  split; [exact Hrun|].
  assert (Hc : consistent (user_connections connections_db))
    by consistent_by_evaluation.
  assert (Hstable : ip_stable sample_clean "10.0.0.7")
    by (apply ip_stable_plain; reflexivity).
  destruct (UserConnection_update_keeps _ _ _ _ _ _ _ Hc Hstable Hrun)
    as [Hc' [_ [Hother _]]].
  split; [exact Hc'|]. split; [|reflexivity].
  apply (Hother (sample_connection 2 50 60 2 "10.0.0.8") eq_refl).
  right; left; reflexivity.
Defined.

(** X13: How [update] fails.  With an address that the field stores as NULL,
    the empty text, it raises IntegrityError; when the table already
    holds the pair more than once it raises MultipleObjectsReturned; and
    whenever it raises, the store is as it was. *)
Theorem UserConnection_update_outcome (clean : cleaner)
    (clock : nat -> datetime) (user : User.t) (ip : string) (db : Database) :
  (ip_get_db_prep_value clean ip = None ->
   UserConnection_update clean clock user ip db = (Raise IntegrityError, db))
  /\ UserConnection_update clean clock user EmptyString db
     = (Raise IntegrityError, db)
  /\ ((2 <= length (filter (same_connection clean user ip)
                      (user_connections db)))%nat ->
      UserConnection_update clean clock user ip db
      = (Raise MultipleObjectsReturned, db))
  /\ (forall e db',
        UserConnection_update clean clock user ip db = (Raise e, db') ->
        db' = db).
Proof.
  split; [apply UserConnection_update_null|].
  split; [apply UserConnection_update_null; reflexivity|].
  unfold UserConnection_update, UserConnection_get_or_create,
    UserConnection_get.
  destruct (filter (same_connection clean user ip) (user_connections db))
    as [|c0 [|c1 l]] eqn:E; cbn [length].
  - split; [lia|]. intros e db'.
    unfold UserConnection_create.
    destruct (UserConnection_row clean _) as [row|e1].
    + destruct (create _ _ _ row) as [[row' rows]|e1]; [discriminate|].
      destruct e1; intros [= <- <-]; reflexivity.
    + destruct e1; intros [= <- <-]; reflexivity.
  - split; [lia|]. intros e db'. cbn [negb].
    unfold UserConnection_save.
    destruct (UserConnection_row clean _) as [row|e1].
    + destruct (save _ _ row) as [[row' rows]|e1]; [discriminate|].
      intros [= <- <-]; reflexivity.
    + intros [= <- <-]; reflexivity.
  - split; [intros _; reflexivity|]. intros e db' [= <- <-]. reflexivity.
Qed.

(** X24: On a table that satisfies unique (user, ip), for a user of the user
    table and an address that is stored as a text that is stored as
    itself, [update] returns: it adds the row of the pair, with the stored
    text, when the table has none, and otherwise refreshes the one row
    there is and adds none. *)
Theorem UserConnection_update_returns (clean : cleaner)
    (clock : nat -> datetime) (user : User.t) (ip value : string)
    (db : Database) :
  In user (users db) ->
  consistent (user_connections db) ->
  ip_get_db_prep_value clean ip = Some value ->
  ip_get_db_prep_value clean value = Some value ->
  exists c db',
    UserConnection_update clean clock user ip db = (Ok c, db')
    /\ UserConnection.user c = User.id user
    /\ UserConnection.updated_at c = clock 1%nat
    /\ match filter (same_connection clean user ip) (user_connections db) with
       | [] =>
           user_connections db' = user_connections db ++ [with_ip value c]
           /\ UserConnection.created_at c = clock 0%nat
           /\ UserConnection.ip c = ip
       | c0 :: _ =>
           UserConnection.id c = UserConnection.id c0
           /\ UserConnection.created_at c = UserConnection.created_at c0
           /\ UserConnection.ip c = value
           /\ user_connections db'
              = map (fun x => if UserConnection.id x =? UserConnection.id c0
                              then c else x)
                  (user_connections db)
       end.
Proof.
  intros _ Hc Hip Hvalue.
  destruct (UserConnection_update_once clean clock user ip value db Hc Hip Hvalue)
    as [c [db' [Hrun [_ [_ [_ [Hupd [Huser [Hold Hnew]]]]]]]]].
  exists c, db'. split; [exact Hrun|]. split; [exact Huser|].
  split; [exact Hupd|].
  destruct (connections_at_most_one clean user ip _ Hc) as [E|[c0 E]];
    rewrite E.
  - exact (Hnew E).
  - exact (Hold c0 E).
Qed.

Lemma UserConnection_update_returns_witness :
  exists c db',
    UserConnection_update sample_clean (fun k => 200 + Z.of_nat k)
      (sample_user 2 None) "2001:DB8::2" connections_db = (Ok c, db')
    /\ UserConnection.ip c = "2001:DB8::2"
    /\ length (user_connections db') = 3%nat.
Proof.
  assert (Hc : consistent (user_connections connections_db))
    by consistent_by_evaluation.
  destruct (UserConnection_update_returns sample_clean
              (fun k => 200 + Z.of_nat k) (sample_user 2 None)
              "2001:DB8::2" "2001:db8::2" connections_db
              (or_intror (or_introl eq_refl)) Hc eq_refl eq_refl)
    as [c [db' [Hrun [_ [_ Hrows]]]]].
  exists c, db'. split; [exact Hrun|].
  cbv in Hrows. destruct Hrows as [Hrows [_ Hipc]].
  split; [exact Hipc|].
  change (user_connections db') with
    (match db' with Build_Database _ _ _ _ _ u _ _ _ => u end) in *.
  rewrite Hrows. reflexivity.
Defined.

(** ** Flag.teams *)

Lemma flag_is_Some (k : Z) (a : Answer.t) :
  flag_is k a = true <-> Answer.flag a = Some k.
Proof.
  unfold flag_is. destruct (Answer.flag a) as [k'|].
  - rewrite Z.eqb_eq. split; [intros ->; reflexivity | intros [= ->]; reflexivity].
  - split; discriminate.
Qed.

(** X1: [Flag.teams] lists the teams that have an Answer row for the flag, and
    lists each of them once when the Answer table satisfies its (team,
    flag) constraint. *)
Theorem Flag_teams_once (self : Flag.t) (db : Database) :
  (forall t, In t (Flag_teams self db) <->
             exists a, In a (answers db)
                       /\ Answer.team a = t
                       /\ Answer.flag a = Some (Flag.id self))
  /\ (consistent (answers db) -> NoDup (Flag_teams self db)).
Proof.
  unfold Flag_teams. split.
  - intros t. rewrite in_map_iff. split.
    + intros [a [Ht Ha]]. apply filter_In in Ha. destruct Ha as [Ha Hf].
      exists a. rewrite <- flag_is_Some. auto.
    + intros [a [Ha [Ht Hf]]]. exists a. split; [exact Ht|].
      apply filter_In. rewrite flag_is_Some. auto.
  - induction (answers db) as [|x rest IH]; simpl; intros Hc; [constructor|].
    destruct Hc as [_ [Hv Hc]].
    destruct (flag_is (Flag.id self) x) eqn:Ex; [|exact (IH Hc)].
    simpl. constructor; [|exact (IH Hc)].
    intros Hin. apply in_map_iff in Hin. destruct Hin as [y [Hteam Hy]].
    apply filter_In in Hy. destruct Hy as [Hy Ey].
    apply flag_is_Some in Ex, Ey.
    assert (Hcol : collide (Answer_key x) (Answer_key y) = true).
    { unfold collide, Answer_key. rewrite Ex, Ey, Hteam. simpl.
      rewrite !Z.eqb_refl. reflexivity. }
    assert (Hu : In Answer_key (@uniques Answer.t Answer_Model))
      by (left; reflexivity).
    rewrite (violates_true rest x y Answer_key Hu Hy Hcol) in Hv.
    discriminate.
Qed.

(** ** How a new row moves the scores *)

Lemma add_flag_points_flags (db db' : Database) (l : list Answer.t) (acc : Z) :
  flags db' = flags db ->
  add_flag_points db' l acc = add_flag_points db l acc.
Proof.
  intros Hf. revert acc. induction l as [|a l IH]; intros acc; simpl;
    [reflexivity|].
  destruct (Answer.flag a) as [k|]; [|reflexivity].
  unfold get_flag. rewrite Hf.
  destruct (filter (fun f => Flag.id f =? k) (flags db)) as [|f [|g r]];
    simpl; try reflexivity. apply IH.
Qed.

Lemma add_flag_points_app (db : Database) (l l' : list Answer.t) (acc : Z) :
  add_flag_points db (l ++ l') acc
  = (n <- add_flag_points db l acc ;; add_flag_points db l' n).
Proof.
  revert acc. induction l as [|a l IH]; intros acc; simpl; [reflexivity|].
  destruct (Answer.flag a) as [k|]; [|reflexivity].
  destruct (get_flag db k) as [f|e]; simpl; [apply IH | reflexivity].
Qed.

Lemma add_attack_points_shift (l : list AttackPoint.t) (n d : Z) :
  add_attack_points l (n + d) = add_attack_points l n + d.
Proof. rewrite !add_attack_points_total. lia. Qed.

Lemma Answer_create_Ok (t_add t_now : datetime) (a a' : Answer.t)
    (db db' : Database) :
  Answer_create t_add t_now a db = (Ok a', db') ->
  db' = with_answers (answers db ++ [a']) db
  /\ Answer.team a' = Answer.team a
  /\ Answer.user a' = Answer.user a
  /\ Answer.flag a' = Answer.flag a.
Proof.
  unfold Answer_create, create.
  destruct (violates (answers db) _); [discriminate|].
  intros [= <- <-]. repeat split.
Qed.

Lemma AttackPoint_create_Ok (t_add t_now : datetime) (p p' : AttackPoint.t)
    (db db' : Database) :
  AttackPoint_create t_add t_now p db = (Ok p', db') ->
  db' = with_attack_points (attack_points db ++ [p']) db
  /\ AttackPoint.team p' = AttackPoint.team p
  /\ AttackPoint.user p' = AttackPoint.user p
  /\ AttackPoint.point p' = AttackPoint.point p.
Proof.
  unfold AttackPoint_create, create.
  destruct (violates (attack_points db) _); [discriminate|].
  intros [= <- <-]. repeat split.
Qed.

(** The two loops of [points] over the rows selected by [mine]. *)
Lemma points_after_answer (db : Database) (mine : Answer.t -> bool)
    (aps : list AttackPoint.t) (a' : Answer.t) (flag : Flag.t) (k n : Z) :
  Answer.flag a' = Some k ->
  get_flag db k = Ok flag ->
  (points <- add_flag_points db
               (filter (fun a => negb (flag_is_null a))
                  (filter mine (answers db))) 0 ;;
   Ok (add_attack_points aps points)) = Ok n ->
  (points <- add_flag_points db
               (filter (fun a => negb (flag_is_null a))
                  (filter mine (answers db ++ [a']))) 0 ;;
   Ok (add_attack_points aps points))
  = Ok (n + (if mine a' then Flag.point flag else 0)).
Proof.
  intros Hk Hget.
  rewrite !filter_app, add_flag_points_app.
  destruct (add_flag_points db _ 0) as [m|e]; simpl; [|discriminate].
  intros [= <-].
  destruct (mine a'); simpl.
  - unfold flag_is_null. rewrite Hk. simpl. rewrite Hk, Hget. simpl.
    rewrite add_attack_points_shift. reflexivity.
  - rewrite Z.add_0_r. reflexivity.
Qed.

(** X5: A correct answer adds the points of its flag to the score of its team
    and of its user, and to no other score. *)
Theorem correct_answer_scores (t_add t_now : datetime) (a a' : Answer.t)
    (db db' : Database) (k : Z) (flag : Flag.t) :
  Answer.flag a = Some k ->
  get_flag db k = Ok flag ->
  Answer_create t_add t_now a db = (Ok a', db') ->
  (forall team n, Team_points team db = Ok n ->
     Team_points team db'
     = Ok (n + (if Answer.team a =? Team.id team then Flag.point flag else 0)))
  /\ (forall user n, User_points user db = Ok n ->
        User_points user db'
        = Ok (n + (if Answer.user a =? User.id user
                   then Flag.point flag else 0))).
Proof.
  intros Hk Hget Hrun.
  destruct (Answer_create_Ok _ _ _ _ _ _ Hrun) as [-> [Ht [Hu Hf]]].
  rewrite Hk in Hf. split.
  - intros team n Hn. unfold Team_points in *. simpl.
    rewrite (add_flag_points_flags db (with_answers _ db) _ 0 eq_refl), <- Ht.
    exact (points_after_answer db (fun x => Answer.team x =? Team.id team)
             _ a' flag k n Hf Hget Hn).
  - intros user n Hn. unfold User_points in *. simpl.
    rewrite (add_flag_points_flags db (with_answers _ db) _ 0 eq_refl), <- Hu.
    exact (points_after_answer db (fun x => Answer.user x =? User.id user)
             _ a' flag k n Hf Hget Hn).
Qed.

Lemma correct_answer_scores_witness :
  exists a' db',
    Answer_create 5 5 (sample_answer 0 1 1 1 (Some 1)) sample_db = (Ok a', db')
    /\ Team_points (sample_team 1 EmptyString) db' = Ok 180
    /\ User_points (sample_user 2 None) db' = Ok 0.
Proof.
  exists {| Answer.id := 3; Answer.created_at := 5; Answer.updated_at := 5;
            Answer.user := 1; Answer.team := 1; Answer.question := 1;
            Answer.flag := Some 1; Answer.answer := "FLAG{x}" |}.
  eexists.
  assert (Hrun : Answer_create 5 5 (sample_answer 0 1 1 1 (Some 1)) sample_db
                 = (Ok {| Answer.id := 3; Answer.created_at := 5;
                          Answer.updated_at := 5; Answer.user := 1;
                          Answer.team := 1; Answer.question := 1;
                          Answer.flag := Some 1; Answer.answer := "FLAG{x}" |},
                    with_answers
                      (answers sample_db
                       ++ [{| Answer.id := 3; Answer.created_at := 5;
                              Answer.updated_at := 5; Answer.user := 1;
                              Answer.team := 1; Answer.question := 1;
                              Answer.flag := Some 1;
                              Answer.answer := "FLAG{x}" |}])
                      sample_db))
    by (vm_compute; reflexivity).
  split; [exact Hrun|].
  destruct (correct_answer_scores 5 5 (sample_answer 0 1 1 1 (Some 1)) _
              sample_db _ 1 (sample_flag 1 1 50 "FLAG{a}")
              eq_refl eq_refl Hrun) as [Ht Hu].
  split.
  - exact (Ht (sample_team 1 EmptyString) 130 eq_refl).
  - exact (Hu (sample_user 2 None) 0 eq_refl).
Defined.

(** X6: An answer without a flag changes no score: [Team.points] and
    [User.points] give after it what they gave before, errors included. *)
Theorem wrong_answer_scores_nothing (t_add t_now : datetime)
    (a a' : Answer.t) (db db' : Database) :
  Answer.flag a = None ->
  Answer_create t_add t_now a db = (Ok a', db') ->
  (forall team, Team_points team db' = Team_points team db)
  /\ (forall user, User_points user db' = User_points user db).
Proof.
  intros Hnull Hrun.
  destruct (Answer_create_Ok _ _ _ _ _ _ Hrun) as [-> [_ [_ Hf]]].
  rewrite Hnull in Hf.
  assert (Hdrop : forall mine : Answer.t -> bool,
            filter (fun x => negb (flag_is_null x))
              (filter mine (answers db ++ [a']))
            = filter (fun x => negb (flag_is_null x))
                (filter mine (answers db))).
  { intros mine. rewrite !filter_app. simpl.
    destruct (mine a'); simpl; [|rewrite app_nil_r; reflexivity].
    unfold flag_is_null at 2. rewrite Hf. simpl.
    rewrite app_nil_r. reflexivity. }
  split.
  - intros team. unfold Team_points. simpl.
    rewrite Hdrop, (add_flag_points_flags db (with_answers _ db) _ 0 eq_refl). reflexivity.
  - intros user. unfold User_points. simpl.
    rewrite Hdrop, (add_flag_points_flags db (with_answers _ db) _ 0 eq_refl). reflexivity.
Qed.

Lemma wrong_answer_scores_nothing_witness :
  exists a' db',
    Answer_create 5 5 (sample_answer 0 1 1 1 None) sample_db = (Ok a', db')
    /\ Team_points (sample_team 1 EmptyString) db' = Ok 130.
Proof.
  eexists; eexists.
  assert (Hrun : Answer_create 5 5 (sample_answer 0 1 1 1 None) sample_db
                 = (Ok {| Answer.id := 3; Answer.created_at := 5;
                          Answer.updated_at := 5; Answer.user := 1;
                          Answer.team := 1; Answer.question := 1;
                          Answer.flag := None; Answer.answer := "FLAG{x}" |},
                    with_answers
                      (answers sample_db
                       ++ [{| Answer.id := 3; Answer.created_at := 5;
                              Answer.updated_at := 5; Answer.user := 1;
                              Answer.team := 1; Answer.question := 1;
                              Answer.flag := None;
                              Answer.answer := "FLAG{x}" |}])
                      sample_db))
    by (vm_compute; reflexivity).
  split; [exact Hrun|].
  rewrite (proj1 (wrong_answer_scores_nothing 5 5
                    (sample_answer 0 1 1 1 None) _ _ _ eq_refl Hrun)).
  reflexivity.
Defined.

(** X7: An attack point adds its [point] to the score of its team and of its
    user, and to no other score. *)
Theorem attack_point_scores (t_add t_now : datetime) (p p' : AttackPoint.t)
    (db db' : Database) :
  AttackPoint_create t_add t_now p db = (Ok p', db') ->
  (forall team n, Team_points team db = Ok n ->
     Team_points team db'
     = Ok (n + (if AttackPoint.team p =? Team.id team
                then AttackPoint.point p else 0)))
  /\ (forall user n, User_points user db = Ok n ->
        User_points user db'
        = Ok (n + (if AttackPoint.user p =? User.id user
                   then AttackPoint.point p else 0))).
Proof.
  intros Hrun.
  destruct (AttackPoint_create_Ok _ _ _ _ _ _ Hrun) as [-> [Ht [Hu Hp]]].
  assert (Hstep : forall (mine : AttackPoint.t -> bool) (m : Z),
            add_attack_points (filter mine (attack_points db ++ [p'])) m
            = add_attack_points (filter mine (attack_points db)) m
              + (if mine p' then AttackPoint.point p else 0)).
  { intros mine m. rewrite filter_app, !add_attack_points_total, map_app.
    simpl. destruct (mine p'); simpl.
    - rewrite Hp.
      assert (Hsum : forall l x, total (l ++ [x]) = total l + x).
      { intros l x. induction l as [|y l IH]; simpl; lia. }
      rewrite Hsum. lia.
    - rewrite app_nil_r. lia. }
  split.
  - intros team n. unfold Team_points. simpl.
    rewrite (add_flag_points_flags db (with_attack_points _ db) _ 0 eq_refl).
    destruct (add_flag_points db _ 0) as [m|e]; simpl; [|discriminate].
    intros [= <-]. rewrite Hstep, Ht. reflexivity.
  - intros user n. unfold User_points. simpl.
    rewrite (add_flag_points_flags db (with_attack_points _ db) _ 0 eq_refl).
    destruct (add_flag_points db _ 0) as [m|e]; simpl; [|discriminate].
    intros [= <-]. rewrite Hstep, Hu. reflexivity.
Qed.

Lemma attack_point_scores_witness :
  exists p' db',
    AttackPoint_create 5 5 (sample_attack_point 0 1 1 1 20 "tok2") sample_db
    = (Ok p', db')
    /\ Team_points (sample_team 1 EmptyString) db' = Ok 150
    /\ Team_points (sample_team 2 EmptyString) db' = Ok 0.
Proof.
  eexists; eexists.
  assert (Hrun : AttackPoint_create 5 5
                   (sample_attack_point 0 1 1 1 20 "tok2") sample_db
                 = (Ok {| AttackPoint.id := 2; AttackPoint.created_at := 5;
                          AttackPoint.updated_at := 5; AttackPoint.user := 1;
                          AttackPoint.team := 1; AttackPoint.question := 1;
                          AttackPoint.token := "tok2";
                          AttackPoint.point := 20 |},
                    with_attack_points
                      (attack_points sample_db
                       ++ [{| AttackPoint.id := 2; AttackPoint.created_at := 5;
                              AttackPoint.updated_at := 5;
                              AttackPoint.user := 1; AttackPoint.team := 1;
                              AttackPoint.question := 1;
                              AttackPoint.token := "tok2";
                              AttackPoint.point := 20 |}])
                      sample_db))
    by (vm_compute; reflexivity).
  split; [exact Hrun|].
  destruct (attack_point_scores 5 5 _ _ _ _ Hrun) as [Ht _].
  split.
  - exact (Ht (sample_team 1 EmptyString) 130 eq_refl).
  - exact (Ht (sample_team 2 EmptyString) 0 eq_refl).
Defined.

(** ** A flag reference that points nowhere *)

Lemma get_flag_missing (db : Database) (k : Z) :
  ~ In k (map Flag.id (flags db)) -> get_flag db k = Raise DoesNotExist.
Proof.
  unfold get_flag. intros Hnot.
  assert (E : filter (fun f => Flag.id f =? k) (flags db) = []).
  { induction (flags db) as [|f l IH]; simpl; [reflexivity|].
    destruct (Z.eqb_spec (Flag.id f) k) as [Ek|_].
    - exfalso. apply Hnot. left; exact Ek.
    - apply IH. intros Hin. apply Hnot. right; exact Hin. }
  rewrite E. reflexivity.
Qed.

Lemma add_flag_points_dangling (db : Database) (l : list Answer.t)
    (a : Answer.t) (k : Z) :
  NoDup (map Flag.id (flags db)) ->
  In a l -> Answer.flag a = Some k -> ~ In k (map Flag.id (flags db)) ->
  forall acc,
    add_flag_points db (filter (fun x => negb (flag_is_null x)) l) acc
    = Raise DoesNotExist.
Proof.
  intros Hnd Hin Hk Hnot.
  induction l as [|x l IH]; intros acc; [contradiction|]. simpl.
  unfold flag_is_null at 1.
  destruct (Answer.flag x) as [kx|] eqn:Ex; simpl.
  - rewrite Ex.
    destruct (in_dec Z.eq_dec kx (map Flag.id (flags db))) as [Hkx|Hkx].
    + destruct (get_flag_unique db kx Hnd Hkx) as [f [Hget _]].
      rewrite Hget. simpl. apply IH.
      destruct Hin as [->|Hin]; [|exact Hin].
      exfalso. apply Hnot. congruence.
    + rewrite (get_flag_missing db kx Hkx). reflexivity.
  - apply IH. destruct Hin as [->|Hin]; [congruence | exact Hin].
Qed.

(** X4: When an answer of the team holds a flag key that no Flag row has,
    [Team.points] raises DoesNotExist, and so does [User.points] for the
    user of that answer. *)
Theorem points_dangling_flag (db : Database) (a : Answer.t) (k : Z) :
  NoDup (map Flag.id (flags db)) ->
  In a (answers db) ->
  Answer.flag a = Some k ->
  ~ In k (map Flag.id (flags db)) ->
  (forall team, Team.id team = Answer.team a ->
     Team_points team db = Raise DoesNotExist)
  /\ (forall user, User.id user = Answer.user a ->
        User_points user db = Raise DoesNotExist).
Proof.
  intros Hnd Hin Hk Hnot. split.
  - intros team Hteam. unfold Team_points.
    rewrite (add_flag_points_dangling db _ a k Hnd); try assumption;
      [reflexivity|].
    apply filter_In. split; [exact Hin | apply Z.eqb_eq; congruence].
  - intros user Huser. unfold User_points.
    rewrite (add_flag_points_dangling db _ a k Hnd); try assumption;
      [reflexivity|].
    apply filter_In. split; [exact Hin | apply Z.eqb_eq; congruence].
Qed.

Lemma points_dangling_flag_witness :
  Team_points (sample_team 1 EmptyString)
    (with_answers [sample_answer 1 1 1 1 (Some 9)] sample_db)
  = Raise DoesNotExist.
Proof.
  refine (proj1 (points_dangling_flag
                   (with_answers [sample_answer 1 1 1 1 (Some 9)] sample_db)
                   (sample_answer 1 1 1 1 (Some 9)) 9 _ _ eq_refl _)
            (sample_team 1 EmptyString) eq_refl).
  - simpl. repeat constructor; simpl; intuition discriminate.
  - left; reflexivity.
  - simpl. intuition discriminate.
Defined.

(** ** Team.questions *)

Lemma total_app (l l' : list Z) : total (l ++ l') = total l + total l'.
Proof. induction l as [|x l IH]; simpl; lia. Qed.

Lemma point_of_flag_row (db : Database) (f : Flag.t) :
  NoDup (map Flag.id (flags db)) -> In f (flags db) ->
  point_of_flag db (Flag.id f) = Flag.point f.
Proof.
  unfold point_of_flag.
  induction (flags db) as [|g l IH]; simpl; intros Hnd Hin; [contradiction|].
  inversion Hnd as [|x l' Hnotin Hnd']; subst.
  destruct (Z.eqb_spec (Flag.id g) (Flag.id f)) as [E|NE].
  - destruct Hin as [->|Hin]; [reflexivity|].
    exfalso. apply Hnotin. rewrite E. apply in_map. exact Hin.
  - destruct Hin as [->|Hin]; [contradiction | exact (IH Hnd' Hin)].
Qed.

(** With pairwise distinct flag keys the join gives each answer once. *)
Lemma join_one (a : Answer.t) (q : Z) (l : list Flag.t) :
  NoDup (map Flag.id l) ->
  map (fun _ : Flag.t => a)
    (filter (fun f => flag_is (Flag.id f) a && (Flag.question f =? q)) l)
  = if match Answer.flag a with
       | Some k => existsb (fun f => (Flag.id f =? k) && (Flag.question f =? q)) l
       | None => false
       end
    then [a] else [].
Proof.
  unfold flag_is. destruct (Answer.flag a) as [k|].
  2:{ intros _. induction l as [|f l IH]; simpl; [reflexivity | exact IH]. }
  induction l as [|f l IH]; simpl; intros Hnd; [reflexivity|].
  inversion Hnd as [|x l' Hnotin Hnd']; subst.
  rewrite (Z.eqb_sym k (Flag.id f)).
  destruct ((Flag.id f =? k) && (Flag.question f =? q)) eqn:E; simpl.
  - apply andb_prop in E. destruct E as [E _]. apply Z.eqb_eq in E.
    assert (Hnone : filter (fun f0 => (k =? Flag.id f0) && (Flag.question f0 =? q)) l
                    = []).
    { clear IH Hnd Hnd'. induction l as [|g l IHl]; simpl; [reflexivity|].
      destruct (Z.eqb_spec k (Flag.id g)) as [Eg|_]; simpl.
      - exfalso. apply Hnotin. left. congruence.
      - apply IHl. intros Hin. apply Hnotin. right; exact Hin. }
    rewrite Hnone. reflexivity.
  - exact (IH Hnd').
Qed.

Lemma team_question_answers_solved (self : Team.t) (q : Question.t)
    (db : Database) :
  NoDup (map Flag.id (flags db)) ->
  team_question_answers self q db = solved_in self q db.
Proof.
  intros Hnd. unfold team_question_answers, solved_in, in_question.
  induction (answers db) as [|a l IH]; simpl; [reflexivity|].
  destruct (Answer.team a =? Team.id self); simpl; [|exact IH].
  rewrite (join_one a (Question.id q) (flags db) Hnd), IH.
  destruct (match Answer.flag a with Some _ => _ | None => _ end); reflexivity.
Qed.

Lemma solved_in_flag (self : Team.t) (q : Question.t) (db : Database)
    (a : Answer.t) :
  In a (solved_in self q db) ->
  In a (answers db) /\ Answer.team a = Team.id self
  /\ exists f, In f (flags_of_question q db)
               /\ Answer.flag a = Some (Flag.id f).
Proof.
  unfold solved_in, in_question, flags_of_question. rewrite filter_In.
  intros [Hin Hb]. apply andb_prop in Hb. destruct Hb as [Ht Hq].
  apply Z.eqb_eq in Ht. split; [exact Hin|]. split; [exact Ht|].
  destruct (Answer.flag a) as [k|]; [|discriminate].
  apply existsb_exists in Hq. destruct Hq as [f [Hf Hb]].
  apply andb_prop in Hb. destruct Hb as [Hid Hqf]. apply Z.eqb_eq in Hid.
  exists f. split; [|congruence]. apply filter_In. split; assumption.
Qed.

Lemma flag_points_solved (db : Database) (l : list Answer.t) :
  NoDup (map Flag.id (flags db)) ->
  (forall a, In a l -> exists k, Answer.flag a = Some k
                                 /\ In k (map Flag.id (flags db))) ->
  exists points, flag_points db l = Ok points
                 /\ sum points = answer_total db l.
Proof.
  intros Hnd. induction l as [|a l IH]; intros Hall; simpl.
  - exists []. split; reflexivity.
  - destruct (Hall a (or_introl eq_refl)) as [k [Hk Hin]]. rewrite Hk.
    destruct (get_flag_unique db k Hnd Hin) as [f [Hget Hpt]].
    destruct (IH (fun x Hx => Hall x (or_intror Hx))) as [points [Hps Hsum]].
    rewrite Hget. simpl. rewrite Hps. simpl.
    exists (Flag.point f :: points). split; [reflexivity|].
    rewrite sum_total in *. simpl. lia.
Qed.

Lemma Team_questions_loop_entries (self : Team.t) (db : Database)
    (qs : list Question.t) (data : list Summary.t) :
  NoDup (map Flag.id (flags db)) ->
  Team_questions_loop self db qs data
  = Ok (data ++ map (summary_of self db) qs).
Proof.
  intros Hnd. revert data. induction qs as [|q qs IH]; intros data; simpl.
  - rewrite app_nil_r. reflexivity.
  - rewrite (team_question_answers_solved self q db Hnd).
    destruct (flag_points_solved db (solved_in self q db) Hnd)
      as [points [Hps Hsum]].
    { intros a Ha. destruct (solved_in_flag _ _ _ _ Ha) as [_ [_ [f [Hf Hk]]]].
      exists (Flag.id f). split; [exact Hk|].
      apply in_map. unfold flags_of_question in Hf.
      apply filter_In in Hf. tauto. }
    rewrite Hps. simpl. rewrite IH, Hsum, <- app_assoc. reflexivity.
Qed.

Lemma solved_in_keys_NoDup (self : Team.t) (q : Question.t) (db : Database) :
  consistent (answers db) -> NoDup (map flag_key (solved_in self q db)).
Proof.
  unfold solved_in.
  induction (answers db) as [|x rest IH]; simpl; intros Hc; [constructor|].
  destruct Hc as [_ [Hv Hc]].
  destruct ((Answer.team x =? Team.id self) && in_question db q x) eqn:Ex;
    [|exact (IH Hc)].
  simpl. constructor; [|exact (IH Hc)].
  intros Hin. apply in_map_iff in Hin. destruct Hin as [y [Hkey Hy]].
  apply filter_In in Hy. destruct Hy as [Hy Ey].
  apply andb_prop in Ex, Ey. destruct Ex as [Etx Eqx], Ey as [Ety Eqy].
  apply Z.eqb_eq in Etx, Ety.
  unfold in_question in Eqx, Eqy. unfold flag_key in Hkey.
  destruct (Answer.flag x) as [kx|] eqn:Fx; [|discriminate].
  destruct (Answer.flag y) as [ky|] eqn:Fy; [|discriminate].
  assert (Hcol : collide (Answer_key x) (Answer_key y) = true).
  { unfold collide, Answer_key. rewrite Fx, Fy, Etx, Ety, Hkey. simpl.
    rewrite !Z.eqb_refl. reflexivity. }
  assert (Hu : In Answer_key (@uniques Answer.t Answer_Model))
    by (left; reflexivity).
  rewrite (violates_true rest x y Answer_key Hu Hy Hcol) in Hv.
  discriminate.
Qed.

Lemma answer_total_keys (db : Database) (l : list Answer.t) :
  (forall a, In a l -> Answer.flag a <> None) ->
  answer_total db l = total (map (point_of_flag db) (map flag_key l)).
Proof.
  induction l as [|a l IH]; intros Hall; simpl; [reflexivity|].
  rewrite IH by (intros x Hx; apply Hall; right; exact Hx).
  assert (Hk : Answer.flag a = Some (flag_key a)).
  { unfold flag_key. destruct (Answer.flag a) eqn:E; [reflexivity|].
    exfalso. exact (Hall a (or_introl eq_refl) E). }
  rewrite Hk. reflexivity.
Qed.

(** The sum over distinct keys taken from [l'] is at most the sum over
    [l'], when no term is negative. *)
Lemma total_incl (g : Z -> Z) (l l' : list Z) :
  NoDup l -> incl l l' -> (forall k, In k l' -> 0 <= g k) ->
  0 <= total (map g l) <= total (map g l').
Proof.
  revert l'. induction l as [|k l IH]; intros l' Hnd Hincl Hpos.
  - simpl. split; [lia|].
    induction l' as [|x l' IHl]; simpl; [lia|].
    pose proof (Hpos x (or_introl eq_refl)).
    assert (0 <= total (map g l')); [|lia].
    apply IHl; [intros ? [] | intros y Hy; apply Hpos; right; exact Hy].
  - inversion Hnd as [|x l0 Hnotin Hnd']; subst.
    destruct (in_split k l' (Hincl k (or_introl eq_refl))) as [l1 [l2 ->]].
    assert (Hincl' : incl l (l1 ++ l2)).
    { intros x Hx. specialize (Hincl x (or_intror Hx)).
      apply in_app_or in Hincl. apply in_or_app.
      destruct Hincl as [H1|[->|H2]]; [left; exact H1 | contradiction | right; exact H2]. }
    assert (Hpos' : forall x, In x (l1 ++ l2) -> 0 <= g x).
    { intros x Hx. apply Hpos. apply in_app_or in Hx. apply in_or_app.
      destruct Hx as [H1|H2]; [left; exact H1 | right; right; exact H2]. }
    specialize (IH (l1 ++ l2) Hnd' Hincl' Hpos').
    assert (Hk : 0 <= g k).
    { apply Hpos. apply in_or_app. right; left; reflexivity. }
    rewrite map_app in IH. rewrite map_app. simpl.
    rewrite total_app in IH. rewrite total_app. simpl. lia.
Qed.

(** X2: With pairwise distinct flag keys and an Answer table that satisfies its
    (team, flag) constraint, [Team.questions] returns one entry per public
    question, in the order of [ordering]; an entry counts at most as many
    flags as the question has, and, when no flag has negative points, holds
    at most [Question.points]. *)
Theorem Team_questions_bounds (self : Team.t) (db : Database) :
  NoDup (map Flag.id (flags db)) ->
  consistent (answers db) ->
  Team_questions self db
  = Ok (map (summary_of self db)
          (order_by Question.ordering (QuestionManager_public db)))
  /\ ascending Question.ordering
       (order_by Question.ordering (QuestionManager_public db))
  /\ (forall q,
        0 <= Summary.flags (summary_of self db q)
          <= Z.of_nat (length (flags_of_question q db))
        /\ ((forall f, In f (flags db) -> 0 <= Flag.point f) ->
            0 <= Summary.points (summary_of self db q)
              <= Question_points q db)).
Proof.
  intros Hnd Hc. split; [|split].
  - unfold Team_questions. rewrite Team_questions_loop_entries by exact Hnd.
    reflexivity.
  - apply order_by_ascending.
  - intros q.
    assert (Hincl : incl (map flag_key (solved_in self q db))
                      (map Flag.id (flags_of_question q db))).
    { intros k Hk. apply in_map_iff in Hk. destruct Hk as [a [<- Ha]].
      destruct (solved_in_flag _ _ _ _ Ha) as [_ [_ [f [Hf Hk]]]].
      unfold flag_key. rewrite Hk. apply in_map. exact Hf. }
    pose proof (solved_in_keys_NoDup self q db Hc) as Hkeys.
    split.
    + simpl. pose proof (NoDup_incl_length Hkeys Hincl) as Hlen.
      rewrite !length_map in Hlen. lia.
    + intros Hpos. simpl.
      rewrite answer_total_keys.
      2:{ intros a Ha. destruct (solved_in_flag _ _ _ _ Ha) as [_ [_ [f [_ Hk]]]].
          rewrite Hk. discriminate. }
      assert (Hq : Question_points q db
                   = total (map (point_of_flag db)
                              (map Flag.id (flags_of_question q db)))).
      { unfold Question_points. rewrite sum_total. fold (flags_of_question q db).
        rewrite map_map. f_equal. apply map_ext_in. intros f Hf.
        symmetry. apply point_of_flag_row; [exact Hnd|].
        unfold flags_of_question in Hf. apply filter_In in Hf. tauto. }
      rewrite Hq. apply total_incl; [exact Hkeys | exact Hincl|].
      intros k Hk. apply in_map_iff in Hk. destruct Hk as [f [<- Hf]].
      unfold flags_of_question in Hf. apply filter_In in Hf.
      destruct Hf as [Hf _].
      rewrite (point_of_flag_row db f Hnd Hf). exact (Hpos f Hf).
Qed.

Lemma Team_questions_bounds_witness :
  Team_questions (sample_team 1 EmptyString) sample_db
  = Ok [{| Summary.id := 1; Summary.flags := 1; Summary.points := 100 |}].
Proof.
  destruct (Team_questions_bounds (sample_team 1 EmptyString) sample_db)
    as [Hrun _].
  - simpl. repeat constructor; simpl; intuition discriminate.
  - consistent_by_evaluation.
  - rewrite Hrun. reflexivity.
Defined.

(** ** Team.questions against Team.points *)

Lemma answer_total_cons (db : Database) (a : Answer.t) (l : list Answer.t) :
  answer_total db (a :: l) = answer_worth db a + answer_total db l.
Proof. unfold answer_worth. simpl. destruct (Answer.flag a); lia. Qed.

(** The points of the entries, one answer more. *)
Lemma entries_cons (db : Database) (p : Question.t -> Answer.t -> bool)
    (qs : list Question.t) (a : Answer.t) (l : list Answer.t) :
  total (map (fun q => answer_total db (filter (p q) (a :: l))) qs)
  = total (map (fun q => if p q a then answer_worth db a else 0) qs)
    + total (map (fun q => answer_total db (filter (p q) l)) qs).
Proof.
  induction qs as [|q qs IH]; [reflexivity|].
  rewrite !map_cons. cbn [total]. rewrite IH. cbn [filter].
  destruct (p q a); [rewrite answer_total_cons|]; lia.
Qed.

Lemma total_zero {A : Type} (l : list A) : total (map (fun _ => 0) l) = 0.
Proof. induction l as [|x l IH]; simpl; lia. Qed.

Lemma total_one_hit (x v : Z) (qs : list Question.t) (q0 : Question.t) :
  NoDup (map Question.id qs) -> In q0 qs -> Question.id q0 = x ->
  total (map (fun q => if x =? Question.id q then v else 0) qs) = v.
Proof.
  induction qs as [|q qs IH]; simpl; intros Hnd Hin Hid; [contradiction|].
  inversion Hnd as [|y l Hnotin Hnd']; subst.
  destruct (Z.eqb_spec (Question.id q0) (Question.id q)) as [E|NE].
  - assert (Hrest : total (map (fun q1 => if Question.id q0 =? Question.id q1
                                          then v else 0) qs) = 0).
    { rewrite <- (total_zero qs) at 1. f_equal. apply map_ext_in.
      intros q1 Hq1. destruct (Z.eqb_spec (Question.id q0) (Question.id q1)) as [E1|];
        [|reflexivity].
      exfalso. apply Hnotin. rewrite <- E, E1. apply in_map. exact Hq1. }
    rewrite Hrest. lia.
  - destruct Hin as [->|Hin]; [contradiction|].
    rewrite (IH Hnd' Hin eq_refl). lia.
Qed.

Lemma in_question_row (db : Database) (q : Question.t) (a : Answer.t)
    (f : Flag.t) :
  NoDup (map Flag.id (flags db)) -> In f (flags db) ->
  Answer.flag a = Some (Flag.id f) ->
  in_question db q a = (Flag.question f =? Question.id q).
Proof.
  unfold in_question. intros Hnd Hin ->.
  induction (flags db) as [|g l IH]; simpl; [contradiction|].
  inversion Hnd as [|x l' Hnotin Hnd']; subst.
  destruct Hin as [->|Hin].
  - rewrite Z.eqb_refl. simpl.
    destruct (Flag.question f =? Question.id q); [reflexivity|]. simpl.
    apply not_true_is_false. intros Hex. apply existsb_exists in Hex.
    destruct Hex as [h [Hh Hb]]. apply andb_prop in Hb. destruct Hb as [Hid _].
    apply Z.eqb_eq in Hid. apply Hnotin. rewrite <- Hid. apply in_map. exact Hh.
  - destruct (Z.eqb_spec (Flag.id g) (Flag.id f)) as [E|_]; simpl.
    + exfalso. apply Hnotin. rewrite E. apply in_map. exact Hin.
    + exact (IH Hnd' Hin).
Qed.

Lemma NoDup_map_filter {A : Type} (key : A -> Z) (p : A -> bool) (l : list A) :
  NoDup (map key l) -> NoDup (map key (filter p l)).
Proof.
  induction l as [|x l IH]; simpl; intros Hnd; [constructor|].
  inversion Hnd as [|y l' Hnotin Hnd']; subst.
  destruct (p x); simpl; [|exact (IH Hnd')].
  constructor; [|exact (IH Hnd')].
  intros Hin. apply Hnotin. apply in_map_iff in Hin.
  destruct Hin as [z [Hz Hin]]. apply filter_In in Hin.
  rewrite <- Hz. apply in_map. tauto.
Qed.

(** X3: When every flag belongs to a public question, the points of the
    entries of [Team.questions] and the attack points of the team add up
    to [Team.points]. *)
Theorem Team_questions_add_up (self : Team.t) (db : Database)
    (data : list Summary.t) :
  flag_references_ok db ->
  NoDup (map Question.id (questions db)) ->
  (forall f, In f (flags db) ->
     exists q, In q (questions db)
               /\ Question.id q = Flag.question f
               /\ Question.is_public q = true) ->
  Team_questions self db = Ok data ->
  Team_points self db
  = Ok (total (map Summary.points data)
        + total (map AttackPoint.point (team_attack_points self db))).
Proof.
  intros [Hnd Href] Hq Hpub Hrun.
  unfold Team_questions in Hrun.
  rewrite (Team_questions_loop_entries self db _ [] Hnd) in Hrun.
  apply Ok_inj in Hrun. subst data. simpl app.
  set (qs := order_by Question.ordering (QuestionManager_public db)).
  assert (Hqs : NoDup (map Question.id qs)).
  { apply (Permutation_NoDup
             (l := map Question.id (QuestionManager_public db))).
    - apply Permutation_map, Permutation_sym, order_by_perm.
    - apply NoDup_map_filter. exact Hq. }
  assert (Hentries : forall l,
            (forall a k, In a l -> Answer.flag a = Some k ->
                         In k (map Flag.id (flags db))) ->
            total (map (fun q => answer_total db
                                   (filter (fun a => (Answer.team a =? Team.id self)
                                                     && in_question db q a) l))
                     qs)
            = answer_total db (filter (fun a => Answer.team a =? Team.id self) l)).
  { induction l as [|a l IH]; intros Hl.
    - simpl. apply total_zero.
    - rewrite entries_cons, IH by (intros x k Hx; apply Hl; right; exact Hx).
      simpl filter.
      destruct (Answer.team a =? Team.id self) eqn:Et; simpl andb.
      + rewrite answer_total_cons. f_equal.
        unfold answer_worth at 2.
        destruct (Answer.flag a) as [k|] eqn:Ek.
        * assert (Hk := Hl a k (or_introl eq_refl) Ek).
          apply in_map_iff in Hk. destruct Hk as [f [Hid Hf]].
          destruct (Hpub f Hf) as [q0 [Hq0 [Hq0id Hq0pub]]].
          rewrite <- (total_one_hit (Flag.question f) (point_of_flag db k) qs q0).
          -- f_equal. apply map_ext. intros q.
             rewrite (in_question_row db q a f Hnd Hf) by congruence.
             unfold answer_worth. rewrite Ek. reflexivity.
          -- exact Hqs.
          -- apply order_by_In. apply filter_In. split; assumption.
          -- exact Hq0id.
        * rewrite <- (total_zero qs) at 1. f_equal. apply map_ext. intros q.
          unfold answer_worth. rewrite Ek. destruct (in_question db q a); reflexivity.
      + rewrite total_zero. lia. }
  unfold Team_points.
  rewrite (add_flag_points_total db _ Hnd).
  2:{ intros a k Ha. apply Href. apply filter_In in Ha. tauto. }
  simpl. rewrite add_attack_points_total. f_equal.
  unfold team_attack_points. rewrite map_map. simpl.
  unfold solved_in. rewrite (Hentries (answers db) Href). lia.
Qed.

Lemma Team_questions_add_up_witness :
  Team_points (sample_team 1 EmptyString) sample_db = Ok (100 + 30).
Proof.
  refine (Team_questions_add_up (sample_team 1 EmptyString) sample_db
            [{| Summary.id := 1; Summary.flags := 1; Summary.points := 100 |}]
            _ _ _ eq_refl).
  - split.
    + simpl. repeat constructor; simpl; intuition discriminate.
    + simpl. intros a k [<-|[<-|[]]]; simpl; intros [= <-]; auto.
  - simpl. repeat constructor; simpl; intuition discriminate.
  - simpl. intros f [<-|[<-|[]]]; exists (sample_question 1 true);
      repeat split; left; reflexivity.
Defined.

(** ** Team.set_password, then Team.check_password *)

(** X14: After [set_password(raw)], for hashers that take their own fresh hash
    as usable and up to date, [check_password(p)] answers what the hasher's
    comparison answers and writes nothing; with hashers that verify what
    they hashed, the answer for [raw] itself is True. *)
Theorem check_after_set (h : Hashers) (salt salt' : string) (self : Team.t)
    (raw p : string) (db : Database) :
  is_password_usable h (make_password h salt raw) = true ->
  must_update h (make_password h salt raw) = false ->
  Team_check_password h salt' (Team_set_password h salt self raw) p db
  = (Ok (verify h p (make_password h salt raw)),
     (Team_set_password h salt self raw, db))
  /\ (verify h raw (make_password h salt raw) = true ->
      Team_check_password h salt' (Team_set_password h salt self raw) raw db
      = (Ok true, (Team_set_password h salt self raw, db))).
Proof.
  intros Hus Hmu.
  assert (Hany : forall x,
            Team_check_password h salt' (Team_set_password h salt self raw) x db
            = (Ok (verify h x (make_password h salt raw)),
               (Team_set_password h salt self raw, db))).
  { intros x. unfold Team_check_password, check_password. simpl.
    rewrite Hus, Hmu. simpl. rewrite andb_false_r. reflexivity. }
  split; [apply Hany|]. intros Hv. rewrite Hany, Hv. reflexivity.
Qed.

Lemma check_after_set_witness :
  Team_check_password sha1_hashers "salt2"
    (Team_set_password sha1_hashers "NaCl" (sample_team 1 legacy_hash) "hunter2")
    "hunter2" teams_db
  = (Ok true,
     (Team_set_password sha1_hashers "NaCl" (sample_team 1 legacy_hash) "hunter2",
      teams_db))
  /\ Team_check_password sha1_hashers "salt2"
       (Team_set_password sha1_hashers "NaCl" (sample_team 1 legacy_hash)
          "hunter2")
       "letmein" teams_db
     = (Ok false,
        (Team_set_password sha1_hashers "NaCl" (sample_team 1 legacy_hash)
           "hunter2",
         teams_db)).
Proof.
  assert (Hus : is_password_usable sha1_hashers
                  (make_password sha1_hashers "NaCl" "hunter2") = true)
    by (vm_compute; reflexivity).
  assert (Hmu : must_update sha1_hashers
                  (make_password sha1_hashers "NaCl" "hunter2") = false)
    by (vm_compute; reflexivity).
  split.
  - apply (proj2 (check_after_set sha1_hashers "NaCl" "salt2"
                    (sample_team 1 legacy_hash) "hunter2" "hunter2" teams_db
                    Hus Hmu)).
    vm_compute; reflexivity.
  - rewrite (proj1 (check_after_set sha1_hashers "NaCl" "salt2"
                      (sample_team 1 legacy_hash) "hunter2" "letmein" teams_db
                      Hus Hmu)).
    do 2 f_equal.
Defined.

(** X15: The hash is upgraded once: when a call has upgraded the hash, the next
    call with the same password on the instance and store it left answers
    True and writes nothing. *)
Theorem upgrade_happens_once (h : Hashers) (salt salt2 : string)
    (self self' : Team.t) (raw : string) (db db' : Database) :
  must_update h (Team.password self) = true ->
  is_password_usable h (make_password h salt raw) = true ->
  verify h raw (make_password h salt raw) = true ->
  must_update h (make_password h salt raw) = false ->
  Team_check_password h salt self raw db = (Ok true, (self', db')) ->
  Team.password self' = make_password h salt raw
  /\ Team_check_password h salt2 self' raw db' = (Ok true, (self', db')).
Proof.
  intros Hold Hus Hv Hmu Hrun.
  assert (Hpw : Team.password self' = make_password h salt raw).
  { unfold Team_check_password, check_password in Hrun.
    destruct (is_password_usable h (Team.password self)); simpl in Hrun;
      [|discriminate].
    destruct (verify h raw (Team.password self)); simpl in Hrun;
      [|discriminate].
    rewrite Hold in Hrun. simpl in Hrun.
    destruct (Team_save_password _ db) as [[[]|e] db1]; [|discriminate].
    injection Hrun as <- _. reflexivity. }
  split; [exact Hpw|].
  unfold Team_check_password, check_password.
  rewrite Hpw, Hus, Hv, Hmu. reflexivity.
Qed.

Lemma upgrade_happens_once_witness :
  exists self' db',
    Team_check_password sha1_hashers "NaCl" (sample_team 1 legacy_hash)
      "hunter2" teams_db = (Ok true, (self', db'))
    /\ Team_check_password sha1_hashers "salt2" self' "hunter2" db'
       = (Ok true, (self', db')).
Proof.
  eexists; eexists.
  assert (Hrun : Team_check_password sha1_hashers "NaCl"
                   (sample_team 1 legacy_hash) "hunter2" teams_db
                 = (Ok true,
                    ({| Team.id := 1; Team.created_at := 0;
                        Team.updated_at := 0; Team.name := "team";
                        Team.password := upgraded_hash;
                        Team.last_score_time := None;
                        Team._password := Some None |},
                     with_teams
                       [sample_team 1 upgraded_hash;
                        sample_team 2 upgraded_hash] teams_db)))
    by (vm_compute; reflexivity).
  split; [exact Hrun|].
  refine (proj2 (upgrade_happens_once sha1_hashers "NaCl" "salt2" _ _ _ _ _
                   _ _ _ _ Hrun)); vm_compute; reflexivity.
Defined.

(** X16: When the hash is due for an upgrade and the team has no row in the
    store, the call raises DatabaseError and leaves the store as it was,
    but the instance already carries the new hash. *)
Theorem check_password_row_missing (h : Hashers) (salt : string)
    (self : Team.t) (raw : string) (db : Database) :
  is_password_usable h (Team.password self) = true ->
  verify h raw (Team.password self) = true ->
  must_update h (Team.password self) = true ->
  (forall row, In row (teams db) -> Team.id row <> Team.id self) ->
  exists self',
    Team_check_password h salt self raw db = (Raise DatabaseError, (self', db))
    /\ Team.password self' = make_password h salt raw
    /\ Team.id self' = Team.id self
    /\ Team.name self' = Team.name self.
Proof.
  intros Hus Hv Hmu Hrows.
  unfold Team_check_password, check_password. rewrite Hus, Hv, Hmu. simpl.
  unfold Team_save_password. simpl.
  assert (Hex : existsb (fun r => Team.id r =? Team.id self) (teams db) = false).
  { apply not_true_is_false. intros Hex. apply existsb_exists in Hex.
    destruct Hex as [row [Hin Hid]]. apply Z.eqb_eq in Hid.
    exact (Hrows row Hin Hid). }
  rewrite Hex. eexists. split; [reflexivity|]. repeat split.
Qed.

Lemma check_password_row_missing_witness :
  exists self',
    Team_check_password sha1_hashers "NaCl" (sample_team 9 legacy_hash)
      "hunter2" teams_db = (Raise DatabaseError, (self', teams_db))
    /\ Team.password self' = upgraded_hash.
Proof.
  destruct (check_password_row_missing sha1_hashers "NaCl"
              (sample_team 9 legacy_hash) "hunter2" teams_db)
    as [self' [Hrun [Hpw _]]].
  - vm_compute; reflexivity.
  - vm_compute; reflexivity.
  - vm_compute; reflexivity.
  - simpl. intros row [<-|[<-|[]]]; discriminate.
  - exists self'. split; [exact Hrun | exact Hpw].
Defined.

(** ** Team.token: outcomes *)

Lemma is_hex_digit (x : Z) : is_hex (SHA1.hex_digit (Z.land x 0xF)) = true.
Proof.
  change 0xF with (Z.ones 4). rewrite Z.land_ones by lia.
  change (2 ^ 4) with 16.
  pose proof (Z.mod_pos_bound x 16 ltac:(lia)) as Hr.
  assert (Hn : exists n, (n < 16)%nat /\ x mod 16 = Z.of_nat n).
  { exists (Z.to_nat (x mod 16)). split; lia. }
  destruct Hn as [n [Hlt ->]].
  do 16 (destruct n as [|n]; [reflexivity|]). lia.
Qed.

Lemma hex_word_all_hex (n : nat) (x : Z) (acc : string) :
  all_hex acc = true -> all_hex (SHA1.hex_word n x acc) = true.
Proof.
  revert x acc. induction n as [|n IH]; intros x acc Hacc; simpl; [exact Hacc|].
  apply IH. simpl. rewrite is_hex_digit. exact Hacc.
Qed.

Lemma hexdigest_all_hex (msg : list Z) : all_hex (SHA1.hexdigest msg) = true.
Proof.
  unfold SHA1.hexdigest.
  destruct (SHA1.digest msg) as [[[[h0 h1] h2] h3] h4].
  repeat apply hex_word_all_hex. reflexivity.
Qed.

(** X17: [Team.token] raises ZeroDivisionError exactly when the configured
    interval is zero; it raises nothing but that, OverflowError and
    ValueError; and what it returns is 40 lower-case hexadecimal digits. *)
Theorem Team_token_outcome (settings : Settings) (time_time : float)
    (self : Team.t) :
  (Team_token settings time_time self = Raise ZeroDivisionError <->
   PrimFloat.eqb (TEAM_TOKEN_INTERVAL settings) PrimFloat.zero = true)
  /\ (forall e, Team_token settings time_time self = Raise e ->
        e = ZeroDivisionError \/ e = OverflowError \/ e = ValueError)
  /\ (forall d, Team_token settings time_time self = Ok d ->
        String.length d = 40%nat /\ all_hex d = true).
Proof.
  unfold Team_token, token_bucket, float_truediv.
  destruct (PrimFloat.eqb (TEAM_TOKEN_INTERVAL settings) PrimFloat.zero);
    simpl.
  - split; [tauto|]. split; [intros e [= <-]; auto | discriminate].
  - unfold int_of_float.
    destruct (Prim2SF _) as [s| s | | s m e]; simpl.
    + split; [split; discriminate|]. split; [discriminate|].
      intros d [= <-]. split; [apply hexdigest_length | apply hexdigest_all_hex].
    + split; [split; discriminate|]. split; [intros e [= <-]; auto | discriminate].
    + split; [split; discriminate|]. split; [intros e [= <-]; auto | discriminate].
    + split; [split; discriminate|]. split; [discriminate|].
      intros d [= <-]. split; [apply hexdigest_length | apply hexdigest_all_hex].
Qed.

(** ** Team.token: the hashed message *)

Lemma uint_chars (d : Decimal.uint) :
  ~ In "_"%char (list_ascii_of_string (NilEmpty.string_of_uint d)).
Proof.
  induction d; simpl; intros H; try (destruct H as [H|H]; [discriminate H|]);
    auto.
Qed.

Lemma str_int_chars (n : Z) : ~ In "_"%char (list_ascii_of_string (str_int n)).
Proof.
  unfold str_int, NilZero.string_of_int, NilZero.string_of_uint.
  destruct (Z.to_int n) as [d|d].
  - destruct d; try apply uint_chars. simpl. intros [H|[]]; discriminate H.
  - simpl. intros [H|H]; [discriminate H|]. revert H.
    destruct d; try apply uint_chars. simpl. intros [H|[]]; discriminate H.
Qed.

Lemma to_int_not_nil (n : Z) :
  Z.to_int n <> Decimal.Pos Decimal.Nil /\ Z.to_int n <> Decimal.Neg Decimal.Nil.
Proof.
  destruct n as [|p|p]; simpl; split; try discriminate;
    intros [= H]; exact (DecimalPos.Unsigned.to_uint_nonnil p H).
Qed.

Lemma str_int_inj (a b : Z) : str_int a = str_int b -> a = b.
Proof.
  unfold str_int. intros E.
  assert (Hab : Z.to_int a = Z.to_int b).
  { destruct (to_int_not_nil a) as [Ha1 Ha2], (to_int_not_nil b) as [Hb1 Hb2].
    pose proof (NilZero.isi _ Ha1 Ha2) as Ia.
    pose proof (NilZero.isi _ Hb1 Hb2) as Ib.
    rewrite E in Ia. congruence. }
  rewrite <- (DecimalZ.of_to a), <- (DecimalZ.of_to b), Hab. reflexivity.
Qed.

Lemma list_ascii_app (a b : string) :
  list_ascii_of_string (a ++ b)
  = list_ascii_of_string a ++ list_ascii_of_string b.
Proof. induction a as [|c a IH]; simpl; [reflexivity | rewrite IH; reflexivity]. Qed.

(** A list is cut at its last [x] in one way only. *)
Lemma last_cut {A : Type} (x : A) (l1 l2 r1 r2 : list A) :
  ~ In x r1 -> ~ In x r2 ->
  l1 ++ x :: r1 = l2 ++ x :: r2 -> l1 = l2 /\ r1 = r2.
Proof.
  intros H1 H2. revert l2. induction l1 as [|a l1 IH]; intros [|b l2]; simpl.
  - intros [= ->]. split; reflexivity.
  - intros [= -> ->]. exfalso. apply H1. apply in_or_app. right; left; reflexivity.
  - intros [= -> <-]. exfalso. apply H2. apply in_or_app. right; left; reflexivity.
  - intros [= -> E]. destruct (IH l2 E) as [-> ->]. split; reflexivity.
Qed.

Lemma string_last_cut (a1 a2 s1 s2 : string) :
  ~ In "_"%char (list_ascii_of_string s1) ->
  ~ In "_"%char (list_ascii_of_string s2) ->
  (a1 ++ String "_" s1 = a2 ++ String "_" s2)%string -> a1 = a2 /\ s1 = s2.
Proof.
  intros H1 H2 E.
  apply (f_equal list_ascii_of_string) in E.
  rewrite !list_ascii_app in E. simpl in E.
  destruct (last_cut _ _ _ _ _ H1 H2 E) as [Ea Es].
  split.
  - rewrite <- (string_of_list_ascii_of_string a1),
            <- (string_of_list_ascii_of_string a2), Ea. reflexivity.
  - rewrite <- (string_of_list_ascii_of_string s1),
            <- (string_of_list_ascii_of_string s2), Es. reflexivity.
Qed.

(** X18: The token is the SHA-1 of a message from which the key, the team id and
    the bucket can be read back: two tokens hash the same message only when
    all three agree. *)
Theorem token_message_injective :
  (forall key id bucket,
      token_digest key id bucket
      = SHA1.hexdigest (SHA1.bytes_of_string (token_message key id bucket)))
  /\ (forall key1 key2 id1 id2 bucket1 bucket2,
        token_message key1 id1 bucket1 = token_message key2 id2 bucket2 ->
        key1 = key2 /\ id1 = id2 /\ bucket1 = bucket2).
Proof.
  split; [reflexivity|].
  unfold token_message. intros key1 key2 id1 id2 b1 b2 E.
  change (?a ++ "_" ++ ?b)%string with (a ++ String "_" b)%string in E.
  assert (E' : ((key1 ++ String "_" (str_int id1)) ++ String "_" (str_int b1)
                = (key2 ++ String "_" (str_int id2)) ++ String "_" (str_int b2))%string).
  { rewrite !string_app_assoc. exact E. }
  destruct (string_last_cut _ _ _ _ (str_int_chars b1) (str_int_chars b2) E')
    as [E1 Eb].
  destruct (string_last_cut _ _ _ _ (str_int_chars id1) (str_int_chars id2) E1)
    as [Ek Ei].
  split; [exact Ek|]. split; apply str_int_inj; assumption.
Qed.
(** ** What an accepted insert leaves *)

(** X22: An accepted Answer keeps the constraints of the table, gets a key
    above every key in it, carries the two clock readings as its
    timestamps, and changes no other table. *)
Theorem Answer_create_keeps (t_add t_now : datetime) (a a' : Answer.t)
    (db db' : Database) :
  consistent (answers db) ->
  Answer_create t_add t_now a db = (Ok a', db') ->
  consistent (answers db')
  /\ db' = with_answers (answers db ++ [a']) db
  /\ (forall x, In x (answers db) -> Answer.id x < Answer.id a')
  /\ Answer.created_at a' = t_add
  /\ Answer.updated_at a' = t_now.
Proof.
  intros Hc Hrun. unfold Answer_create in Hrun.
  destruct (create t_add t_now (answers db) a) as [[a1 rows]|e] eqn:Ec;
    [|discriminate].
  injection Hrun as <- <-.
  destruct (@create_consistent Answer.t Answer_Model (fun _ _ => eq_refl)
              _ _ _ _ _ _ Hc Ec) as [Hc' [Hrows Hpk]].
  subst rows. split; [exact Hc'|]. split; [reflexivity|]. split.
  - intros x Hx. pose proof (next_pk_fresh (answers db) x Hx) as Hlt.
    simpl in Hpk, Hlt. lia.
  - unfold create in Ec. destruct (violates _ _); [discriminate|].
    injection Ec as <-. split; reflexivity.
Qed.

Lemma Answer_create_keeps_witness :
  exists a' db',
    Answer_create 5 6 (sample_answer 0 2 2 1 (Some 2)) sample_db = (Ok a', db')
    /\ consistent (answers db')
    /\ Answer.id a' = 3.
Proof.
  eexists; eexists.
  assert (Hrun : Answer_create 5 6 (sample_answer 0 2 2 1 (Some 2)) sample_db
                 = (Ok {| Answer.id := 3; Answer.created_at := 5;
                          Answer.updated_at := 6; Answer.user := 2;
                          Answer.team := 2; Answer.question := 1;
                          Answer.flag := Some 2; Answer.answer := "FLAG{x}" |},
                    with_answers
                      (answers sample_db
                       ++ [{| Answer.id := 3; Answer.created_at := 5;
                              Answer.updated_at := 6; Answer.user := 2;
                              Answer.team := 2; Answer.question := 1;
                              Answer.flag := Some 2;
                              Answer.answer := "FLAG{x}" |}])
                      sample_db))
    by (vm_compute; reflexivity).
  split; [exact Hrun|].
  assert (Hc : consistent (answers sample_db)) by consistent_by_evaluation.
  destruct (Answer_create_keeps _ _ _ _ _ _ Hc Hrun) as [Hc' _].
  split; [exact Hc' | reflexivity].
Defined.

(** X23: An accepted AttackPoint keeps the constraints of the table, gets a key
    above every key in it, carries the two clock readings as its
    timestamps, and changes no other table. *)
Theorem AttackPoint_create_keeps (t_add t_now : datetime)
    (p p' : AttackPoint.t) (db db' : Database) :
  consistent (attack_points db) ->
  AttackPoint_create t_add t_now p db = (Ok p', db') ->
  consistent (attack_points db')
  /\ db' = with_attack_points (attack_points db ++ [p']) db
  /\ (forall x, In x (attack_points db) -> AttackPoint.id x < AttackPoint.id p')
  /\ AttackPoint.created_at p' = t_add
  /\ AttackPoint.updated_at p' = t_now.
Proof.
  intros Hc Hrun. unfold AttackPoint_create in Hrun.
  destruct (create t_add t_now (attack_points db) p) as [[p1 rows]|e] eqn:Ec;
    [|discriminate].
  injection Hrun as <- <-.
  destruct (@create_consistent AttackPoint.t AttackPoint_Model
              (fun _ _ => eq_refl) _ _ _ _ _ _ Hc Ec) as [Hc' [Hrows Hpk]].
  subst rows. split; [exact Hc'|]. split; [reflexivity|]. split.
  - intros x Hx. pose proof (next_pk_fresh (attack_points db) x Hx) as Hlt.
    simpl in Hpk, Hlt. lia.
  - unfold create in Ec. destruct (violates _ _); [discriminate|].
    injection Ec as <-. split; reflexivity.
Qed.

Lemma AttackPoint_create_keeps_witness :
  exists p' db',
    AttackPoint_create 5 6 (sample_attack_point 0 1 1 1 20 "tok2") sample_db
    = (Ok p', db')
    /\ consistent (attack_points db')
    /\ AttackPoint.id p' = 2.
Proof.
  eexists; eexists.
  assert (Hrun : AttackPoint_create 5 6
                   (sample_attack_point 0 1 1 1 20 "tok2") sample_db
                 = (Ok {| AttackPoint.id := 2; AttackPoint.created_at := 5;
                          AttackPoint.updated_at := 6; AttackPoint.user := 1;
                          AttackPoint.team := 1; AttackPoint.question := 1;
                          AttackPoint.token := "tok2";
                          AttackPoint.point := 20 |},
                    with_attack_points
                      (attack_points sample_db
                       ++ [{| AttackPoint.id := 2; AttackPoint.created_at := 5;
                              AttackPoint.updated_at := 6;
                              AttackPoint.user := 1; AttackPoint.team := 1;
                              AttackPoint.question := 1;
                              AttackPoint.token := "tok2";
                              AttackPoint.point := 20 |}])
                      sample_db))
    by (vm_compute; reflexivity).
  split; [exact Hrun|].
  assert (Hc : consistent (attack_points sample_db)) by consistent_by_evaluation.
  destruct (AttackPoint_create_keeps _ _ _ _ _ _ Hc Hrun) as [Hc' _].
  split; [exact Hc' | reflexivity].
Defined.

(** ** Question.files through Question.objects.public() *)

Lemma Question_files_of_public_question_witness :
  In (sample_file 1 1 true)
     (Question_files (sample_question 1 true)
        {| questions := [sample_question 1 true]; flags := [];
           files := [sample_file 1 1 true; sample_file 2 1 false];
           teams := []; users := []; user_connections := []; answers := [];
           attack_points := []; configs := [] |})
  <-> In (sample_file 1 1 true)
        (FileManager_public
           {| questions := [sample_question 1 true]; flags := [];
              files := [sample_file 1 1 true; sample_file 2 1 false];
              teams := []; users := []; user_connections := []; answers := [];
              attack_points := []; configs := [] |})
      /\ File.question (sample_file 1 1 true)
         = Question.id (sample_question 1 true).
Proof.
  apply (Question_files_of_public_question
           {| questions := [sample_question 1 true]; flags := [];
              files := [sample_file 1 1 true; sample_file 2 1 false];
              teams := []; users := []; user_connections := []; answers := [];
              attack_points := []; configs := [] |}
           (sample_question 1 true) (sample_file 1 1 true)).
  left; reflexivity.
Defined.

(** ** pickle: every protocol reads back what it writes *)

Lemma string_length_app (a b : string) :
  String.length (a ++ b)%string = (String.length a + String.length b)%nat.
Proof. induction a as [|c a IH]; simpl; [reflexivity | rewrite IH; reflexivity]. Qed.

Lemma read_line_app (a rest : string) :
  str_contains "010" a = false ->
  PyPickle.read_line (a ++ String "010" rest)%string = Some (a, rest).
Proof.
  induction a as [|c a IH]; simpl; [reflexivity|].
  intros H. apply orb_false_elim in H. destruct H as [Hc Ha].
  rewrite Hc, (IH Ha). reflexivity.
Qed.

Lemma str_contains_app (c : ascii) (a b : string) :
  str_contains c (a ++ b)%string = str_contains c a || str_contains c b.
Proof.
  induction a as [|x a IH]; simpl; [reflexivity|].
  rewrite IH, orb_assoc. reflexivity.
Qed.

Lemma uint_no_newline (d : Decimal.uint) :
  str_contains "010" (NilEmpty.string_of_uint d) = false.
Proof. induction d; simpl; auto. Qed.

Lemma str_int_no_newline (x : Z) : str_contains "010" (str_int x) = false.
Proof.
  unfold str_int, NilZero.string_of_int, NilZero.string_of_uint.
  destruct (Z.to_int x) as [d|d]; simpl;
    destruct d; try apply uint_no_newline; reflexivity.
Qed.

(** [int] reads the text of an integer as that integer. *)
Lemma parse_int_str_int (x : Z) :
  Z.abs x < 10 ^ PyPickle.int_max_str_digits ->
  PyPickle.parse_int (str_int x) = Some x.
Proof.
  intros Hx. unfold PyPickle.parse_int, str_int.
  destruct (to_int_not_nil x) as [H1 H2].
  rewrite (NilZero.isi _ H1 H2), DecimalZ.of_to, String.eqb_refl.
  destruct (Z.ltb_spec (Z.abs x) (10 ^ PyPickle.int_max_str_digits)); [reflexivity | lia].
Qed.

Lemma parse_int_canonical (data : string) (x : Z) :
  PyPickle.parse_int data = Some x -> str_int x = data.
Proof.
  unfold PyPickle.parse_int.
  destruct (NilZero.int_of_string data) as [d|]; [|discriminate].
  destruct (String.eqb_spec (str_int (Z.of_int d)) data) as [E|]; [|discriminate].
  destruct (Z.abs (Z.of_int d) <? _); simpl; [|discriminate].
  intros [= <-]. exact E.
Qed.

Lemma drop_last_L_app (a : string) :
  PyPickle.drop_last_L (a ++ "L")%string = a.
Proof.
  induction a as [|c a IH]; [reflexivity|].
  cbn [append PyPickle.drop_last_L]. rewrite IH.
  destruct a; reflexivity.
Qed.

Lemma load_op_int (op : ascii) (rest : string)
    (reader : string -> option (Z * string)) (x : Z) :
  PyPickle.load_op (String op rest)
  = option_map (fun '(x, r) => (PyPickle.PyInt x, r)) (reader rest) ->
  reader rest = Some (x, ".")%string ->
  PyPickle.load_op (String op rest) = Some (PyPickle.PyInt x, ".")%string.
Proof. intros -> ->. reflexivity. Qed.

Lemma load_op_INT (rest : string) :
  PyPickle.load_op (String "I" rest)
  = match PyPickle.read_line rest with
    | Some (data, r) =>
        if String.eqb data "00" then Some (PyPickle.PyBool false, r)
        else if String.eqb data "01" then Some (PyPickle.PyBool true, r)
        else option_map (fun x => (PyPickle.PyInt x, r))
               (PyPickle.parse_int data)
    | None => None
    end.
Proof. reflexivity. Qed.

Lemma load_op_LONG (rest : string) :
  PyPickle.load_op (String "L" rest)
  = match PyPickle.read_line rest with
    | Some (data, r) =>
        option_map (fun x => (PyPickle.PyInt x, r))
          (PyPickle.parse_int (PyPickle.drop_last_L data))
    | None => None
    end.
Proof. reflexivity. Qed.

(** The text of an integer is not the text of a boolean. *)
Lemma str_int_not (x : Z) (data : string) :
  Z.abs x < 10 ^ PyPickle.int_max_str_digits ->
  PyPickle.parse_int data = None ->
  String.eqb (str_int x) data = false.
Proof.
  intros Hx Hd. destruct (String.eqb_spec (str_int x) data) as [E|]; [|reflexivity].
  rewrite <- E, (parse_int_str_int x Hx) in Hd. discriminate Hd.
Qed.

Lemma int32_short (x : Z) :
  - 0x80000000 <= x <= 0x7fffffff -> Z.abs x < 10 ^ PyPickle.int_max_str_digits.
Proof.
  intros Hx.
  assert (Hb : 0x80000000 < 10 ^ PyPickle.int_max_str_digits) by reflexivity.
  set (B := 10 ^ PyPickle.int_max_str_digits) in *. lia.
Qed.

(** What [save_long] writes, followed by STOP, is read as the integer. *)
Lemma save_long_reads (p z : Z) (body : string) :
  PyPickle.save_long p z = Ok body ->
  PyPickle.load_op (body ++ ".")%string = Some (PyPickle.PyInt z, ".")%string.
Proof.
  unfold PyPickle.save_long.
  destruct (1 <=? p) eqn:Ebin; cbn [andb].
  - (* a binary protocol *)
    destruct ((0 <=? z) && (z <=? 255)) eqn:R1.
    { intros Hb; apply Ok_inj in Hb; subst body.
      apply andb_prop in R1. destruct R1 as [Hlo Hhi].
      apply Z.leb_le in Hlo, Hhi. cbn [append].
      apply (load_op_int _ _ (PyPickle.read_le 1)); [reflexivity|].
      rewrite read_le_bytes. rewrite Z.mod_small by (simpl; lia).
      reflexivity. }
    destruct ((0 <=? z) && (z <=? 65535)) eqn:R2.
    { intros Hb; apply Ok_inj in Hb; subst body.
      apply andb_prop in R2. destruct R2 as [Hlo Hhi].
      apply Z.leb_le in Hlo, Hhi. cbn [append].
      apply (load_op_int _ _ (PyPickle.read_le 2)); [reflexivity|].
      rewrite read_le_bytes. rewrite Z.mod_small by (simpl; lia).
      reflexivity. }
    destruct ((- 2147483648 <=? z) && (z <=? 2147483647)) eqn:R3.
    { intros Hb; apply Ok_inj in Hb; subst body.
      apply andb_prop in R3. destruct R3 as [Hlo Hhi].
      apply Z.leb_le in Hlo, Hhi. cbn [append].
      apply (load_op_int _ _ (PyPickle.read_signed 4)); [reflexivity|].
      apply read_signed_bytes; [lia | simpl; lia]. }
    destruct (2 <=? p) eqn:Eproto.
    + assert (Hz : z <> 0).
      { intros ->. discriminate R1. }
      destruct (encode_long_fits z Hz) as [n [Hn [Henc [Hfit _]]]].
      rewrite Henc, le_bytes_length.
      destruct (Z.ltb_spec (Z.of_nat n) 256) as [Hsmall|Hbig].
      { intros Hb; apply Ok_inj in Hb; subst body.
        cbn [append]. rewrite string_app_assoc.
        apply (load_op_int _ _ (PyPickle.read_long 1 false)); [reflexivity|].
        unfold PyPickle.read_long. rewrite read_le_bytes.
        rewrite Z.mod_small by (simpl; lia).
        destruct (Z.ltb_spec (Z.of_nat n) 0); [lia|].
        rewrite Nat2Z.id. apply read_signed_bytes; assumption. }
      destruct (Z.leb_spec (Z.of_nat n) 2147483647) as [Hmax|Hover];
        [|discriminate].
      intros Hb; apply Ok_inj in Hb; subst body.
      cbn [append]. rewrite string_app_assoc.
      apply (load_op_int _ _ (PyPickle.read_long 4 true)); [reflexivity|].
      unfold PyPickle.read_long. rewrite read_le_bytes.
      rewrite signed_mod by (simpl; lia).
      destruct (Z.ltb_spec (Z.of_nat n) 0); [lia|].
      rewrite Nat2Z.id. apply read_signed_bytes; assumption.
    + (* protocol 1, beyond 32 bits: the text of LONG *)
      destruct (Z.ltb_spec (Z.abs z) (10 ^ PyPickle.int_max_str_digits))
        as [Hshort|]; [|discriminate].
      intros Hb; apply Ok_inj in Hb; subst body.
      cbn [append]. rewrite load_op_LONG.
      change (String "L" (String "010" EmptyString))
        with ("L" ++ String "010" EmptyString)%string.
      rewrite <- string_app_assoc, string_app_assoc. cbn [append].
      rewrite read_line_app
        by (rewrite str_contains_app, str_int_no_newline; reflexivity).
      rewrite drop_last_L_app, (parse_int_str_int z Hshort). reflexivity.
  - (* protocol 0 *)
    assert (E2 : (2 <=? p) = false).
    { apply Z.leb_gt. apply Z.leb_gt in Ebin. lia. }
    rewrite E2.
    destruct ((- 2147483648 <=? z) && (z <=? 2147483647)) eqn:R3.
    { intros Hb; apply Ok_inj in Hb; subst body.
      apply andb_prop in R3. destruct R3 as [Hlo Hhi].
      apply Z.leb_le in Hlo, Hhi.
      assert (Hshort := int32_short z (conj Hlo Hhi)).
      cbn [append]. rewrite load_op_INT, string_app_assoc. cbn [append].
      rewrite read_line_app by apply str_int_no_newline.
      rewrite !(str_int_not z) by (assumption || reflexivity).
      rewrite (parse_int_str_int z Hshort). reflexivity. }
    destruct (Z.ltb_spec (Z.abs z) (10 ^ PyPickle.int_max_str_digits))
      as [Hshort|]; [|discriminate].
    intros Hb; apply Ok_inj in Hb; subst body.
    cbn [append]. rewrite load_op_LONG.
    change (String "L" (String "010" EmptyString))
      with ("L" ++ String "010" EmptyString)%string.
    rewrite <- string_app_assoc, string_app_assoc. cbn [append].
    rewrite read_line_app
      by (rewrite str_contains_app, str_int_no_newline; reflexivity).
    rewrite drop_last_L_app, (parse_int_str_int z Hshort). reflexivity.
Qed.

(** What [save] writes for a value, followed by STOP, is read as that
    value. *)
Lemma save_reads (p : Z) (v : PyPickle.value) (body : string) :
  PyPickle.save p v = Ok body ->
  PyPickle.load_op (body ++ ".")%string = Some (v, ".")%string.
Proof.
  destruct v as [|b|z|]; cbn [PyPickle.save].
  - intros Hb; apply Ok_inj in Hb; subst body. reflexivity.
  - intros Hb; apply Ok_inj in Hb; subst body.
    unfold PyPickle.save_bool. destruct (2 <=? p), b; reflexivity.
  - apply save_long_reads.
  - discriminate.
Qed.

(** The first byte [save] writes is an opcode of a value, neither PROTO
    nor FRAME. *)
Lemma save_head (p : Z) (v : PyPickle.value) (body : string) :
  PyPickle.save p v = Ok body ->
  exists op rest,
    body = String op rest
    /\ (Z.of_N (N_of_ascii op) =? 0x80) = false
    /\ (Z.of_N (N_of_ascii op) =? 0x95) = false.
Proof.
  destruct v as [|b|z|]; cbn [PyPickle.save].
  - intros Hb; apply Ok_inj in Hb; subst body.
    eexists; eexists; split; [reflexivity|]. split; reflexivity.
  - intros Hb; apply Ok_inj in Hb; subst body.
    unfold PyPickle.save_bool.
    destruct (2 <=? p), b; eexists; eexists;
      (split; [reflexivity|]); split; reflexivity.
  - unfold PyPickle.save_long.
    repeat match goal with
           | |- context [if ?c then _ else _] => destruct c
           end;
      intros Hb; try discriminate Hb; apply Ok_inj in Hb; subst body;
      eexists; eexists; (split; [reflexivity|]); split; reflexivity.
  - discriminate.
Qed.

(** From protocol 2 on, what [save] writes is shorter than a frame can
    be. *)
Lemma save_length (p : Z) (v : PyPickle.value) (body : string) :
  2 <= p ->
  PyPickle.save p v = Ok body ->
  Z.of_nat (String.length body) <= 5 + 0x7fffffff.
Proof.
  intros Hp. destruct v as [|b|z|]; cbn [PyPickle.save].
  - intros Hb; apply Ok_inj in Hb; subst body. simpl. lia.
  - intros Hb; apply Ok_inj in Hb; subst body.
    unfold PyPickle.save_bool. destruct (2 <=? p), b; simpl; lia.
  - unfold PyPickle.save_long.
    destruct (Z.leb_spec 1 p) as [_|]; [|lia].
    destruct (Z.leb_spec 2 p) as [_|]; [|lia]. cbn [andb].
    destruct ((0 <=? z) && (z <=? 255)).
    { intros Hb; apply Ok_inj in Hb; subst body. simpl. lia. }
    destruct ((0 <=? z) && (z <=? 65535)).
    { intros Hb; apply Ok_inj in Hb; subst body. simpl. lia. }
    destruct ((- 2147483648 <=? z) && (z <=? 2147483647)).
    { intros Hb; apply Ok_inj in Hb; subst body. simpl. lia. }
    destruct (Z.ltb_spec (Z.of_nat (String.length (PyPickle.encode_long z))) 256).
    { intros Hb; apply Ok_inj in Hb; subst body.
      cbn [String.length]. rewrite string_length_app, le_bytes_length. lia. }
    destruct (Z.leb_spec (Z.of_nat (String.length (PyPickle.encode_long z)))
                2147483647); [|discriminate].
    intros Hb; apply Ok_inj in Hb; subst body.
    cbn [String.length]. rewrite string_length_app, le_bytes_length. lia.
  - discriminate.
Qed.

Lemma load_frame_frame (op : ascii) (rest : string) :
  (Z.of_N (N_of_ascii op) =? 0x95) = false ->
  Z.of_nat (String.length (String op rest)) < 2 ^ 64 ->
  PyPickle.load_frame (PyPickle.frame (String op rest)) = Some (String op rest).
Proof.
  intros Hop Hlen. unfold PyPickle.frame.
  destruct (4 <=? Z.of_nat (String.length (String op rest))).
  - unfold PyPickle.load_frame.
    replace (Z.of_N (N_of_ascii (PyPickle.byte 149)) =? 149) with true
      by reflexivity.
    rewrite read_le_bytes.
    rewrite Z.mod_small by (split; [lia | exact Hlen]).
    rewrite Z.leb_refl. reflexivity.
  - unfold PyPickle.load_frame. rewrite Hop. reflexivity.
Qed.

(** Whatever [dumps] writes for a value under a protocol from 0 to 5,
    [loads] reads back as that value. *)
Lemma loads_dumps (p : Z) (v : PyPickle.value) (payload : string) :
  0 <= p <= PyPickle.HIGHEST_PROTOCOL ->
  PyPickle.dumps p v = Ok payload -> PyPickle.loads payload = Ok v.
Proof.
  intros Hp. unfold PyPickle.dumps.
  destruct (PyPickle.save p v) as [body|e] eqn:Es; cbn [bind]; [|discriminate].
  intros Hb; apply Ok_inj in Hb; subst payload.
  pose proof (save_reads p v body Es) as Hread.
  destruct (save_head p v body Es) as [op [rest [-> [H80 H95]]]].
  cbn [append] in *.
  assert (Hdata : forall data,
             PyPickle.load_frame data = Some (String op (rest ++ "."))%string ->
             match PyPickle.load_frame data with
             | Some data =>
                 match PyPickle.load_op data with
                 | Some (x, String stop _) =>
                     if Z.of_N (N_of_ascii stop) =? 46 then Ok x
                     else Raise NotModelled
                 | _ => Raise NotModelled
                 end
             | None => Raise NotModelled
             end = Ok v).
  { intros data ->. rewrite Hread. reflexivity. }
  assert (Hplain : PyPickle.load_frame (String op (rest ++ "."))
                   = Some (String op (rest ++ "."))%string).
  { unfold PyPickle.load_frame. rewrite H95. reflexivity. }
  unfold PyPickle.loads.
  destruct (Z.leb_spec 2 p) as [H2|H2].
  - assert (Hproto : forall data,
               PyPickle.load_proto
                 (String (PyPickle.byte 128) (String (PyPickle.byte p) data))
               = Ok data).
    { intros data. unfold PyPickle.load_proto.
      replace (Z.of_N (N_of_ascii (PyPickle.byte 128)) =? 128) with true
        by reflexivity.
      rewrite byte_value, Z.mod_small by (unfold PyPickle.HIGHEST_PROTOCOL in Hp; lia).
      destruct (Z.leb_spec p PyPickle.HIGHEST_PROTOCOL); [reflexivity | lia]. }
    rewrite Hproto. cbn [bind].
    destruct (4 <=? p).
    + apply Hdata. apply load_frame_frame; [exact H95|].
      pose proof (save_length p v _ H2 Es) as Hlen.
      cbn [String.length] in *. rewrite string_length_app. simpl String.length.
      assert (H64 : 5 + 0x7fffffff + 2 < 2 ^ 64) by reflexivity. lia.
    + apply Hdata. exact Hplain.
  - destruct (4 <=? p) eqn:E4; [apply Z.leb_le in E4; lia|].
    unfold PyPickle.load_proto.
    destruct (rest ++ ".")%string eqn:Er.
    + cbn [bind]. apply Hdata. exact Hplain.
    + rewrite H80. cbn [bind]. apply Hdata. exact Hplain.
Qed.

Lemma short_long (z : Z) :
  Z.abs z < 10 ^ PyPickle.int_max_str_digits ->
  (Z.log2 (Z.abs z) + 1) / 8 + 1 <= 0x7fffffff.
Proof.
  intros Hz.
  assert (Hb : 10 ^ PyPickle.int_max_str_digits <= 2 ^ 14285)
    by (apply Z.leb_le; vm_compute; reflexivity).
  assert (Hl : Z.log2 (Z.abs z) < 14285).
  { destruct (Z.eq_dec (Z.abs z) 0) as [->|Hnz]; [simpl; lia|].
    apply Z.log2_lt_pow2; lia. }
  pose proof (Z.log2_nonneg (Z.abs z)) as H0.
  assert (Hq : (Z.log2 (Z.abs z) + 1) / 8 <= 14285 / 8)
    by (apply Z.div_le_mono; lia).
  change (14285 / 8) with 1785 in Hq. lia.
Qed.

(** [dumps] serialises every value of the fragment. *)
Lemma dumps_in_fragment (p : Z) (v : PyPickle.value) :
  PyPickle.in_fragment v = true ->
  exists payload, PyPickle.dumps p v = Ok payload.
Proof.
  intros Hv.
  assert (Hs : exists body, PyPickle.save p v = Ok body).
  { destruct v as [|b|z|]; cbn [PyPickle.save]; try (eexists; reflexivity).
    - cbn [PyPickle.in_fragment] in Hv. apply Z.ltb_lt in Hv.
      pose proof (short_long z Hv) as Hshort.
      assert (Hlen : Z.of_nat (String.length (PyPickle.encode_long z))
                     <= 0x7fffffff).
      { destruct (Z.eq_dec z 0) as [->|Hz]; [simpl; lia|].
        destruct (encode_long_fits z Hz) as [n [_ [Henc [_ Hn]]]].
        rewrite Henc, le_bytes_length. lia. }
      apply Z.leb_le in Hlen. apply Z.ltb_lt in Hv.
      unfold PyPickle.save_long. rewrite Hlen, Hv.
      repeat match goal with
             | |- context [if ?c then _ else _] => destruct c
             end; eexists; reflexivity.
    - discriminate Hv. }
  destruct Hs as [body Hs]. unfold PyPickle.dumps. rewrite Hs. cbn [bind].
  eexists; reflexivity.
Qed.

(** ** Config *)

(** Whatever [pickle] does, [get_value] after [set_value] is [loads] of
    what [dumps] gave, and [set_value] raises what [dumps] raises. *)
Lemma Config_get_set {V : Type} (pickle : Pickle V) (self : Config.t) (v : V) :
  (forall self',
      Config_set_value pickle self v = Ok self' ->
      exists payload,
        dumps pickle v = Ok payload
        /\ Config.value_str self' = payload
        /\ Config_get_value pickle self' = loads pickle payload)
  /\ (forall e, dumps pickle v = Raise e ->
                Config_set_value pickle self v = Raise e).
Proof.
  unfold Config_set_value, Config_get_value.
  destruct (dumps pickle v) as [payload|e]; simpl; split.
  - intros self' [= <-]. exists payload. repeat split; reflexivity.
  - discriminate.
  - discriminate.
  - intros e' [= <-]. reflexivity.
Qed.

(** The bytes for 300 under the six protocols: text, BININT2, and BININT2
    after PROTO, in a frame from protocol 4 on. *)
Example dumps_300 :
  map (fun p => PyPickle.dumps p (PyPickle.PyInt 300)) [0; 1; 2; 3; 4; 5]
  = map Ok
      [String "I" (String "3" (String "0" (String "0" (String "010" "."))));
       String "M" (String "," (String "001" "."));
       String (PyPickle.byte 0x80)
         (String "002" (String "M" (String "," (String "001" "."))));
       String (PyPickle.byte 0x80)
         (String "003" (String "M" (String "," (String "001" "."))));
       String (PyPickle.byte 0x80)
         (String "004"
            (String (PyPickle.byte 0x95)
               (PyPickle.le_bytes 8 4
                ++ String "M" (String "," (String "001" ".")))));
       String (PyPickle.byte 0x80)
         (String "005"
            (String (PyPickle.byte 0x95)
               (PyPickle.le_bytes 8 4
                ++ String "M" (String "," (String "001" ".")))))]%string.
Proof. vm_compute. reflexivity. Qed.



